(** * llm-chat: provider abstraction, registry, session and exports

    A shallow embedding of the Go sources of llm-chat
    (internal/providers, internal/registry, internal/chat,
    internal/history, internal/assessment, pkg/models) together with the
    properties stated about them.

    Conventions.
    - Go [string] is a byte string: Rocq's [string] (one [ascii] per byte).
    - Go [int] is a 64-bit integer, modelled in [Z]; every value computed
      below is far from the wrap-around.
    - Go [error] values are modelled by their message.
    - Go [map] is stdpp's [gmap]; a nil map is [None]. *)

From Stdlib Require Import ZArith Ascii String Floats.
From stdpp Require Import gmap strings list fin_maps sorting.

Local Open Scope Z_scope.

(** ** pkg/models *)

Module Models.

Inductive Role := RoleSystem | RoleUser | RoleAssistant.

(** [string(msg.Role)] *)
Definition Role_string (r : Role) : string :=
  match r with
  | RoleSystem => "system"
  | RoleUser => "user"
  | RoleAssistant => "assistant"
  end.

(** [time.Time] values are produced by the clock and only formatted by
    the code; they are kept abstract as seconds. *)
Definition Time := Z.

Record Message := {
  Role_ : Role;
  Content : string;
  Timestamp : Time
}.

Definition float64 := PrimFloat.float.

(** Go's conversion [float32(x)]: rounding of a binary64 value to
    binary32 (24-bit significand), to nearest even. *)
Definition float32 := spec_float.

Definition float32_of (x : float64) : float32 :=
  match Prim2SF x with
  | S754_finite s m e => binary_round 24 128 s m e
  | other => other
  end.

Record ChatRequest := {
  Messages : list Message;
  Temperature : float64;
  MaxTokens : Z;
  Stream : bool
}.

(** [Error] is [nil] ([None]) or an error carrying a message. *)
Record StreamChunk := {
  ChunkContent : string;
  Done : bool;
  Error : option string
}.

End Models.

(** ** internal/providers: model tables and Initialize *)

Module Providers.
Import Models.

Record Config := {
  APIKey : string;
  BaseURL : string;
  Model : string;
  CfgTemperature : float64;
  CfgMaxTokens : Z;
  Timeout : Z
}.

Record Metadata := {
  MdName : string;
  DisplayName : string;
  Description : string;
  RequiresAPI : bool;
  DefaultURL : string;
  EnvVarKey : string;
  EnvVarModel : string
}.

Definition groqModels : gmap string string :=
  list_to_map [
    ("llama-70b", "llama-3.3-70b-versatile");
    ("llama-8b", "llama-3.1-8b-instant");
    ("mixtral", "mixtral-8x7b-32768");
    ("gemma-7b", "gemma2-9b-it") ].

Definition togetherModels : gmap string string :=
  list_to_map [
    ("llama-70b", "meta-llama/Llama-3.3-70B-Instruct-Turbo");
    ("llama-70b-free", "meta-llama/Llama-3.3-70B-Instruct-Turbo-Free");
    ("deepseek", "deepseek-ai/DeepSeek-R1-Distill-Llama-70B");
    ("qwen-72b", "Qwen/Qwen2.5-72B-Instruct-Turbo") ].

Definition sambaModels : gmap string string :=
  list_to_map [
    ("llama-70b", "Meta-Llama-3.3-70B-Instruct");
    ("llama-8b", "Meta-Llama-3.1-8B-Instruct");
    ("qwen-72b", "Qwen2.5-72B-Instruct") ].

Definition geminiModels : gmap string string :=
  list_to_map [
    ("flash", "gemini-2.0-flash-exp");
    ("flash-lite", "gemini-2.0-flash-lite");
    ("pro", "gemini-2.5-pro-exp-03-25") ].

(** The three OpenAI-compatible providers have the same fields; the
    client handle is present exactly when the API key was. *)
Record GroqProvider := {
  groq_model : string;
  groq_isAvailable : bool
}.

Record TogetherProvider := {
  together_model : string;
  together_isAvailable : bool
}.

Record SambaProvider := {
  samba_model : string;
  samba_isAvailable : bool
}.

(** [client] is the SDK client, present or nil.  [model] is the SDK's
    generative-model handle: the model name it was created for and the
    temperature set on it; [None] when nil. *)
Record GeminiProvider := {
  gemini_client : bool;
  gemini_model : option (string * float32);
  gemini_modelName : string;
  gemini_isAvailable : bool
}.

(** Every Initialize returns the updated receiver and the [error]. *)
Definition GroqProvider_Initialize (cfg : Config) (g : GroqProvider)
  : GroqProvider * option string :=
  (if decide (Model cfg ≠ "") then
     match groqModels !! Model cfg with
     | Some fullModel =>
         {| groq_model := fullModel; groq_isAvailable := groq_isAvailable g |}
     | None =>
         {| groq_model := Model cfg; groq_isAvailable := groq_isAvailable g |}
     end
   else g, None).

Definition TogetherProvider_Initialize (cfg : Config) (t : TogetherProvider)
  : TogetherProvider * option string :=
  (if decide (Model cfg ≠ "") then
     match togetherModels !! Model cfg with
     | Some fullModel =>
         {| together_model := fullModel;
            together_isAvailable := together_isAvailable t |}
     | None =>
         {| together_model := Model cfg;
            together_isAvailable := together_isAvailable t |}
     end
   else t, None).

Definition SambaProvider_Initialize (cfg : Config) (s : SambaProvider)
  : SambaProvider * option string :=
  (if decide (Model cfg ≠ "") then
     match sambaModels !! Model cfg with
     | Some fullModel =>
         {| samba_model := fullModel; samba_isAvailable := samba_isAvailable s |}
     | None =>
         {| samba_model := Model cfg; samba_isAvailable := samba_isAvailable s |}
     end
   else s, None).

Definition GeminiProvider_Initialize (cfg : Config) (g : GeminiProvider)
  : GeminiProvider * option string :=
  (if decide (Model cfg ≠ "") then
     let modelName :=
       match geminiModels !! Model cfg with
       | Some fullModel => fullModel
       | None => Model cfg
       end in
     {| gemini_client := gemini_client g;
        gemini_model :=
          if gemini_client g then Some (modelName, float32_of (CfgTemperature cfg))
          else gemini_model g;
        gemini_modelName := modelName;
        gemini_isAvailable := gemini_isAvailable g |}
   else g, None).

(** The hosted providers behind one view: the alias table consulted by
    Initialize, the current model, and Initialize itself. *)
Inductive Hosted :=
| HGroq (g : GroqProvider)
| HTogether (t : TogetherProvider)
| HSamba (s : SambaProvider)
| HGemini (g : GeminiProvider).

Definition aliases (h : Hosted) : gmap string string :=
  match h with
  | HGroq _ => groqModels
  | HTogether _ => togetherModels
  | HSamba _ => sambaModels
  | HGemini _ => geminiModels
  end.

Definition current_model (h : Hosted) : string :=
  match h with
  | HGroq g => groq_model g
  | HTogether t => together_model t
  | HSamba s => samba_model s
  | HGemini g => gemini_modelName g
  end.

Definition Initialize (cfg : Config) (h : Hosted) : Hosted * option string :=
  match h with
  | HGroq g => let '(g', e) := GroqProvider_Initialize cfg g in (HGroq g', e)
  | HTogether t =>
      let '(t', e) := TogetherProvider_Initialize cfg t in (HTogether t', e)
  | HSamba s => let '(s', e) := SambaProvider_Initialize cfg s in (HSamba s', e)
  | HGemini g => let '(g', e) := GeminiProvider_Initialize cfg g in (HGemini g', e)
  end.

(** What the claim about Initialize promises for the model, as a
    function of the alias table. *)
Definition resolved_model (tbl : gmap string string) (cur m : string) : string :=
  if decide (m = "") then cur
  else match tbl !! m with Some full => full | None => m end.

End Providers.

Module ProvidersFacts.
Import Models Providers.

Lemma Initialize_model cfg h :
  current_model (Initialize cfg h).1
  = resolved_model (aliases h) (current_model h) (Model cfg).
Proof.
  unfold resolved_model.
  destruct h as [g|t|s|g]; simpl;
    [ unfold GroqProvider_Initialize
    | unfold TogetherProvider_Initialize
    | unfold SambaProvider_Initialize
    | unfold GeminiProvider_Initialize ];
    repeat case_decide; try congruence; simpl;
    match goal with |- context [ ?tbl !! ?k ] => destruct (tbl !! k) end;
    reflexivity.
Qed.

Lemma Initialize_no_error cfg h : (Initialize cfg h).2 = None.
Proof.
  destruct h as [g|t|s|g]; simpl;
    [ unfold GroqProvider_Initialize
    | unfold TogetherProvider_Initialize
    | unfold SambaProvider_Initialize
    | unfold GeminiProvider_Initialize ];
    reflexivity.
Qed.

(** C6. For every hosted provider (groq, together, samba, gemini) and
    every configuration, Initialize never returns an error; with a
    non-empty cfg.Model that is a key of the provider's alias table the
    model becomes the table's full vendor identifier; with a non-empty
    cfg.Model that is not a key the model becomes cfg.Model itself; with
    an empty cfg.Model the model is left unchanged. *)
Theorem C6_Initialize_alias_or_literal (cfg : Config) (h : Hosted) :
  (Initialize cfg h).2 = None
  ∧ (∀ full, Model cfg ≠ "" → aliases h !! Model cfg = Some full →
       current_model (Initialize cfg h).1 = full)
  ∧ (Model cfg ≠ "" → aliases h !! Model cfg = None →
       current_model (Initialize cfg h).1 = Model cfg)
  ∧ (Model cfg = "" → current_model (Initialize cfg h).1 = current_model h).
Proof.
  split; [apply Initialize_no_error|].
  rewrite Initialize_model. unfold resolved_model.
  repeat split.
  - intros full Hne Hl. case_decide; [done|]. by rewrite Hl.
  - intros Hne Hl. case_decide; [done|]. by rewrite Hl.
  - intros He. case_decide; done.
Qed.

End ProvidersFacts.

Module ProvidersWitness.
Import Models Providers ProvidersFacts.

Definition cfg_of_model (m : string) : Config :=
  {| APIKey := ""; BaseURL := ""; Model := m;
     CfgTemperature := 0.5%float; CfgMaxTokens := 4000; Timeout := 0 |}.

Definition groq0 : Hosted :=
  HGroq {| groq_model := "llama-3.3-70b-versatile"; groq_isAvailable := true |}.

Lemma C6_witness :
  current_model (Initialize (cfg_of_model "mixtral") groq0).1 = "mixtral-8x7b-32768"
  ∧ current_model (Initialize (cfg_of_model "my/custom-model") groq0).1 = "my/custom-model"
  ∧ current_model (Initialize (cfg_of_model "") groq0).1 = "llama-3.3-70b-versatile".
Proof.
  split; [|split].
  - apply (proj1 (proj2 (C6_Initialize_alias_or_literal (cfg_of_model "mixtral") groq0))).
    + discriminate.
    + vm_compute. reflexivity.
  - apply (proj1 (proj2 (proj2
      (C6_Initialize_alias_or_literal (cfg_of_model "my/custom-model") groq0)))).
    + discriminate.
    + vm_compute. reflexivity.
  - apply (proj2 (proj2 (proj2
      (C6_Initialize_alias_or_literal (cfg_of_model "") groq0)))).
    reflexivity.
Defined.

End ProvidersWitness.

(** ** Go's [sort.Strings]: ascending byte-wise order *)

Module Sort.

Definition string_le (a b : string) : Prop := String.leb a b = true.

#[global] Instance string_le_dec : RelDecision string_le.
Proof. intros a b. unfold string_le. apply _. Defined.

#[global] Instance string_le_total : Total string_le.
Proof. intros a b. apply String.leb_total. Qed.

#[global] Instance string_le_antisym : AntiSymm (=) string_le.
Proof. intros a b. apply String.leb_antisym. Qed.

#[global] Instance string_le_trans : Transitive string_le.
Proof.
  unfold string_le, String.leb. intros a.
  induction a as [|x a IH]; intros [|y b] [|z c]; simpl; try done.
  unfold Ascii.compare.
  destruct (N.compare_spec (N_of_ascii x) (N_of_ascii y));
    destruct (N.compare_spec (N_of_ascii y) (N_of_ascii z));
    destruct (N.compare_spec (N_of_ascii x) (N_of_ascii z));
    try done; try lia.
  apply IH.
Qed.

Definition Strings (l : list string) : list string := merge_sort string_le l.

Lemma Strings_sorted l : StronglySorted string_le (Strings l).
Proof. apply StronglySorted_merge_sort; apply _. Qed.

Lemma Strings_perm l : Strings l ≡ₚ l.
Proof. apply merge_sort_Permutation. Qed.

Lemma Strings_elem n l : n ∈ Strings l ↔ n ∈ l.
Proof. by rewrite Strings_perm. Qed.

Lemma Strings_NoDup l : NoDup l → NoDup (Strings l).
Proof. by rewrite Strings_perm. Qed.

(** The result does not depend on the order in which the names were
    collected (Go's map iteration order is unspecified). *)
Lemma Strings_order_irrelevant l1 l2 : l1 ≡ₚ l2 → Strings l1 = Strings l2.
Proof.
  intros Hp. apply (Sorted_unique string_le).
  - apply StronglySorted_Sorted, Strings_sorted.
  - apply StronglySorted_Sorted, Strings_sorted.
  - by rewrite !Strings_perm.
Qed.

End Sort.

(** ** internal/registry *)

Module registry.
Import Models Providers.

(** The part of the [providers.Provider] interface the registry calls. *)
Class Provider (P : Type) := {
  Name : P → string;
  IsAvailable : P → bool
}.

Section Registry.
Context {P : Type} `{Provider P}.

(** The two maps of the struct; [mu] only serialises the methods, each of
    which runs here as one atomic state transformer. *)
Record Registry := {
  providers : gmap string P;
  metadata : gmap string Metadata
}.

Definition New : Registry := {| providers := ∅; metadata := ∅ |}.

Definition already_registered (name : string) : string :=
  "provider " +:+ name +:+ " already registered".

Definition not_found (name : string) : string :=
  "provider " +:+ name +:+ " not found".

Definition Register (provider : P) (md : Metadata) (r : Registry)
  : Registry * option string :=
  let name := Name provider in
  match providers r !! name with
  | Some _ => (r, Some (already_registered name))
  | None =>
      ({| providers := <[name := provider]> (providers r);
          metadata := <[name := md]> (metadata r) |}, None)
  end.

Definition Get (name : string) (r : Registry) : Registry * (P + string) :=
  match providers r !! name with
  | Some provider => (r, inl provider)
  | None => (r, inr (not_found name))
  end.

Definition GetMetadata (name : string) (r : Registry)
  : Registry * (Metadata + string) :=
  match metadata r !! name with
  | Some md => (r, inl md)
  | None => (r, inr ("metadata for provider " +:+ name +:+ " not found"))
  end.

(** [for name := range r.providers] visits every entry once, in an order
    Go leaves unspecified; [map_to_list] fixes one. *)
Definition List (r : Registry) : Registry * list string :=
  let names := (map_to_list (providers r)).*1 in
  (r, Sort.Strings names).

Definition ListAvailable (r : Registry) : Registry * list string :=
  let available :=
    (filter (λ '(name, provider), IsAvailable provider = true)
            (map_to_list (providers r))).*1 in
  (r, Sort.Strings available).

(** A call on the registry, and the state after a sequence of calls. *)
Inductive call :=
| CallRegister (provider : P) (md : Metadata)
| CallGet (name : string)
| CallGetMetadata (name : string)
| CallList
| CallListAvailable.

Definition after (c : call) (r : Registry) : Registry :=
  match c with
  | CallRegister provider md => (Register provider md r).1
  | CallGet name => (Get name r).1
  | CallGetMetadata name => (GetMetadata name r).1
  | CallList => (List r).1
  | CallListAvailable => (ListAvailable r).1
  end.

Definition after_all (cs : list call) (r : Registry) : Registry :=
  foldl (λ r c, after c r) r cs.

Lemma after_keeps_provider c r name p :
  providers r !! name = Some p → providers (after c r) !! name = Some p.
Proof.
  intros Hl. destruct c as [q md|n|n| |]; simpl; try done.
  - unfold Register. destruct (providers r !! Name q) eqn:Hq; simpl; [done|].
    rewrite lookup_insert_ne; [done|]. intros Heq. congruence.
  - unfold Get. by destruct (providers r !! n).
  - unfold GetMetadata. by destruct (metadata r !! n).
Qed.

Lemma after_all_keeps_provider cs r name p :
  providers r !! name = Some p → providers (after_all cs r) !! name = Some p.
Proof.
  revert r. induction cs as [|c cs IH]; intros r Hl; simpl; [done|].
  apply IH. by apply after_keeps_provider.
Qed.

(** C4. For a name registered with provider [p], Get returns [p] and
    leaves the registry unchanged, now and after any further sequence of
    calls on the registry; Register with a provider whose Name() is
    already registered fails with the duplicate-name error and leaves both
    maps unchanged. *)
Theorem C4_Get_stable_Register_duplicate (r : Registry) :
  (∀ name p, providers r !! name = Some p →
     Get name r = (r, inl p)
     ∧ ∀ cs, Get name (after_all cs r) = (after_all cs r, inl p))
  ∧ (∀ provider md, is_Some (providers r !! Name provider) →
       Register provider md r = (r, Some (already_registered (Name provider)))).
Proof.
  split.
  - intros name p Hl. split.
    + unfold Get. by rewrite Hl.
    + intros cs. unfold Get. by rewrite (after_all_keeps_provider cs r name p Hl).
  - intros provider md [q Hq]. unfold Register. by rewrite Hq.
Qed.

Lemma names_NoDup (m : gmap string P) : NoDup (map_to_list m).*1.
Proof. apply NoDup_fst_map_to_list. Qed.

Lemma elem_of_names (m : gmap string P) n :
  n ∈ (map_to_list m).*1 ↔ is_Some (m !! n).
Proof.
  rewrite list_elem_of_fmap. split.
  - intros [[k v] [-> Hin]]. apply elem_of_map_to_list in Hin. by exists v.
  - intros [v Hv]. exists (n, v). split; [done|]. by apply elem_of_map_to_list.
Qed.

Lemma elem_of_available (m : gmap string P) n :
  n ∈ (filter (λ '(name, provider), IsAvailable provider = true)
              (map_to_list m)).*1
  ↔ ∃ p, m !! n = Some p ∧ IsAvailable p = true.
Proof.
  rewrite list_elem_of_fmap. split.
  - intros [[k v] [-> Hin]]. apply list_elem_of_filter in Hin as [Hav Hin].
    apply elem_of_map_to_list in Hin. by exists v.
  - intros (v & Hv & Hav). exists (n, v). split; [done|].
    apply list_elem_of_filter. split; [done|]. by apply elem_of_map_to_list.
Qed.

Lemma available_NoDup (m : gmap string P) :
  NoDup (filter (λ '(name, provider), IsAvailable provider = true)
                (map_to_list m)).*1.
Proof.
  apply NoDup_fmap_fst.
  - intros k v1 v2 H1 H2.
    apply list_elem_of_filter in H1 as [_ H1], H2 as [_ H2].
    apply elem_of_map_to_list in H1, H2. congruence.
  - apply NoDup_filter, NoDup_map_to_list.
Qed.

(** C7. List() returns the registered names, each once, in ascending
    string order; ListAvailable() returns, each once and in ascending
    string order, exactly the registered names whose provider's
    IsAvailable() is true. Neither changes the registry. *)
Theorem C7_List_sorted (r : Registry) :
  ((List r).1 = r
   ∧ StronglySorted Sort.string_le (List r).2
   ∧ NoDup (List r).2
   ∧ ∀ n, n ∈ (List r).2 ↔ is_Some (providers r !! n))
  ∧ ((ListAvailable r).1 = r
     ∧ StronglySorted Sort.string_le (ListAvailable r).2
     ∧ NoDup (ListAvailable r).2
     ∧ ∀ n, n ∈ (ListAvailable r).2
            ↔ ∃ p, providers r !! n = Some p ∧ IsAvailable p = true).
Proof.
  unfold List, ListAvailable; simpl. repeat split; try apply Sort.Strings_sorted.
  - apply Sort.Strings_NoDup, names_NoDup.
  - rewrite Sort.Strings_elem. apply elem_of_names.
  - rewrite Sort.Strings_elem. apply elem_of_names.
  - apply Sort.Strings_NoDup, available_NoDup.
  - rewrite Sort.Strings_elem. apply elem_of_available.
  - rewrite Sort.Strings_elem. apply elem_of_available.
Qed.

End Registry.

#[global] Arguments Registry P : clear implicits.

End registry.

(** ** internal/providers: the requests handed to the backends *)

Module Requests.
Import Models Providers.

(** [openai.ChatCompletionMessage] and [openai.ChatCompletionRequest]
    (the fields the providers fill in). *)
Record ChatCompletionMessage := {
  ccm_Role : string;
  ccm_Content : string
}.

Record ChatCompletionRequest := {
  ccr_Model : string;
  ccr_Messages : list ChatCompletionMessage;
  ccr_Temperature : float32;
  ccr_MaxTokens : Z;
  ccr_Stream : bool
}.

Definition openai_messages (msgs : list Message) : list ChatCompletionMessage :=
  (λ msg, {| ccm_Role := Role_string (Role_ msg); ccm_Content := Content msg |})
    <$> msgs.

Definition GroqProvider_SendMessage_request (g : GroqProvider) (req : ChatRequest)
  : ChatCompletionRequest :=
  {| ccr_Model := groq_model g;
     ccr_Messages := openai_messages (Messages req);
     ccr_Temperature := float32_of (Temperature req);
     ccr_MaxTokens := MaxTokens req;
     ccr_Stream := false |}.

Definition GroqProvider_StreamMessage_request (g : GroqProvider) (req : ChatRequest)
  : ChatCompletionRequest :=
  {| ccr_Model := groq_model g;
     ccr_Messages := openai_messages (Messages req);
     ccr_Temperature := float32_of (Temperature req);
     ccr_MaxTokens := MaxTokens req;
     ccr_Stream := true |}.

Definition TogetherProvider_SendMessage_request (t : TogetherProvider)
  (req : ChatRequest) : ChatCompletionRequest :=
  {| ccr_Model := together_model t;
     ccr_Messages := openai_messages (Messages req);
     ccr_Temperature := float32_of (Temperature req);
     ccr_MaxTokens := MaxTokens req;
     ccr_Stream := false |}.

Definition TogetherProvider_StreamMessage_request (t : TogetherProvider)
  (req : ChatRequest) : ChatCompletionRequest :=
  {| ccr_Model := together_model t;
     ccr_Messages := openai_messages (Messages req);
     ccr_Temperature := float32_of (Temperature req);
     ccr_MaxTokens := MaxTokens req;
     ccr_Stream := true |}.

Definition SambaProvider_SendMessage_request (s : SambaProvider) (req : ChatRequest)
  : ChatCompletionRequest :=
  {| ccr_Model := samba_model s;
     ccr_Messages := openai_messages (Messages req);
     ccr_Temperature := float32_of (Temperature req);
     ccr_MaxTokens := MaxTokens req;
     ccr_Stream := false |}.

Definition SambaProvider_StreamMessage_request (s : SambaProvider) (req : ChatRequest)
  : ChatCompletionRequest :=
  {| ccr_Model := samba_model s;
     ccr_Messages := openai_messages (Messages req);
     ccr_Temperature := float32_of (Temperature req);
     ccr_MaxTokens := MaxTokens req;
     ccr_Stream := true |}.

(** The local provider. *)
Record OllamaProvider := {
  ollama_config : Config;
  ollama_baseURL : string;
  ollama_model : string;
  ollama_isAvailable : bool
}.

(** Values stored in [map[string]interface{}]. *)
Inductive any :=
| AnyFloat64 (x : float64)
| AnyInt (n : Z).

Record api_Message := {
  am_Role : string;
  am_Content : string
}.

(** [api.ChatRequest]; [acr_Options] is [None] for the nil map. *)
Record api_ChatRequest := {
  acr_Model : string;
  acr_Messages : list api_Message;
  acr_Stream : bool;
  acr_Options : option (gmap string any)
}.

Definition ollama_messages (msgs : list Message) : list api_Message :=
  (λ msg, {| am_Role := Role_string (Role_ msg); am_Content := Content msg |})
    <$> msgs.

Definition OllamaProvider_SendMessage_request (p : OllamaProvider) (req : ChatRequest)
  : api_ChatRequest :=
  let Options0 : option (gmap string any) := None in
  let Options1 :=
    if (0 <? Temperature req)%float
    then Some {[ "temperature" := AnyFloat64 (Temperature req) ]}
    else Options0 in
  let Options2 :=
    if 0 <? MaxTokens req
    then Some (<[ "num_predict" := AnyInt (MaxTokens req) ]>
                 (match Options1 with None => ∅ | Some o => o end))
    else Options1 in
  {| acr_Model := ollama_model p;
     acr_Messages := ollama_messages (Messages req);
     acr_Stream := false;
     acr_Options := Options2 |}.

Definition OllamaProvider_StreamMessage_request (p : OllamaProvider)
  (req : ChatRequest) : api_ChatRequest :=
  let Options0 : option (gmap string any) := None in
  let Options1 :=
    if (0 <? Temperature req)%float
    then Some {[ "temperature" := AnyFloat64 (Temperature req) ]}
    else Options0 in
  let Options2 :=
    if 0 <? MaxTokens req
    then Some (<[ "num_predict" := AnyInt (MaxTokens req) ]>
                 (match Options1 with None => ∅ | Some o => o end))
    else Options1 in
  {| acr_Model := ollama_model p;
     acr_Messages := ollama_messages (Messages req);
     acr_Stream := true;
     acr_Options := Options2 |}.

(** Reading an option of a request: absent when the map is nil or has no
    such key. *)
Definition option_of (r : api_ChatRequest) (key : string) : option any :=
  acr_Options r ≫= (λ o, o !! key).

Definition forwards (r : ChatCompletionRequest) (req : ChatRequest) : Prop :=
  ccr_Temperature r = float32_of (Temperature req) ∧ ccr_MaxTokens r = MaxTokens req.

Definition sets_when_positive (r : api_ChatRequest) (req : ChatRequest) : Prop :=
  option_of r "temperature"
  = (if (0 <? Temperature req)%float then Some (AnyFloat64 (Temperature req)) else None)
  ∧ option_of r "num_predict"
    = (if 0 <? MaxTokens req then Some (AnyInt (MaxTokens req)) else None).

Lemma ollama_options_spec (t : float64) (n : Z) :
  let Options1 : option (gmap string any) :=
    if (0 <? t)%float then Some {[ "temperature" := AnyFloat64 t ]} else None in
  let Options2 :=
    if 0 <? n
    then Some (<[ "num_predict" := AnyInt n ]>
                 (match Options1 with None => ∅ | Some o => o end))
    else Options1 in
  Options2 ≫= (λ o, o !! "temperature")
  = (if (0 <? t)%float then Some (AnyFloat64 t) else None)
  ∧ Options2 ≫= (λ o, o !! "num_predict")
    = (if 0 <? n then Some (AnyInt n) else None).
Proof.
  simpl. destruct (0 <? t)%float, (0 <? n); simpl; split;
    repeat first
      [ rewrite lookup_insert_eq
      | rewrite lookup_insert_ne by discriminate
      | rewrite lookup_singleton_eq
      | rewrite lookup_singleton_ne by discriminate
      | rewrite lookup_empty ];
    reflexivity.
Qed.

(** C5. For every ChatRequest, the requests that groq, together and samba
    hand to their backend (SendMessage and StreamMessage alike) carry
    float32(req.Temperature) and req.MaxTokens whatever their values; the
    requests of the local ollama provider carry the option "temperature"
    exactly when req.Temperature > 0 and the option "num_predict" exactly
    when req.MaxTokens > 0, and neither otherwise. *)
Theorem C5_parameter_mapping (req : ChatRequest)
  (g : GroqProvider) (t : TogetherProvider) (s : SambaProvider)
  (p : OllamaProvider) :
  (forwards (GroqProvider_SendMessage_request g req) req
   ∧ forwards (GroqProvider_StreamMessage_request g req) req
   ∧ forwards (TogetherProvider_SendMessage_request t req) req
   ∧ forwards (TogetherProvider_StreamMessage_request t req) req
   ∧ forwards (SambaProvider_SendMessage_request s req) req
   ∧ forwards (SambaProvider_StreamMessage_request s req) req)
  ∧ sets_when_positive (OllamaProvider_SendMessage_request p req) req
  ∧ sets_when_positive (OllamaProvider_StreamMessage_request p req) req.
Proof.
  split; [repeat split|].
  split; apply ollama_options_spec.
Qed.

(** A request with zero temperature and zero token budget: the hosted
    request carries the zeros, the local one has no options at all. *)
Definition req_zero : ChatRequest :=
  {| Messages := []; Temperature := 0%float; MaxTokens := 0; Stream := true |}.

Example hosted_forwards_zero g :
  ccr_Temperature (GroqProvider_StreamMessage_request g req_zero) = S754_zero false
  ∧ ccr_MaxTokens (GroqProvider_StreamMessage_request g req_zero) = 0.
Proof. split; reflexivity. Qed.

Example ollama_omits_zero p :
  acr_Options (OllamaProvider_StreamMessage_request p req_zero) = None.
Proof. reflexivity. Qed.

Example float32_of_half : float32_of 0.5%float = S754_finite false 8388608 (-24).
Proof. vm_compute. reflexivity. Qed.

End Requests.

(** ** The five providers as registry entries *)

Module Catalogue.
Import Models Providers Requests registry.

Inductive AnyProvider :=
| Ollama (p : OllamaProvider)
| Groq (g : GroqProvider)
| Together (t : TogetherProvider)
| Samba (s : SambaProvider)
| Gemini (g : GeminiProvider).

#[global] Instance AnyProvider_Provider : Provider AnyProvider := {
  Name p :=
    match p with
    | Ollama _ => "ollama"
    | Groq _ => "groq"
    | Together _ => "together"
    | Samba _ => "samba"
    | Gemini _ => "gemini"
    end;
  IsAvailable p :=
    match p with
    | Ollama p => ollama_isAvailable p
    | Groq g => groq_isAvailable g
    | Together t => together_isAvailable t
    | Samba s => samba_isAvailable s
    | Gemini g => gemini_isAvailable g
    end
}.

Definition GetGroqMetadata : Metadata :=
  {| MdName := "groq"; DisplayName := "Groq";
     Description := "Ultra-fast LLM inference"; RequiresAPI := true;
     DefaultURL := "https://api.groq.com"; EnvVarKey := "GROQ_API_KEY";
     EnvVarModel := "GROQ_MODEL" |}.

Definition GetSambaMetadata : Metadata :=
  {| MdName := "samba"; DisplayName := "SambaNova";
     Description := "High-performance AI inference"; RequiresAPI := true;
     DefaultURL := "https://api.sambanova.ai"; EnvVarKey := "SAMBA_API_KEY";
     EnvVarModel := "SAMBA_MODEL" |}.

Definition a_groq (avail : bool) : AnyProvider :=
  Groq {| groq_model := "llama-3.3-70b-versatile"; groq_isAvailable := avail |}.

Definition a_samba (avail : bool) : AnyProvider :=
  Samba {| samba_model := "Meta-Llama-3.3-70B-Instruct"; samba_isAvailable := avail |}.

(** A registry holding an available samba and an unavailable groq. *)
Definition reg2 : Registry AnyProvider :=
  (Register (a_groq false) GetGroqMetadata
     (Register (a_samba true) GetSambaMetadata New).1).1.

Example reg2_List : (List reg2).2 = ["groq"; "samba"].
Proof. vm_compute. reflexivity. Qed.

Example reg2_ListAvailable : (ListAvailable reg2).2 = ["samba"].
Proof. vm_compute. reflexivity. Qed.

Lemma reg2_groq : providers reg2 !! "groq" = Some (a_groq false).
Proof. vm_compute. reflexivity. Qed.

Lemma C4_witness :
  (Get "groq" reg2 = (reg2, inl (a_groq false))
   ∧ ∀ cs, Get "groq" (after_all cs reg2) = (after_all cs reg2, inl (a_groq false)))
  ∧ Register (a_groq true) GetGroqMetadata reg2
    = (reg2, Some (already_registered "groq")).
Proof.
  split.
  - apply (proj1 (C4_Get_stable_Register_duplicate reg2) "groq" (a_groq false)).
    vm_compute. reflexivity.
  - refine (proj2 (C4_Get_stable_Register_duplicate reg2) (a_groq true) GetGroqMetadata _).
    exists (a_groq false). vm_compute. reflexivity.
Defined.

End Catalogue.

(** ** The functions of Go's [strings] package used by the sources

    All of these act on bytes.  [ContainsAny], [Count] and [ReplaceAll]
    are only ever called with ASCII constants, for which Go's rune-wise
    definitions coincide with the byte-wise ones below. *)

Module GoStrings.

Definition len (s : string) : Z := Z.of_nat (String.length s).

(** [strings.HasPrefix(s, prefix)] *)
Definition HasPrefix (s prefix : string) : bool := String.prefix prefix s.

(** [strings.Contains(s, substr)] *)
Fixpoint Contains (s substr : string) : bool :=
  if String.prefix substr s then true
  else match s with
       | EmptyString => false
       | String _ s' => Contains s' substr
       end.

(** [strings.ContainsAny(s, chars)] *)
Fixpoint ContainsAny (s chars : string) : bool :=
  match s with
  | EmptyString => false
  | String c s' =>
      if Contains chars (String c EmptyString) then true else ContainsAny s' chars
  end.

(** Scanning with a non-empty pattern: [skip] counts the bytes of an
    occurrence just matched that are still to be passed over, so that
    occurrences do not overlap. *)
Fixpoint count_from (skip : nat) (s substr : string) : Z :=
  match s with
  | EmptyString => 0
  | String _ s' =>
      match skip with
      | S k => count_from k s' substr
      | O =>
          if String.prefix substr s
          then 1 + count_from (String.length substr - 1) s' substr
          else count_from 0 s' substr
      end
  end.

(** [strings.Count(s, substr)] for a non-empty [substr]. *)
Definition Count (s substr : string) : Z := count_from 0 s substr.

Fixpoint replace_from (skip : nat) (s old new : string) : string :=
  match s with
  | EmptyString => EmptyString
  | String c s' =>
      match skip with
      | S k => replace_from k s' old new
      | O =>
          if String.prefix old s
          then new +:+ replace_from (String.length old - 1) s' old new
          else String c (replace_from 0 s' old new)
      end
  end.

(** [strings.ReplaceAll(s, old, new)] for a non-empty [old]. *)
Definition ReplaceAll (s old new : string) : string := replace_from 0 s old new.

(** [strings.Repeat(s, count)] *)
Fixpoint Repeat (s : string) (count : nat) : string :=
  match count with
  | O => EmptyString
  | S n => s +:+ Repeat s n
  end.

(** [strings.Fields] and [strings.ToLower] consult Go's Unicode tables
    on text that is not ASCII; the developments below take them as
    parameters.  On ASCII text they are the following functions. *)
Definition is_ascii_space (c : ascii) : bool :=
  let n := N_of_ascii c in
  ((n =? 9) || (n =? 10) || (n =? 11) || (n =? 12) || (n =? 13) || (n =? 32))%N.

Fixpoint fields_from (cur : option string) (s : string) : list string :=
  match s with
  | EmptyString => match cur with Some w => [w] | None => [] end
  | String c s' =>
      if is_ascii_space c
      then match cur with
           | Some w => w :: fields_from None s'
           | None => fields_from None s'
           end
      else fields_from
             (Some (match cur with Some w => w | None => EmptyString end
                    +:+ String c EmptyString)) s'
  end.

Definition Fields_ascii (s : string) : list string := fields_from None s.

Definition lower_ascii (c : ascii) : ascii :=
  let n := N_of_ascii c in
  if ((65 <=? n) && (n <=? 90))%N then ascii_of_N (n + 32) else c.

Fixpoint ToLower_ascii (s : string) : string :=
  match s with
  | EmptyString => EmptyString
  | String c s' => String (lower_ascii c) (ToLower_ascii s')
  end.

Example Contains_EOF : Contains "unexpected EOF" "EOF" = true.
Proof. reflexivity. Qed.

Example Count_quotes : Count "say 'a' and 'b'" "'" = 4.
Proof. reflexivity. Qed.

Example ReplaceAll_overlap : ReplaceAll "aaaa" "aa" "b" = "bb".
Proof. reflexivity. Qed.

Example Fields_ascii_ex : Fields_ascii "  two   words
" = ["two"; "words"].
Proof. reflexivity. Qed.

Example ToLower_ascii_ex : ToLower_ascii "Act As" = "act as".
Proof. reflexivity. Qed.

End GoStrings.

(** ** internal/providers: the streaming goroutines

    Every StreamMessage makes [chunkChan] with capacity 10 and starts a
    goroutine that sends chunks on it and closes it on return.  The
    goroutine is what the transport's answers make of its body: a
    sequence of channel operations.  [Send] is a plain
    [chunkChan <- c]; [SelectSend] is
    [select { case chunkChan <- c: ...; case <-ctx.Done(): ... }];
    [Close] is the return of the goroutine, on which the deferred
    [close(chunkChan)] runs; [Panic] is a run-time panic, which runs the
    deferred close as well before the runtime aborts the program. *)

Module Streaming.
Import Models GoStrings.

Inductive proc :=
| Send (c : StreamChunk) (k : proc)
| SelectSend (c : StreamChunk) (k_sent k_done : proc)
| Panic
| Close.

Definition content_chunk (content : string) : StreamChunk :=
  {| ChunkContent := content; Done := false; Error := None |}.

Definition done_chunk : StreamChunk :=
  {| ChunkContent := ""; Done := true; Error := None |}.

Definition error_chunk (err : string) : StreamChunk :=
  {| ChunkContent := ""; Done := true; Error := Some err |}.

(** *** groq, together, samba

    [stream.Recv()] answers with responses, each with the Delta.Content
    of its choices, until it answers with an error; the loop returns at
    that error. *)
Record openai_stream := {
  recv_responses : list (list string);
  recv_err : string
}.

Definition is_EOF (msg : string) : bool :=
  bool_decide (msg = "EOF") || Contains msg "EOF".

Fixpoint openai_loop (responses : list (list string)) (err : string) : proc :=
  match responses with
  | [] =>
      if is_EOF err
      then Send {| ChunkContent := ""; Done := true; Error := None |} Close
      else Send {| ChunkContent := ""; Done := true; Error := Some err |} Close
  | choices :: rest =>
      match choices with
      | content :: _ =>
          Send {| ChunkContent := content; Done := false; Error := None |}
               (openai_loop rest err)
      | [] => openai_loop rest err
      end
  end.

(** The three goroutines have the same text. *)
Definition GroqProvider_goroutine (st : openai_stream) : proc :=
  openai_loop (recv_responses st) (recv_err st).

Definition TogetherProvider_goroutine (st : openai_stream) : proc :=
  openai_loop (recv_responses st) (recv_err st).

Definition SambaProvider_goroutine (st : openai_stream) : proc :=
  openai_loop (recv_responses st) (recv_err st).

(** *** gemini

    [iter.Next()] answers with responses until it answers with
    [iterator.Done] or another error.  A response has candidates; a
    candidate's Content is a pointer, [None] when nil, to its parts, here
    as [%v] prints them. *)
Inductive iter_end :=
| IterDone
| IterErr (msg : string).

Record gemini_stream := {
  next_responses : list (list (option (list string)));
  next_end : iter_end
}.

Fixpoint send_parts (parts : list string) (k : proc) : proc :=
  match parts with
  | [] => k
  | content :: rest =>
      Send {| ChunkContent := content; Done := false; Error := None |}
           (send_parts rest k)
  end.

Fixpoint gemini_loop (responses : list (list (option (list string))))
  (e : iter_end) : proc :=
  match responses with
  | [] =>
      match e with
      | IterDone => Send {| ChunkContent := ""; Done := true; Error := None |} Close
      | IterErr err =>
          Send {| ChunkContent := ""; Done := true; Error := Some err |} Close
      end
  | candidates :: rest =>
      match candidates with
      | Some parts :: _ => send_parts parts (gemini_loop rest e)
      | _ => Panic
      end
  end.

Definition GeminiProvider_goroutine (st : gemini_stream) : proc :=
  gemini_loop (next_responses st) (next_end st).

(** *** ollama

    [p.client.Chat(ctx, chatReq, fn)] calls [fn] on every response of
    the backend; it returns the first error [fn] returns, and otherwise
    its own result [chat_err].  [ctxErr] is what [ctx.Err()] reports once
    the context is done. *)
Record api_ChatResponse := {
  resp_Content : string;
  resp_Done : bool
}.

Record ollama_chat := {
  chat_responses : list api_ChatResponse;
  chat_err : option string
}.

Definition ollama_after_Chat (err : option string) : proc :=
  match err with
  | None => Close
  | Some e =>
      SelectSend {| ChunkContent := ""; Done := true;
                    Error := Some ("ollama streaming error: " +:+ e) |}
                 Close Close
  end.

Fixpoint ollama_Chat (ctxErr : string) (responses : list api_ChatResponse)
  (err : option string) : proc :=
  match responses with
  | [] => ollama_after_Chat err
  | resp :: rest =>
      SelectSend {| ChunkContent := resp_Content resp; Done := resp_Done resp;
                    Error := None |}
                 (ollama_Chat ctxErr rest err)
                 (ollama_after_Chat (Some ctxErr))
  end.

Definition OllamaProvider_goroutine (ctxErr : string) (c : ollama_chat) : proc :=
  ollama_Chat ctxErr (chat_responses c) (chat_err c).

(** *** The channel, the context and the two goroutines *)

Definition chunkChan_cap : nat := 10.

Record state := {
  prog : option proc;              (* what the producer still has to do;
                                      [None] once it has returned *)
  buf : list StreamChunk;          (* chunks sent and not yet received *)
  closed : bool;                   (* close(chunkChan) has run *)
  cancelled : bool;                (* ctx.Done() is closed *)
  delivered : list StreamChunk     (* chunks the consumer has received *)
}.

Definition start (p : proc) : state :=
  {| prog := Some p; buf := []; closed := false; cancelled := false;
     delivered := [] |}.

Definition has_room (s : state) : bool :=
  bool_decide (length (buf s) < chunkChan_cap)%nat.

Definition do_send (c : StreamChunk) (k : proc) (s : state) : state :=
  {| prog := Some k; buf := buf s ++ [c]; closed := closed s;
     cancelled := cancelled s; delivered := delivered s |}.

Definition do_goto (k : proc) (s : state) : state :=
  {| prog := Some k; buf := buf s; closed := closed s;
     cancelled := cancelled s; delivered := delivered s |}.

Definition do_close (s : state) : state :=
  {| prog := None; buf := buf s; closed := true;
     cancelled := cancelled s; delivered := delivered s |}.

(** One step of the producer; [None] when it is blocked (or has
    returned).  When both cases of a select are ready Go picks either:
    [take_done] is that pick. *)
Definition producer_step (take_done : bool) (s : state) : option state :=
  match prog s with
  | None => None
  | Some (Send c k) => if has_room s then Some (do_send c k s) else None
  | Some (SelectSend c k_sent k_done) =>
      match has_room s, cancelled s with
      | true, true => Some (if take_done then do_goto k_done s else do_send c k_sent s)
      | true, false => Some (do_send c k_sent s)
      | false, true => Some (do_goto k_done s)
      | false, false => None
      end
  | Some Panic | Some Close => Some (do_close s)
  end.

Definition consumer_step (s : state) : option state :=
  match buf s with
  | c :: rest =>
      Some {| prog := prog s; buf := rest; closed := closed s;
              cancelled := cancelled s; delivered := delivered s ++ [c] |}
  | [] => None
  end.

Definition cancel_step (s : state) : state :=
  {| prog := prog s; buf := buf s; closed := closed s;
     cancelled := true; delivered := delivered s |}.

Inductive event :=
| Producer (take_done : bool)
| Consumer
| Cancel.

Definition step (e : event) (s : state) : option state :=
  match e with
  | Producer take_done => producer_step take_done s
  | Consumer => consumer_step s
  | Cancel => Some (cancel_step s)
  end.

(** A schedule is any interleaving of the three; an event that is not
    enabled leaves the state as it is (the goroutine stays blocked). *)
Definition apply_event (e : event) (s : state) : state :=
  match step e s with
  | Some s' => s'
  | None => s
  end.

Definition run (sched : list event) (s : state) : state :=
  foldl (λ s e, apply_event e s) s sched.

(** Schedules in which the consumer never receives. *)
Definition without_consumer (l : list (option bool)) : list event :=
  (λ o, match o with Some b => Producer b | None => Cancel end) <$> l.

(** The channel is closed and everything sent has been received. *)
Definition finished (s : state) : Prop := closed s = true ∧ buf s = [].

(** *** Properties of chunk sequences and of goroutines *)

Definition count_done (cs : list StreamChunk) : nat :=
  length (filter (λ c, Done c = true) cs).

Definition done_once_at_end (cs : list StreamChunk) : Prop :=
  count_done cs = 1%nat ∧ Done <$> last cs = Some true.

(** The chunks a goroutine sends when every send goes through. *)
Fixpoint sends (p : proc) : list StreamChunk :=
  match p with
  | Send c k => c :: sends k
  | SelectSend c k_sent _ => c :: sends k_sent
  | Panic | Close => []
  end.

Fixpoint select_free (p : proc) : bool :=
  match p with
  | Send _ k => select_free k
  | SelectSend _ _ _ => false
  | Panic | Close => true
  end.

Fixpoint guarded (p : proc) : bool :=
  match p with
  | Send _ _ => false
  | SelectSend _ k_sent k_done => guarded k_sent && guarded k_done
  | Panic | Close => true
  end.

Fixpoint depth (p : proc) : nat :=
  match p with
  | Send _ k => S (depth k)
  | SelectSend _ k_sent k_done => S (depth k_sent `max` depth k_done)
  | Panic | Close => 1
  end.

(** The same for what is left of a running producer. *)
Definition pending (s : state) : list StreamChunk :=
  from_option sends [] (prog s).

Definition steps_left (s : state) : nat := from_option depth 0%nat (prog s).

End Streaming.

Module StreamingFacts.
Import Models GoStrings Streaming.

Lemma run_app l1 l2 s : run (l1 ++ l2) s = run l2 (run l1 s).
Proof. apply foldl_app. Qed.

Lemma run_cons e l s : run (e :: l) s = run l (apply_event e s).
Proof. reflexivity. Qed.

(** *** What has been sent so far and what is still to come *)

Definition transcript (s : state) : list StreamChunk :=
  delivered s ++ buf s ++ pending s.

(** The selects of the producer cannot fire their [ctx.Done()] case. *)
Definition steady (s : state) : Prop :=
  cancelled s = false ∨ from_option select_free true (prog s) = true.

(** The channel is closed only by the returning producer. *)
Definition closed_on_return (s : state) : Prop :=
  closed s = true → prog s = None.

Ltac step_cases Hstep :=
  unfold producer_step in Hstep;
  repeat match type of Hstep with
         | context [ match ?x with _ => _ end ] => destruct x eqn:?; simpl in Hstep
         end;
  try discriminate Hstep;
  try (injection Hstep as <-).

Lemma producer_step_transcript b s s' :
  producer_step b s = Some s' → steady s → transcript s' = transcript s.
Proof.
  intros Hstep Hsteady. unfold transcript, pending.
  destruct Hsteady as [Hc|Hf].
  - step_cases Hstep; simpl; rewrite <- ?app_assoc; simpl; try done; congruence.
  - step_cases Hstep; simpl in *; rewrite <- ?app_assoc; simpl; try done.
Qed.

Lemma producer_step_steady b s s' :
  producer_step b s = Some s' → steady s → steady s'.
Proof.
  intros Hstep [Hc|Hf].
  - left. step_cases Hstep; simpl; done.
  - right. step_cases Hstep; simpl in *; done.
Qed.

Lemma consumer_step_transcript s s' :
  consumer_step s = Some s' → transcript s' = transcript s.
Proof.
  unfold consumer_step, transcript, pending. destruct (buf s) eqn:Hb; [done|].
  intros [= <-]. simpl. by rewrite <- app_assoc.
Qed.

Lemma step_closed_on_return e s s' :
  step e s = Some s' → closed_on_return s → closed_on_return s'.
Proof.
  unfold closed_on_return. destruct e as [b| |]; simpl.
  - intros Hstep Hinv. step_cases Hstep; simpl; try done;
      intros Hcl; specialize (Hinv Hcl); congruence.
  - unfold consumer_step. destruct (buf s); [done|]. by intros [= <-].
  - by intros [= <-].
Qed.

Lemma run_closed_on_return sched s :
  closed_on_return s → closed_on_return (run sched s).
Proof.
  revert s. induction sched as [|e sched IH]; intros s Hinv; [done|].
  rewrite run_cons. apply IH. unfold apply_event.
  destruct (step e s) eqn:Hstep; [|done]. by eapply step_closed_on_return.
Qed.

(** Along a schedule that never cancels, or for a producer without
    selects, nothing is dropped: the transcript stays what it was. *)
Lemma run_transcript sched s :
  from_option select_free true (prog s) = true
  ∨ (cancelled s = false ∧ Cancel ∉ sched) →
  transcript (run sched s) = transcript s.
Proof.
  revert s. induction sched as [|e sched IH]; intros s Hq; [done|].
  rewrite run_cons. unfold apply_event.
  destruct (step e s) as [s'|] eqn:Hstep.
  2:{ apply IH. destruct Hq as [?|[? Hn]]; [by left|right].
      split; [done|]. intros Hin. apply Hn. by right. }
  destruct e as [b| |]; simpl in Hstep.
  - assert (steady s) as Hst by (destruct Hq as [?|[? ?]]; [by right|by left]).
    rewrite IH, (producer_step_transcript b s s'); try done.
    destruct Hq as [Hf|[Hc Hn]].
    + left. pose proof (producer_step_steady b s s' Hstep (or_intror Hf)) as Hs'.
      clear Hst. step_cases Hstep; simpl in *; done.
    + right. split; [|intros Hin; apply Hn; by right].
      clear Hst. step_cases Hstep; simpl in *; done.
  - rewrite IH, (consumer_step_transcript s s'); try done.
    unfold consumer_step in Hstep. destruct (buf s); [done|].
    injection Hstep as <-. simpl.
    destruct Hq as [?|[? Hn]]; [by left|right].
    split; [done|]. intros Hin. apply Hn. by right.
  - injection Hstep as <-. destruct Hq as [Hf|[_ Hn]].
    + rewrite IH; [done|]. by left.
    + exfalso. apply Hn. by left.
Qed.

(** When the channel is closed and drained, the consumer has received
    exactly the chunks of the goroutine, in order. *)
Lemma finished_delivered sched p :
  select_free p = true ∨ Cancel ∉ sched →
  finished (run sched (start p)) →
  delivered (run sched (start p)) = sends p.
Proof.
  intros Hq [Hcl Hbuf].
  pose proof (run_transcript sched (start p)) as Ht.
  pose proof (run_closed_on_return sched (start p)) as Hr.
  unfold transcript, pending in Ht. rewrite Hbuf, Hr in Ht; try done.
  simpl in Ht. rewrite app_nil_r in Ht. apply Ht.
  destruct Hq as [?|?]; [by left|by right].
Qed.

(** *** Exactly one done chunk, at the end *)

Lemma done_once_single d : Done d = true → done_once_at_end [d].
Proof.
  intros Hd. unfold done_once_at_end, count_done. simpl.
  rewrite filter_cons_True by done. by rewrite Hd.
Qed.

Lemma done_once_cons c cs :
  Done c = false → done_once_at_end cs → done_once_at_end (c :: cs).
Proof.
  unfold done_once_at_end, count_done. intros Hc [Hn Hl].
  rewrite filter_cons_False by congruence. split; [done|].
  destruct cs as [|c' cs]; [done|]. by rewrite last_cons_cons.
Qed.

Lemma done_once_app cs1 cs2 :
  Forall (λ c, Done c = false) cs1 → done_once_at_end cs2 →
  done_once_at_end (cs1 ++ cs2).
Proof.
  induction 1 as [|c cs1 Hc _ IH]; intros H2; simpl; [done|].
  apply done_once_cons; auto.
Qed.

Lemma openai_loop_done_once responses err :
  done_once_at_end (sends (openai_loop responses err)).
Proof.
  induction responses as [|choices rest IH]; simpl.
  - destruct (is_EOF err); by apply done_once_single.
  - destruct choices as [|content ?]; [done|]. by apply done_once_cons.
Qed.

Lemma openai_loop_select_free responses err :
  select_free (openai_loop responses err) = true.
Proof.
  induction responses as [|choices rest IH]; simpl.
  - by destruct (is_EOF err).
  - by destruct choices.
Qed.

(** Every response has a first candidate with content. *)
Definition has_content (candidates : list (option (list string))) : Prop :=
  ∃ parts rest, candidates = Some parts :: rest.

Lemma sends_send_parts parts k :
  sends (send_parts parts k) = (content_chunk <$> parts) ++ sends k.
Proof. induction parts as [|c parts IH]; simpl; [done|]. by rewrite IH. Qed.

Lemma content_chunks_not_done parts :
  Forall (λ c, Done c = false) (content_chunk <$> parts).
Proof. induction parts; constructor; done. Qed.

Lemma gemini_loop_done_once responses e :
  Forall has_content responses →
  done_once_at_end (sends (gemini_loop responses e)).
Proof.
  induction 1 as [|candidates rest (parts & tl & ->) _ IH]; simpl.
  - destruct e; by apply done_once_single.
  - rewrite sends_send_parts. apply done_once_app; [|done].
    apply content_chunks_not_done.
Qed.

Lemma send_parts_select_free parts k :
  select_free (send_parts parts k) = select_free k.
Proof. induction parts; simpl; done. Qed.

Lemma gemini_loop_select_free responses e :
  select_free (gemini_loop responses e) = true.
Proof.
  induction responses as [|candidates rest IH]; simpl.
  - by destruct e.
  - destruct candidates as [|[parts|] ?]; try done.
    by rewrite send_parts_select_free.
Qed.

(** The backend marks exactly its last response done and Chat returns
    nil, or it marks none and Chat returns an error. *)
Definition flags_final_response (c : ollama_chat) : Prop :=
  match chat_err c with
  | None =>
      ∃ init final, chat_responses c = init ++ [final]
        ∧ Forall (λ r, resp_Done r = false) init ∧ resp_Done final = true
  | Some _ => Forall (λ r, resp_Done r = false) (chat_responses c)
  end.

Definition response_chunk (r : api_ChatResponse) : StreamChunk :=
  {| ChunkContent := resp_Content r; Done := resp_Done r; Error := None |}.

Lemma sends_ollama_Chat ctxErr responses err :
  sends (ollama_Chat ctxErr responses err)
  = (response_chunk <$> responses) ++ sends (ollama_after_Chat err).
Proof. induction responses as [|r rest IH]; simpl; [done|]. by rewrite IH. Qed.

Lemma ollama_done_once ctxErr c :
  flags_final_response c →
  done_once_at_end (sends (OllamaProvider_goroutine ctxErr c)).
Proof.
  unfold flags_final_response, OllamaProvider_goroutine.
  rewrite sends_ollama_Chat. destruct (chat_err c) as [e|]; simpl.
  - intros Hall. apply done_once_app; [|by apply done_once_single].
    induction Hall; constructor; done.
  - intros (init & final & -> & Hall & Hfin). rewrite app_nil_r, fmap_app.
    apply done_once_app; [|by apply done_once_single].
    induction Hall; constructor; done.
Qed.

(** *** A consumer that keeps receiving lets the producer finish *)

Definition rounds (n : nat) : list event :=
  concat (replicate n [Producer false; Consumer]).

Lemma rounds_no_cancel n : Cancel ∉ rounds n.
Proof.
  induction n as [|n IH]; [apply not_elem_of_nil|].
  change (rounds (S n)) with (Producer false :: Consumer :: rounds n).
  rewrite !not_elem_of_cons. done.
Qed.

Lemma rounds_finish n s :
  buf s = [] → cancelled s = false → (prog s = None → closed s = true) →
  (steps_left s ≤ n)%nat → finished (run (rounds n) s).
Proof.
  revert s. induction n as [|n IH]; intros s Hb Hc Hr Hn.
  - split; [|done]. apply Hr. unfold steps_left in Hn.
    destruct (prog s) as [p|]; [|done]. destruct p; simpl in Hn; lia.
  - change (rounds (S n)) with ([Producer false; Consumer] ++ rounds n).
    rewrite run_app. apply IH; clear IH;
      unfold run, apply_event, step, producer_step, consumer_step, steps_left,
        has_room in *; simpl;
      destruct (prog s) as [[c k|c k1 k2| |]|] eqn:Hp; rewrite ?Hb, ?Hc; simpl;
      rewrite ?Hb; simpl; rewrite ?Hp; simpl in *; try done; try lia.
Qed.

Lemma start_finishes p :
  finished (run (rounds (depth p)) (start p)).
Proof. apply rounds_finish; simpl; try done. Qed.

(** *** Guarded sends after cancellation *)

Definition is_producer (e : event) : bool :=
  match e with Producer _ => true | _ => false end.

Definition producer_events (sched : list event) : nat :=
  length (filter (λ e, is_producer e = true) sched).

Lemma ollama_after_Chat_guarded err : guarded (ollama_after_Chat err) = true.
Proof. by destruct err. Qed.

Lemma ollama_Chat_guarded ctxErr responses err :
  guarded (ollama_Chat ctxErr responses err) = true.
Proof.
  induction responses as [|r rest IH]; simpl.
  - apply ollama_after_Chat_guarded.
  - by rewrite IH.
Qed.

(** A cancelled producer whose sends are all guarded is never blocked:
    each of its steps is enabled and brings it closer to its return. *)
Lemma guarded_step_enabled b s p :
  prog s = Some p → guarded p = true → cancelled s = true →
  ∃ s', producer_step b s = Some s'
        ∧ (steps_left s' < steps_left s)%nat
        ∧ from_option guarded true (prog s') = true
        ∧ cancelled s' = true
        ∧ (prog s' = None → closed s' = true).
Proof.
  intros Hp Hg Hc. unfold producer_step, steps_left. rewrite Hp, Hc.
  destruct p as [c k|c k1 k2| |]; simpl in *; try done.
  - apply andb_prop in Hg as [Hg1 Hg2].
    destruct (has_room s), b; eexists; (split; [done|]); simpl;
      repeat split; try done; lia.
  - eexists; split; [done|]. simpl. repeat split; try done; lia.
  - eexists; split; [done|]. simpl. repeat split; try done; lia.
Qed.

Lemma guarded_run_closes sched s :
  from_option guarded true (prog s) = true → cancelled s = true →
  (prog s = None → closed s = true) →
  (steps_left s ≤ producer_events sched)%nat →
  closed (run sched s) = true ∧ prog (run sched s) = None.
Proof.
  revert s. induction sched as [|e sched IH]; intros s Hg Hc Hr Hn.
  - unfold producer_events, steps_left in Hn. simpl in Hn.
    destruct (prog s) as [p|] eqn:Hp; [destruct p; simpl in Hn; lia|].
    split; [by apply Hr|done].
  - rewrite run_cons. unfold apply_event.
    destruct e as [b| |]; simpl.
    + destruct (prog s) as [p|] eqn:Hp.
      * destruct (guarded_step_enabled b s p Hp) as (s' & -> & Hlt & Hg' & Hc' & Hr');
          [done|done|].
        apply IH; try done.
        unfold producer_events in *. rewrite filter_cons_True in Hn by done.
        simpl in Hn. lia.
      * unfold producer_step. rewrite Hp. apply IH; rewrite ?Hp; try done.
        unfold steps_left. rewrite Hp. simpl. lia.
    + unfold producer_events in Hn. rewrite filter_cons_False in Hn by done.
      unfold consumer_step. destruct (buf s); apply IH; try done.
    + unfold producer_events in Hn. rewrite filter_cons_False in Hn by done.
      apply IH; try done.
Qed.

(** A plain send on a full channel stays blocked, cancelled or not, for
    as long as the consumer does not receive. *)
Lemma plain_send_blocked l s c k :
  prog s = Some (Send c k) → length (buf s) = chunkChan_cap → closed s = false →
  prog (run (without_consumer l) s) = Some (Send c k)
  ∧ buf (run (without_consumer l) s) = buf s
  ∧ closed (run (without_consumer l) s) = false.
Proof.
  revert s. induction l as [|o l IH]; intros s Hp Hfull Hcl; [done|].
  unfold without_consumer. rewrite fmap_cons, run_cons. fold (without_consumer l).
  destruct o as [b|]; unfold apply_event, step.
  - unfold producer_step, has_room. rewrite Hp, Hfull.
    rewrite bool_decide_false by lia. by apply IH.
  - destruct (IH (cancel_step s)) as (? & ? & ?); done.
Qed.

(** Once the context is cancelled, the ollama goroutine closes its
    channel within a bounded number of its own steps, whatever the
    consumer does and however full the channel is. *)
Lemma OllamaProvider_goroutine_closes_after_cancel ctxErr c sched1 sched2 :
  cancelled (run sched1 (start (OllamaProvider_goroutine ctxErr c))) = true →
  (depth (OllamaProvider_goroutine ctxErr c) ≤ producer_events sched2)%nat →
  closed (run (sched1 ++ sched2) (start (OllamaProvider_goroutine ctxErr c))) = true.
Proof.
  intros Hc Hn. rewrite run_app.
  set (p := OllamaProvider_goroutine ctxErr c) in *.
  assert (∀ sched s, from_option guarded true (prog s) = true →
            (prog s = None → closed s = true) →
            from_option guarded true (prog (run sched s)) = true
            ∧ (prog (run sched s) = None → closed (run sched s) = true)
            ∧ (steps_left (run sched s) ≤ steps_left s)%nat) as Hpres.
  { clear. induction sched as [|e sched IH]; intros s Hg Hr; [done|].
    rewrite run_cons. unfold apply_event.
    destruct (step e s) as [s'|] eqn:Hstep; [|by apply IH].
    assert (from_option guarded true (prog s') = true
            ∧ (prog s' = None → closed s' = true)
            ∧ (steps_left s' ≤ steps_left s)%nat) as (Hg' & Hr' & Hle).
    { destruct e as [b| |]; simpl in Hstep.
      - unfold producer_step, steps_left in *.
        destruct (prog s) as [[c k|c k1 k2| |]|] eqn:Hp; simpl in *; try done.
        + destruct (has_room s), (cancelled s), b;
            apply andb_prop in Hg as [Hg1 Hg2];
            try discriminate Hstep; injection Hstep as <-; simpl;
            repeat split; try done; lia.
        + injection Hstep as <-. simpl. repeat split; try done; lia.
        + injection Hstep as <-. simpl. repeat split; try done; lia.
      - unfold consumer_step, steps_left in *. destruct (buf s); [done|].
        injection Hstep as <-. simpl. done.
      - injection Hstep as <-. unfold steps_left. simpl. done. }
    destruct (IH s' Hg' Hr') as (? & ? & ?). repeat split; try done. lia. }
  destruct (Hpres sched1 (start p)) as (Hg & Hr & Hle).
  { simpl. apply ollama_Chat_guarded. }
  { done. }
  apply guarded_run_closes; try done.
  unfold steps_left in Hle at 2. simpl in Hle. lia.
Qed.

End StreamingFacts.

Module StreamingClaims.
Import Models GoStrings Streaming StreamingFacts.

(** The sequence delivered by goroutine [p] under schedule [sched], once
    the channel is closed and drained, has one done chunk, at its end. *)
Definition delivers_done_once (p : proc) (sched : list event) : Prop :=
  finished (run sched (start p)) →
  done_once_at_end (delivered (run sched (start p))).

(** C1 (amended). For groq, together and samba, under every transport
    behaviour and every interleaving of producer, consumer and
    cancellation, the sequence delivered by the time the channel is
    closed has exactly one chunk with done=true, and it is the last one.
    The same holds for gemini when every response carries a first
    candidate with content.  The ollama goroutine forwards the backend's
    own done flags and guards every send by the context: for it the same
    holds when the context is never cancelled and the backend either
    marks exactly its last response done and Chat returns nil, or marks
    none and Chat returns an error.  In each case a consumer that keeps
    receiving does bring the channel to closed and drained. *)
Theorem C1_done_once_at_end :
  (∀ (st : openai_stream) sched,
     delivers_done_once (GroqProvider_goroutine st) sched
     ∧ delivers_done_once (TogetherProvider_goroutine st) sched
     ∧ delivers_done_once (SambaProvider_goroutine st) sched)
  ∧ (∀ (st : gemini_stream) sched,
       Forall has_content (next_responses st) →
       delivers_done_once (GeminiProvider_goroutine st) sched)
  ∧ (∀ ctxErr (c : ollama_chat) sched,
       Cancel ∉ sched → flags_final_response c →
       delivers_done_once (OllamaProvider_goroutine ctxErr c) sched)
  ∧ (∀ p, (Cancel ∉ rounds (depth p)) ∧ finished (run (rounds (depth p)) (start p))).
Proof.
  assert (∀ st sched,
            delivers_done_once (openai_loop (recv_responses st) (recv_err st)) sched)
    as Hopenai.
  { intros st sched Hfin. rewrite finished_delivered.
    - apply openai_loop_done_once.
    - left. apply openai_loop_select_free.
    - done. }
  split; [|split; [|split]].
  - intros st sched. split; [|split]; apply Hopenai.
  - intros st sched Hwf Hfin. rewrite finished_delivered.
    + by apply gemini_loop_done_once.
    + left. apply gemini_loop_select_free.
    + done.
  - intros ctxErr c sched Hnc Hwf Hfin. rewrite finished_delivered.
    + by apply ollama_done_once.
    + by right.
    + done.
  - intros p. split; [apply rounds_no_cancel|apply start_finishes].
Qed.

(** Two content responses and the end of the stream. *)
Definition hello_openai : openai_stream :=
  {| recv_responses := [["Hel"]; []; ["lo"]]; recv_err := "EOF" |}.

Definition hello_gemini : gemini_stream :=
  {| next_responses := [[Some ["Hel"; "lo"]]]; next_end := IterErr "quota exceeded" |}.

Definition hello_ollama : ollama_chat :=
  {| chat_responses :=
       [ {| resp_Content := "Hel"; resp_Done := false |};
         {| resp_Content := "lo"; resp_Done := true |} ];
     chat_err := None |}.

Definition ctx_canceled : string := "context canceled".

Example hello_openai_delivered :
  delivered (run (rounds 4) (start (GroqProvider_goroutine hello_openai)))
  = [content_chunk "Hel"; content_chunk "lo"; done_chunk].
Proof. reflexivity. Qed.

Example hello_gemini_delivered :
  delivered (run (rounds 4) (start (GeminiProvider_goroutine hello_gemini)))
  = [content_chunk "Hel"; content_chunk "lo"; error_chunk "quota exceeded"].
Proof. reflexivity. Qed.

Lemma C1_witness :
  done_once_at_end
    (delivered (run (rounds 4) (start (GroqProvider_goroutine hello_openai))))
  ∧ done_once_at_end
      (delivered (run (rounds 4) (start (GeminiProvider_goroutine hello_gemini))))
  ∧ done_once_at_end
      (delivered (run (rounds 3)
                    (start (OllamaProvider_goroutine ctx_canceled hello_ollama)))).
Proof.
  split; [|split].
  - apply (proj1 (proj1 C1_done_once_at_end hello_openai (rounds 4))).
    split; reflexivity.
  - apply (proj1 (proj2 C1_done_once_at_end) hello_gemini (rounds 4)).
    + repeat constructor; eexists _, _; reflexivity.
    + split; reflexivity.
  - apply (proj1 (proj2 (proj2 C1_done_once_at_end)) ctx_canceled hello_ollama (rounds 3)).
    + apply rounds_no_cancel.
    + exists [ {| resp_Content := "Hel"; resp_Done := false |} ],
             {| resp_Content := "lo"; resp_Done := true |}.
      split; [reflexivity|]. split; [repeat constructor|reflexivity].
    + split; reflexivity.
Defined.

(** The ollama goroutine with its context cancelled after the first
    chunk: both selects take their [ctx.Done()] case, the channel is
    closed, and the consumer has received one chunk, not done. *)
Definition sched_cancel : list event :=
  [Producer false; Cancel; Producer true; Producer true; Producer false; Consumer].

Lemma C1_counterexample :
  finished (run sched_cancel (start (OllamaProvider_goroutine ctx_canceled hello_ollama)))
  ∧ delivered (run sched_cancel (start (OllamaProvider_goroutine ctx_canceled hello_ollama)))
    = [content_chunk "Hel"]
  ∧ ¬ done_once_at_end
        (delivered (run sched_cancel
                      (start (OllamaProvider_goroutine ctx_canceled hello_ollama)))).
Proof.
  split; [split; reflexivity|]. split; [reflexivity|].
  intros [Hcount _]. vm_compute in Hcount. discriminate Hcount.
Qed.

(** A backend that ends its stream without marking a response done
    (Chat returns nil): no done chunk either, without any cancellation. *)
Definition unflagged_ollama : ollama_chat :=
  {| chat_responses := [ {| resp_Content := "Hel"; resp_Done := false |} ];
     chat_err := None |}.

Example ollama_unflagged_no_done :
  finished (run (rounds 2) (start (OllamaProvider_goroutine ctx_canceled unflagged_ollama)))
  ∧ count_done
      (delivered (run (rounds 2)
                    (start (OllamaProvider_goroutine ctx_canceled unflagged_ollama))))
    = 0%nat.
Proof. split; [split|]; reflexivity. Qed.

(** *** Cancellation with a full channel *)

(** Eleven responses are available; the consumer has stopped receiving. *)
Definition eleven : openai_stream :=
  {| recv_responses := replicate 11 ["x"]; recv_err := ctx_canceled |}.

Definition groq_full : state :=
  run (replicate 11 (Producer false) ++ [Cancel])
      (start (GroqProvider_goroutine eleven)).

(** C2 (groq, and with it together and samba, whose goroutines are the
    same). With ten chunks in the channel and the context cancelled, the
    goroutine sits at its eleventh plain send: no step of it is enabled,
    and as long as the consumer does not receive nothing changes; the
    channel is never closed. *)
Theorem C2_groq_send_blocks_after_cancel :
  cancelled groq_full = true
  ∧ length (buf groq_full) = chunkChan_cap
  ∧ closed groq_full = false
  ∧ (∀ b, producer_step b groq_full = None)
  ∧ (∀ l, run (without_consumer l) groq_full = groq_full).
Proof.
  split; [reflexivity|]. split; [reflexivity|]. split; [reflexivity|].
  assert (∀ b, producer_step b groq_full = None) as Hblocked
    by (intros b; vm_compute; reflexivity).
  split; [done|].
  induction l as [|o l IH]; [done|].
  unfold without_consumer. rewrite fmap_cons, run_cons. fold (without_consumer l).
  destruct o as [b|]; unfold apply_event, step.
  - by rewrite Hblocked.
  - assert (cancel_step groq_full = groq_full) as -> by (vm_compute; reflexivity).
    exact IH.
Qed.

(** The ollama goroutine in the same situation returns and closes. *)
Definition eleven_ollama : ollama_chat :=
  {| chat_responses := replicate 11 {| resp_Content := "x"; resp_Done := false |};
     chat_err := None |}.

Example ollama_full_closes :
  let s := run (replicate 11 (Producer false) ++ [Cancel])
               (start (OllamaProvider_goroutine ctx_canceled eleven_ollama)) in
  length (buf s) = chunkChan_cap
  ∧ closed (run (replicate 3 (Producer false)) s) = true.
Proof. split; reflexivity. Qed.

End StreamingClaims.

(** ** internal/chat: Session.processMessage *)

Module chat.
Import Models GoStrings.

(** The fields of [config.Config] that processMessage reads. *)
Record Config := {
  Verbose : bool;
  NoHistory : bool;
  CfgTemperature : float64;
  CfgMaxTokens : Z;
  OutputFormat : string;
  EnableAssessment : bool
}.

(** What reaches the terminal, in order: the calls into package [ui] and
    the [fmt.Print]s. *)
Inductive output :=
| PrintAssistantPrefix (modelName : string)
| Print (text : string)
| Println
| PrintMetrics (responseTime : Z) (tokenCount : Z)
| PrintError (message : string).

Record Session := {
  config : Config;
  messages : list Message;
  currentModel : string;
  terminal : list output
}.

(** The four readings of the clock in one call of processMessage. *)
Record clock := {
  now_user : Time;
  now_start : Time;
  now_end : Time;
  now_assistant : Time
}.

(** [s.provider.StreamMessage(ctx, req)] returns an error, or a channel;
    the channel is given by the chunks it delivers until it is closed. *)
Definition StreamMessage_result : Type := list StreamChunk + string.

Section processMessage.
(** [strings.Fields], see [GoStrings]. *)
Variable Fields : string → list string.
Variable StreamMessage : ChatRequest → StreamMessage_result.

(** [for chunk := range streamChan]: the loop returns at the first chunk
    carrying an error, and otherwise prints and accumulates. *)
Fixpoint relay (chunks : list StreamChunk) (fullResponse : string)
  (tokenCount : Z) (term : list output) : (string * Z * list output) + (string * list output) :=
  match chunks with
  | [] => inl (fullResponse, tokenCount, term)
  | chunk :: rest =>
      match Error chunk with
      | Some err => inr ("stream error: " +:+ err, term)
      | None =>
          relay rest (fullResponse +:+ ChunkContent chunk)
                (tokenCount + Z.of_nat (length (Fields (ChunkContent chunk))))
                (term ++ [Print (ChunkContent chunk)])
      end
  end.

Definition processMessage (input : string) (clk : clock) (s : Session)
  : Session * option string :=
  let userMsg :=
    {| Role_ := RoleUser; Content := input; Timestamp := now_user clk |} in
  let messages1 := messages s ++ [userMsg] in
  let req :=
    {| Messages := messages1; Temperature := CfgTemperature (config s);
       MaxTokens := CfgMaxTokens (config s); Stream := true |} in
  let term1 := terminal s ++ [PrintAssistantPrefix (currentModel s)] in
  match StreamMessage req with
  | inr err =>
      ({| config := config s; messages := messages1;
          currentModel := currentModel s; terminal := term1 |},
       Some ("failed to stream message: " +:+ err))
  | inl streamChan =>
      match relay streamChan "" 0 term1 with
      | inr (err, term2) =>
          ({| config := config s; messages := messages1;
              currentModel := currentModel s; terminal := term2 |},
           Some err)
      | inl (fullResponse, tokenCount, term2) =>
          let assistantMsg :=
            {| Role_ := RoleAssistant; Content := fullResponse;
               Timestamp := now_assistant clk |} in
          ({| config := config s; messages := messages1 ++ [assistantMsg];
              currentModel := currentModel s;
              terminal :=
                term2 ++ [if Verbose (config s)
                          then PrintMetrics (now_end clk - now_start clk) tokenCount
                          else Println] |},
           None)
      end
  end.

(** The statement of Start's loop that submits a message; the loop goes
    on to its next iteration whatever processMessage returned. *)
Inductive loop := Continue | Break.

Definition Start_process (input : string) (clk : clock) (s : Session)
  : Session * loop :=
  let '(s', err) := processMessage input clk s in
  (match err with
   | Some e =>
       {| config := config s'; messages := messages s';
          currentModel := currentModel s';
          terminal := terminal s' ++ [PrintError e] |}
   | None => s'
   end, Continue).

Lemma relay_error pre errc rest err fullResponse tokenCount term :
  Forall (λ c, Error c = None) pre → Error errc = Some err →
  relay (pre ++ errc :: rest) fullResponse tokenCount term
  = inr ("stream error: " +:+ err, term ++ (Print ∘ ChunkContent <$> pre)).
Proof.
  intros Hpre Herr. revert fullResponse tokenCount term.
  induction Hpre as [|c pre Hc _ IH]; intros fullResponse tokenCount term; simpl.
  - by rewrite Herr, app_nil_r.
  - rewrite Hc, IH. by rewrite <- app_assoc.
Qed.

(** The request of a turn: the whole conversation with the new user
    message at its end. *)
Definition request_of (input : string) (clk : clock) (s : Session) : ChatRequest :=
  {| Messages :=
       messages s ++ [{| Role_ := RoleUser; Content := input;
                         Timestamp := now_user clk |}];
     Temperature := CfgTemperature (config s);
     MaxTokens := CfgMaxTokens (config s); Stream := true |}.

(** C3. If the stream of a turn delivers chunks without error (the
    content chunks [pre]) and then a chunk carrying an error, then
    processMessage returns an error, the conversation's messages gain the
    user message of the turn and nothing else (no assistant message), the
    content of every chunk before the error has been printed, in order,
    after the assistant prefix, and Start's loop continues after
    reporting the error. *)
Theorem C3_mid_stream_error (input : string) (clk : clock) (s : Session)
  (pre : list StreamChunk) (errc : StreamChunk) (rest : list StreamChunk)
  (err : string) :
  StreamMessage (request_of input clk s) = inl (pre ++ errc :: rest) →
  Forall (λ c, Error c = None) pre →
  Error errc = Some err →
  (processMessage input clk s).2 = Some ("stream error: " +:+ err)
  ∧ messages (processMessage input clk s).1
    = messages s ++ [{| Role_ := RoleUser; Content := input;
                        Timestamp := now_user clk |}]
  ∧ terminal (processMessage input clk s).1
    = terminal s ++ [PrintAssistantPrefix (currentModel s)]
        ++ (Print ∘ ChunkContent <$> pre)
  ∧ (Start_process input clk s).2 = Continue
  ∧ messages (Start_process input clk s).1 = messages (processMessage input clk s).1
  ∧ terminal (Start_process input clk s).1
    = terminal (processMessage input clk s).1 ++ [PrintError ("stream error: " +:+ err)].
Proof.
  intros Hstream Hpre Herr.
  assert (processMessage input clk s
          = ({| config := config s;
                messages := messages s ++ [{| Role_ := RoleUser; Content := input;
                                              Timestamp := now_user clk |}];
                currentModel := currentModel s;
                terminal := (terminal s ++ [PrintAssistantPrefix (currentModel s)])
                              ++ (Print ∘ ChunkContent <$> pre) |},
             Some ("stream error: " +:+ err))) as Hpm.
  { unfold processMessage. fold (request_of input clk s). rewrite Hstream.
    by rewrite (relay_error pre errc rest err). }
  unfold Start_process. rewrite Hpm. simpl. rewrite <- app_assoc. done.
Qed.

End processMessage.

End chat.

Module GoStringsFacts.
Import GoStrings.

Lemma append_cons (x : ascii) (a b : string) :
  String x a +:+ b = String x (a +:+ b).
Proof. reflexivity. Qed.

Lemma append_nil_l (a : string) : "" +:+ a = a.
Proof. reflexivity. Qed.

Lemma append_assoc (a b c : string) : (a +:+ b) +:+ c = a +:+ (b +:+ c).
Proof.
  induction a as [|x a IH]; [done|]. rewrite !append_cons. by rewrite IH.
Qed.

Lemma append_nil_r (a : string) : a +:+ "" = a.
Proof.
  induction a as [|x a IH]; [done|]. rewrite append_cons. by rewrite IH.
Qed.

Lemma prefix_append (c post : string) : String.prefix c (c +:+ post) = true.
Proof.
  induction c as [|x c IH]; [by destruct post|].
  rewrite append_cons. simpl. destruct (ascii_dec x x); [done|congruence].
Qed.

Lemma Contains_unfold (s substr : string) :
  Contains s substr
  = if String.prefix substr s then true
    else match s with
         | EmptyString => false
         | String _ s' => Contains s' substr
         end.
Proof. by destruct s. Qed.

Lemma Contains_here (c post : string) : Contains (c +:+ post) c = true.
Proof. by rewrite Contains_unfold, prefix_append. Qed.

Lemma Contains_after (pre s c : string) :
  Contains s c = true → Contains (pre +:+ s) c = true.
Proof.
  intros H. induction pre as [|x pre IH]; [done|].
  rewrite append_cons, Contains_unfold, IH.
  by destruct (String.prefix c (String x (pre +:+ s))).
Qed.

(** [Contains] finds an occurrence wherever it is. *)
Lemma Contains_middle (pre c post : string) :
  Contains (pre +:+ c +:+ post) c = true.
Proof. apply Contains_after, Contains_here. Qed.

(** The strings [cs] occur in [out] one after the other, without
    overlap, in the order of the list. *)
Inductive occur_in_order : list string → string → Prop :=
| occur_nil out : occur_in_order [] out
| occur_cons c cs pre post :
    occur_in_order cs post → occur_in_order (c :: cs) (pre +:+ c +:+ post).

Lemma occur_in_order_prepend cs pre out :
  occur_in_order cs out → occur_in_order cs (pre +:+ out).
Proof.
  intros H. inversion H as [out'|c cs' pre' post H']; subst; [constructor|].
  rewrite <- append_assoc. by constructor.
Qed.

Lemma occur_in_order_Contains cs out c :
  occur_in_order cs out → c ∈ cs → Contains out c = true.
Proof.
  induction 1 as [out|c' cs pre post H IH]; intros Hin.
  - by apply elem_of_nil in Hin.
  - apply elem_of_cons in Hin as [->|Hin]; [apply Contains_middle|].
    rewrite <- append_assoc. by apply Contains_after, IH.
Qed.

End GoStringsFacts.

(** ** internal/history: the two text exports *)

Module history.
Import Models GoStrings GoStringsFacts.

Record Conversation := {
  ID : string;
  Provider : string;
  Model : string;
  Messages : list Message;
  StartTime : Time;
  EndTime : Time;
  TokensUsed : Z;
  Summary : string
}.

Definition LF : string := String (ascii_of_nat 10) EmptyString.

Section export.
(** [t.Format(layout)] and the [%s] rendering of a [time.Duration]
    rounded to the second, both of package [time]. *)
Variable Format : Time → string → string.
Variable Duration_String : Z → string.

(** [sb.WriteString(s)] on a [strings.Builder] holding [sb]. *)
Definition WriteString (sb s : string) : string := sb +:+ s.

Definition exportMarkdown (conv : Conversation) : string :=
  let sb := "" in
  let sb := WriteString sb ("# Conversation with " +:+ Provider conv +:+ LF +:+ LF) in
  let sb := WriteString sb ("**Model:** " +:+ Model conv +:+ LF) in
  let sb :=
    WriteString sb ("**Date:** " +:+ Format (StartTime conv) "2006-01-02 15:04:05"
                    +:+ LF) in
  let sb :=
    WriteString sb ("**Duration:** "
                    +:+ Duration_String (EndTime conv - StartTime conv)
                    +:+ LF +:+ LF) in
  let sb := WriteString sb ("---" +:+ LF +:+ LF) in
  foldl (λ sb msg,
           let role :=
             match Role_ msg with
             | RoleAssistant => "Assistant"
             | RoleSystem => "System"
             | RoleUser => "User"
             end in
           let sb := WriteString sb ("## " +:+ role +:+ LF +:+ LF) in
           let sb := WriteString sb (Content msg) in
           WriteString sb (LF +:+ LF))
        sb (Messages conv).

Definition exportText (conv : Conversation) : string :=
  let sb := "" in
  let sb :=
    WriteString sb ("Conversation with " +:+ Provider conv +:+ " ("
                    +:+ Model conv +:+ ")" +:+ LF) in
  let sb :=
    WriteString sb ("Date: " +:+ Format (StartTime conv) "2006-01-02 15:04:05"
                    +:+ LF) in
  let sb := WriteString sb (Repeat "=" 60) in
  let sb := WriteString sb (LF +:+ LF) in
  foldl (λ sb msg,
           let role :=
             match Role_ msg with
             | RoleAssistant => "Assistant"
             | RoleSystem => "System"
             | RoleUser => "You"
             end in
           let sb :=
             WriteString sb ("[" +:+ Format (Timestamp msg) "15:04:05" +:+ "] "
                             +:+ role +:+ ":" +:+ LF) in
           let sb := WriteString sb (Content msg) in
           WriteString sb (LF +:+ LF))
        sb (Messages conv).

(** A loop that writes, for each message, a heading, the content and a
    separator, writes the contents in order after whatever the builder
    held. *)
Lemma export_loop (heading : Message → string) (sep : string)
  (msgs : list Message) (sb : string) :
  ∃ body,
    foldl (λ sb msg,
             WriteString (WriteString (WriteString sb (heading msg)) (Content msg)) sep)
          sb msgs = sb +:+ body
    ∧ occur_in_order (Content <$> msgs) body.
Proof.
  revert sb. induction msgs as [|msg msgs IH]; intros sb; simpl.
  - exists "". split; [by rewrite append_nil_r|constructor].
  - destruct (IH (WriteString (WriteString (WriteString sb (heading msg))
                                           (Content msg)) sep))
      as (body & -> & Hbody).
    exists (heading msg +:+ Content msg +:+ sep +:+ body). split.
    + unfold WriteString. by rewrite !append_assoc.
    + constructor. by apply occur_in_order_prepend.
Qed.

(** C8. For every conversation, the markdown export and the plain-text
    export each contain the Content of every message verbatim, and the
    contents occur one after the other in the order of the
    conversation's message sequence. *)
Theorem C8_exports_keep_contents (conv : Conversation) :
  (occur_in_order (Content <$> Messages conv) (exportMarkdown conv)
   ∧ ∀ msg, msg ∈ Messages conv →
            Contains (exportMarkdown conv) (Content msg) = true)
  ∧ (occur_in_order (Content <$> Messages conv) (exportText conv)
     ∧ ∀ msg, msg ∈ Messages conv →
              Contains (exportText conv) (Content msg) = true).
Proof.
  assert (∀ out, occur_in_order (Content <$> Messages conv) out →
            occur_in_order (Content <$> Messages conv) out
            ∧ ∀ msg, msg ∈ Messages conv → Contains out (Content msg) = true) as Hboth.
  { intros out Hocc. split; [done|]. intros msg Hin.
    apply (occur_in_order_Contains _ _ _ Hocc). by apply list_elem_of_fmap_2. }
  split; apply Hboth.
  - unfold exportMarkdown.
    match goal with |- context [ foldl ?f ?sb0 _ ] =>
      destruct (export_loop
                  (λ msg, "## " +:+ match Role_ msg with
                                    | RoleAssistant => "Assistant"
                                    | RoleSystem => "System"
                                    | RoleUser => "User"
                                    end +:+ LF +:+ LF)
                  (LF +:+ LF) (Messages conv) sb0) as (body & Heq & Hocc)
    end.
    rewrite Heq. by apply occur_in_order_prepend.
  - unfold exportText.
    match goal with |- context [ foldl ?f ?sb0 _ ] =>
      destruct (export_loop
                  (λ msg, "[" +:+ Format (Timestamp msg) "15:04:05" +:+ "] "
                          +:+ match Role_ msg with
                              | RoleAssistant => "Assistant"
                              | RoleSystem => "System"
                              | RoleUser => "You"
                              end +:+ ":" +:+ LF)
                  (LF +:+ LF) (Messages conv) sb0) as (body & Heq & Hocc)
    end.
    rewrite Heq. by apply occur_in_order_prepend.
Qed.

End export.

End history.

(** ** internal/chat: ShellMode.FormatOutput *)

Module shell.
Import Models GoStrings GoStringsFacts.

Definition quote_char : ascii := ascii_of_nat 34.
Definition backslash_char : ascii := ascii_of_nat 92.
Definition LF_char : ascii := ascii_of_nat 10.

Definition QUOTE : string := String quote_char EmptyString.
Definition BACKSLASH : string := String backslash_char EmptyString.
Definition LF : string := String LF_char EmptyString.

Definition FormatOutput (OutputFormat : string) (content : string) : string :=
  if decide (OutputFormat = "json") then
    let escaped := ReplaceAll content QUOTE (BACKSLASH +:+ QUOTE) in
    let escaped := ReplaceAll escaped LF (BACKSLASH +:+ "n") in
    "{" +:+ QUOTE +:+ "response" +:+ QUOTE +:+ ": " +:+ QUOTE +:+ escaped
        +:+ QUOTE +:+ "}"
  else if decide (OutputFormat = "markdown") then
    "# Response" +:+ LF +:+ LF +:+ content
  else if decide (OutputFormat = "raw") then content
  else content.

(** *** Reading the output back as JSON

    A reader for the one shape FormatOutput produces, following the
    string grammar of RFC 8259: a string ends at the first quote that is
    not escaped; a backslash introduces an escape; control characters
    (below 0x20) may not appear unescaped.  The [\u] escape is not among
    the escapes FormatOutput writes and is not read. *)
Definition unescape (c : ascii) : option ascii :=
  let n := N_of_ascii c in
  if (n =? 34)%N then Some quote_char
  else if (n =? 92)%N then Some backslash_char
  else if (n =? 47)%N then Some (ascii_of_nat 47)
  else if (n =? 98)%N then Some (ascii_of_nat 8)
  else if (n =? 102)%N then Some (ascii_of_nat 12)
  else if (n =? 110)%N then Some LF_char
  else if (n =? 114)%N then Some (ascii_of_nat 13)
  else if (n =? 116)%N then Some (ascii_of_nat 9)
  else None.

Definition cons_value (c : ascii) (r : option (string * string))
  : option (string * string) :=
  match r with
  | Some (v, rest) => Some (String c v, rest)
  | None => None
  end.

(** The text after an opening quote: the decoded string and what
    follows its closing quote. *)
Fixpoint read_json_string (s : string) : option (string * string) :=
  match s with
  | EmptyString => None
  | String c s' =>
      if (N_of_ascii c =? 34)%N then Some (EmptyString, s')
      else if (N_of_ascii c =? 92)%N then
        match s' with
        | EmptyString => None
        | String e s'' =>
            match unescape e with
            | Some d => cons_value d (read_json_string s'')
            | None => None
            end
        end
      else if (N_of_ascii c <? 32)%N then None
      else cons_value c (read_json_string s')
  end.

Fixpoint strip_prefix (prefix s : string) : option string :=
  match prefix, s with
  | EmptyString, _ => Some s
  | String a prefix', String b s' =>
      if decide (a = b) then strip_prefix prefix' s' else None
  | String _ _, EmptyString => None
  end.

(** The value of the field [response] of [{"response": "..."}]. *)
Definition json_response (out : string) : option string :=
  match strip_prefix ("{" +:+ QUOTE +:+ "response" +:+ QUOTE +:+ ": " +:+ QUOTE) out with
  | Some body =>
      match read_json_string body with
      | Some (v, rest) => if decide (rest = "}") then Some v else None
      | None => None
      end
  | None => None
  end.

Example FormatOutput_json_hello :
  json_response (FormatOutput "json" ("say " +:+ QUOTE +:+ "hi" +:+ QUOTE +:+ LF))
  = Some ("say " +:+ QUOTE +:+ "hi" +:+ QUOTE +:+ LF).
Proof. vm_compute. reflexivity. Qed.

Lemma FormatOutput_raw content : FormatOutput "raw" content = content.
Proof. reflexivity. Qed.

Lemma FormatOutput_default fmt content :
  fmt ≠ "json" → fmt ≠ "markdown" → FormatOutput fmt content = content.
Proof. intros. unfold FormatOutput. repeat case_decide; done. Qed.

(** On content without a backslash and without control characters other
    than the line feed, the json output does read back as the content. *)
Definition json_safe (c : ascii) : bool :=
  let n := N_of_ascii c in
  negb (n =? 92)%N && ((n =? 10)%N || (32 <=? n)%N).

Fixpoint all_json_safe (s : string) : bool :=
  match s with
  | EmptyString => true
  | String c s' => json_safe c && all_json_safe s'
  end.

Definition escape (content : string) : string :=
  ReplaceAll (ReplaceAll content QUOTE (BACKSLASH +:+ QUOTE)) LF (BACKSLASH +:+ "n").

Definition escape_char (c : ascii) : string :=
  if decide (c = quote_char) then BACKSLASH +:+ QUOTE
  else if decide (c = LF_char) then BACKSLASH +:+ "n"
  else String c EmptyString.

Lemma ReplaceAll_single_cons (x c : ascii) (s new : string) :
  ReplaceAll (String c s) (String x EmptyString) new
  = (if decide (c = x) then new else String c EmptyString)
      +:+ ReplaceAll s (String x EmptyString) new.
Proof.
  unfold ReplaceAll. simpl. destruct (ascii_dec x c) as [->|Hne].
  - rewrite decide_True by done. by destruct s.
  - by rewrite decide_False by congruence.
Qed.

Lemma ReplaceAll_single_app (x : ascii) (a b new : string) :
  ReplaceAll (a +:+ b) (String x EmptyString) new
  = ReplaceAll a (String x EmptyString) new +:+ ReplaceAll b (String x EmptyString) new.
Proof.
  induction a as [|c a IH]; [done|].
  rewrite append_cons, !ReplaceAll_single_cons, IH. by rewrite append_assoc.
Qed.

Lemma escape_cons (c : ascii) (s : string) :
  escape (String c s) = escape_char c +:+ escape s.
Proof.
  unfold escape, escape_char, QUOTE, LF.
  rewrite ReplaceAll_single_cons, ReplaceAll_single_app. f_equal.
  repeat case_decide; subst; try done.
  by rewrite ReplaceAll_single_cons, decide_False.
Qed.

Lemma read_json_string_escape (content rest : string) :
  all_json_safe content = true →
  read_json_string (escape content +:+ QUOTE +:+ rest) = Some (content, rest).
Proof.
  induction content as [|c content IH]; [done|].
  simpl. intros [Hc Hall]%andb_prop. specialize (IH Hall).
  rewrite escape_cons, append_assoc. unfold escape_char.
  case_decide as Hq; [|case_decide as Hl].
  - subst c.
    change (read_json_string
              (String backslash_char
                 (String quote_char (escape content +:+ QUOTE +:+ rest)))
            = Some (String quote_char content, rest)).
    change (cons_value quote_char (read_json_string (escape content +:+ QUOTE +:+ rest))
            = Some (String quote_char content, rest)).
    by rewrite IH.
  - subst c.
    change (cons_value LF_char (read_json_string (escape content +:+ QUOTE +:+ rest))
            = Some (String LF_char content, rest)).
    by rewrite IH.
  - assert (N_of_ascii c ≠ 34%N) as Hq'
      by (intros E; apply Hq; rewrite <- (ascii_N_embedding c), E; done).
    assert (N_of_ascii c ≠ 10%N) as Hl'
      by (intros E; apply Hl; rewrite <- (ascii_N_embedding c), E; done).
    unfold json_safe in Hc. apply andb_prop in Hc as [Hb Hr].
    apply negb_true_iff, N.eqb_neq in Hb.
    apply orb_prop in Hr as [Hr|Hr]; [by apply N.eqb_eq in Hr|].
    apply N.leb_le in Hr.
    rewrite append_cons. cbn [read_json_string append].
    rewrite (proj2 (N.eqb_neq _ _) Hq'), (proj2 (N.eqb_neq _ _) Hb).
    rewrite (proj2 (N.ltb_ge _ _) Hr), append_nil_l. by rewrite IH.
Qed.

Lemma FormatOutput_json_roundtrip_safe (content : string) :
  all_json_safe content = true →
  json_response (FormatOutput "json" content) = Some content.
Proof.
  intros Hsafe. unfold FormatOutput, json_response.
  rewrite decide_True by done. fold (escape content).
  replace ("{" +:+ QUOTE +:+ "response" +:+ QUOTE +:+ ": " +:+ QUOTE
               +:+ escape content +:+ QUOTE +:+ "}")
    with (("{" +:+ QUOTE +:+ "response" +:+ QUOTE +:+ ": " +:+ QUOTE)
            +:+ (escape content +:+ QUOTE +:+ "}")) by reflexivity.
  assert (∀ pre s, strip_prefix pre (pre +:+ s) = Some s) as Hstrip.
  { induction pre as [|x pre IHp]; intros s; [done|].
    rewrite append_cons. simpl. by rewrite decide_True. }
  rewrite Hstrip, (read_json_string_escape content "}" Hsafe).
  by rewrite decide_True.
Qed.

(** C10 (the json format on content with a backslash).  For the content
    consisting of one backslash, FormatOutput writes the backslash as it
    is: in the output the backslash escapes the closing quote, the string
    never ends, and the output is not JSON.  For the content
    a-backslash-n-b the output reads back as a-linefeed-b, not as the
    content. *)
Theorem C10_FormatOutput_json_backslash :
  FormatOutput "json" BACKSLASH
  = "{" +:+ QUOTE +:+ "response" +:+ QUOTE +:+ ": " +:+ QUOTE +:+ BACKSLASH
        +:+ QUOTE +:+ "}"
  ∧ json_response (FormatOutput "json" BACKSLASH) = None
  ∧ json_response (FormatOutput "json" ("a" +:+ BACKSLASH +:+ "nb"))
    = Some ("a" +:+ LF +:+ "b")
  ∧ "a" +:+ LF +:+ "b" ≠ "a" +:+ BACKSLASH +:+ "nb".
Proof.
  split; [vm_compute; reflexivity|].
  split; [vm_compute; reflexivity|].
  split; [vm_compute; reflexivity|].
  vm_compute. discriminate.
Qed.

End shell.

(** ** internal/assessment: Analyzer.Analyze

    The analyzer with nine criteria, each scored out of ten. *)

Module assessment.
Import GoStrings.

Record Criterion := {
  Name : string;
  Score : Z;
  MaxScore : Z;
  Status : string;
  Description : string;
  Suggestions : list string
}.

Record Assessment := {
  Criteria : list Criterion;
  OverallScore : Z;
  OverallRating : string;
  TotalIssues : Z;
  Recommendations : list string
}.

Definition QUOTE : string := String (ascii_of_nat 34) EmptyString.

(** [for _, marker := range markers { if strings.Contains(s, marker) { n++ } }] *)
Definition count_contained (s : string) (markers : list string) : Z :=
  foldl (λ n marker, if Contains s marker then n + 1 else n) 0 markers.

(** The same loop setting a flag and leaving at the first hit. *)
Definition any_contained (s : string) (markers : list string) : bool :=
  existsb (λ marker, Contains s marker) markers.

Section Analyzer.
(** [strings.ToLower] and [strings.Fields], see [GoStrings]. *)
Variable ToLower : string → string.
Variable Fields : string → list string.

Definition wordCount_of (prompt : string) : Z := Z.of_nat (length (Fields prompt)).

Definition checkClarity (prompt : string) : Criterion :=
  let length := len prompt in
  let wordCount := wordCount_of prompt in
  let hasPunctuation := ContainsAny prompt ".?!" in
  let hasUndefinedQuotes := (2 <=? Count prompt QUOTE) || (2 <=? Count prompt "'") in
  if length <? 10 then
    {| Name := "Clarity"; MaxScore := 10; Score := 1; Status := "Poor";
       Description := "Prompt is too short to be clear";
       Suggestions := ["Expand your prompt with more details"] |}
  else if (length <? 30) || (wordCount <? 5) then
    {| Name := "Clarity"; MaxScore := 10; Score := 3; Status := "Poor";
       Description := "Prompt is vague and needs more detail";
       Suggestions := ["Add specific details about what you want"] |}
  else if negb hasPunctuation && (wordCount <? 15) then
    {| Name := "Clarity"; MaxScore := 10; Score := 5; Status := "Fair";
       Description := "Prompt could be clearer with better structure";
       Suggestions := ["Use proper punctuation and complete sentences"] |}
  else if hasUndefinedQuotes then
    {| Name := "Clarity"; MaxScore := 10; Score := 6; Status := "Good";
       Description := "Clear but has undefined terms in quotes";
       Suggestions := ["Define terms in quotes or remove ambiguous references"] |}
  else if wordCount <? 20 then
    {| Name := "Clarity"; MaxScore := 10; Score := 7; Status := "Good";
       Description := "Prompt is clear but could be more detailed";
       Suggestions := [] |}
  else if wordCount <? 40 then
    {| Name := "Clarity"; MaxScore := 10; Score := 8; Status := "Very Good";
       Description := "Clear and well-articulated prompt";
       Suggestions := [] |}
  else
    {| Name := "Clarity"; MaxScore := 10; Score := 10; Status := "Excellent";
       Description := "Exceptionally clear with unambiguous intent";
       Suggestions := [] |}.

Definition checkRelevance (prompt : string) : Criterion :=
  let lowerPrompt := ToLower prompt in
  let purposeMarkers :=
    ["so that"; "in order to"; "because"; "to help"; "my goal";
     "i need"; "i want to"; "the purpose"; "this will"; "for my";
     "i'm trying to"; "i'm working on"; "for the purpose of"] in
  let outcomeMarkers :=
    ["deliverable"; "output"; "result"; "decision"; "action"; "plan";
     "strategy"; "solution"; "answer to"; "help me decide"; "determine"] in
  let applicationMarkers :=
    ["project"; "task"; "work"; "assignment"; "problem"; "use case";
     "scenario"; "situation"; "implement"; "apply"; "build"] in
  let purposeCount := count_contained lowerPrompt purposeMarkers in
  let outcomeCount := count_contained lowerPrompt outcomeMarkers in
  let applicationCount := count_contained lowerPrompt applicationMarkers in
  let totalRelevance := purposeCount + outcomeCount + applicationCount in
  if totalRelevance =? 0 then
    {| Name := "Relevance"; MaxScore := 10; Score := 3; Status := "Poor";
       Description := "No clear goal or practical outcome specified";
       Suggestions := ["Add 'so that...' or explain why you need this information"] |}
  else if (0 <? purposeCount) && (totalRelevance =? 1) then
    {| Name := "Relevance"; MaxScore := 10; Score := 6; Status := "Good";
       Description := "Purpose mentioned but outcome unclear";
       Suggestions := ["Link to a specific decision or deliverable"] |}
  else if (0 <? outcomeCount) && (totalRelevance <=? 2) then
    {| Name := "Relevance"; MaxScore := 10; Score := 7; Status := "Good";
       Description := "Practical outcome identified";
       Suggestions := [] |}
  else if totalRelevance =? 3 then
    {| Name := "Relevance"; MaxScore := 10; Score := 8; Status := "Very Good";
       Description := "Clear goal with practical application";
       Suggestions := [] |}
  else if 4 <=? totalRelevance then
    {| Name := "Relevance"; MaxScore := 10; Score := 10; Status := "Excellent";
       Description := "Explicitly linked to decision, deliverable, or actionable outcome";
       Suggestions := [] |}
  else
    {| Name := "Relevance"; MaxScore := 10; Score := 5; Status := "Fair";
       Description := "Some relevance but goal not explicit";
       Suggestions := ["Clarify the practical goal or outcome you're seeking"] |}.

Definition checkSpecificity (prompt : string) : Criterion :=
  let lowerPrompt := ToLower prompt in
  let actionVerbs :=
    ["explain"; "write"; "create"; "analyze"; "describe"; "compare"; "list";
     "summarize"; "generate"; "translate"; "build"; "design"; "implement"] in
  let hasActionVerb := any_contained lowerPrompt actionVerbs in
  let specificityMarkers :=
    ["specific"; "detailed"; "particular"; "exactly"; "precisely"; "how many";
     "which"; "what type"] in
  let hasSpecificityMarker := any_contained lowerPrompt specificityMarkers in
  let wordCount := wordCount_of prompt in
  if negb hasActionVerb && (wordCount <? 10) then
    {| Name := "Specificity"; MaxScore := 10; Score := 1; Status := "Poor";
       Description := "Prompt lacks clear direction or specific task";
       Suggestions :=
         ["Start with an action verb (e.g., 'explain', 'create', 'analyze')"] |}
  else if negb hasActionVerb then
    {| Name := "Specificity"; MaxScore := 10; Score := 3; Status := "Poor";
       Description := "Prompt needs a clearer task or objective";
       Suggestions := ["Specify exactly what you want (e.g., 'explain how X works')"] |}
  else if negb hasSpecificityMarker && (wordCount <? 20) then
    {| Name := "Specificity"; MaxScore := 10; Score := 5; Status := "Fair";
       Description := "Prompt has a task but could be more specific";
       Suggestions := ["Add details about scope, depth, or focus"] |}
  else if negb hasSpecificityMarker && (wordCount <? 40) then
    {| Name := "Specificity"; MaxScore := 10; Score := 7; Status := "Good";
       Description := "Clear task but lacks precise details";
       Suggestions := ["Add specific parameters or success criteria"] |}
  else if hasSpecificityMarker && (wordCount <? 30) then
    {| Name := "Specificity"; MaxScore := 10; Score := 8; Status := "Very Good";
       Description := "Specific prompt with clear direction";
       Suggestions := [] |}
  else
    {| Name := "Specificity"; MaxScore := 10; Score := 10; Status := "Excellent";
       Description := "Highly specific and well-defined with clear parameters";
       Suggestions := [] |}.

Definition checkContext (prompt : string) : Criterion :=
  let lowerPrompt := ToLower prompt in
  let contextMarkers :=
    ["because"; "since"; "given"; "considering"; "context"; "background"; "for";
     "about"; "in order to"; "so that"; "my goal"; "i need"; "i want"] in
  let contextCount := count_contained lowerPrompt contextMarkers in
  let wordCount := wordCount_of prompt in
  if (contextCount =? 0) && (wordCount <? 15) then
    {| Name := "Context"; MaxScore := 10; Score := 1; Status := "Poor";
       Description := "No context provided";
       Suggestions := ["Add background information or context"] |}
  else if (contextCount =? 0) && (wordCount <? 30) then
    {| Name := "Context"; MaxScore := 10; Score := 3; Status := "Poor";
       Description := "Minimal context provided";
       Suggestions := ["Explain why you need this or provide relevant background"] |}
  else if contextCount =? 1 then
    {| Name := "Context"; MaxScore := 10; Score := 5; Status := "Fair";
       Description := "Some context provided";
       Suggestions := ["Add more background details for better results"] |}
  else if contextCount =? 2 then
    {| Name := "Context"; MaxScore := 10; Score := 7; Status := "Good";
       Description := "Good context provided";
       Suggestions := [] |}
  else if contextCount =? 3 then
    {| Name := "Context"; MaxScore := 10; Score := 8; Status := "Very Good";
       Description := "Rich context with good background";
       Suggestions := [] |}
  else
    {| Name := "Context"; MaxScore := 10; Score := 10; Status := "Excellent";
       Description := "Comprehensive context with clear purpose and background";
       Suggestions := [] |}.

Definition checkStructure (prompt : string) : Criterion :=
  let hasPunctuation := ContainsAny prompt ".?!,;:" in
  let hasParagraphs :=
    Contains prompt (String (ascii_of_nat 10) (String (ascii_of_nat 10) EmptyString)) in
  let hasList :=
    Contains prompt "1." || Contains prompt "2." || Contains prompt "-"
    || Contains prompt "*" in
  let hasNumbering := Contains prompt "1)" || Contains prompt "2)" in
  let hasSections := Contains prompt ":" && hasPunctuation in
  let wordCount := wordCount_of prompt in
  if wordCount <? 5 then
    {| Name := "Structure"; MaxScore := 10; Score := 1; Status := "Poor";
       Description := "Prompt too short to have meaningful structure";
       Suggestions := ["Expand your prompt with multiple sentences"] |}
  else
    let structureScore := 0 in
    let structureScore := if hasPunctuation then structureScore + 1 else structureScore in
    let structureScore := if hasParagraphs then structureScore + 2 else structureScore in
    let structureScore :=
      if hasList || hasNumbering then structureScore + 2 else structureScore in
    let structureScore := if hasSections then structureScore + 1 else structureScore in
    if negb hasPunctuation && (10 <? wordCount) then
      {| Name := "Structure"; MaxScore := 10; Score := 2; Status := "Poor";
         Description := "Prompt lacks proper structure and punctuation";
         Suggestions := ["Use punctuation to separate ideas"] |}
    else if (structureScore <=? 1) && (20 <? wordCount) then
      {| Name := "Structure"; MaxScore := 10; Score := 4; Status := "Fair";
         Description := "Basic structure but could be improved";
         Suggestions := ["Break into paragraphs or use lists for clarity"] |}
    else if structureScore <=? 1 then
      {| Name := "Structure"; MaxScore := 10; Score := 5; Status := "Fair";
         Description := "Adequate structure for simple prompt";
         Suggestions := [] |}
    else if structureScore =? 2 then
      {| Name := "Structure"; MaxScore := 10; Score := 6; Status := "Good";
         Description := "Good structure with clear organization";
         Suggestions := [] |}
    else if structureScore =? 3 then
      {| Name := "Structure"; MaxScore := 10; Score := 7; Status := "Good";
         Description := "Well-structured with multiple elements";
         Suggestions := [] |}
    else if structureScore =? 4 then
      {| Name := "Structure"; MaxScore := 10; Score := 8; Status := "Very Good";
         Description := "Very well-structured prompt";
         Suggestions := [] |}
    else
      {| Name := "Structure"; MaxScore := 10; Score := 10; Status := "Excellent";
         Description := "Excellently structured with clear organization and sections";
         Suggestions := [] |}.

Definition checkConstraints (prompt : string) : Criterion :=
  let lowerPrompt := ToLower prompt in
  let constraintMarkers :=
    ["limit"; "maximum"; "minimum"; "should not"; "must"; "only"; "within";
     "up to"; "at least"; "exactly"; "no more than"] in
  let constraintCount := count_contained lowerPrompt constraintMarkers in
  if constraintCount =? 0 then
    {| Name := "Constraints"; MaxScore := 10; Score := 2; Status := "Poor";
       Description := "No constraints specified";
       Suggestions := ["Consider adding constraints (e.g., length, format, scope)"] |}
  else if constraintCount =? 1 then
    {| Name := "Constraints"; MaxScore := 10; Score := 5; Status := "Fair";
       Description := "Minimal constraints provided";
       Suggestions := ["Add more specific constraints for better control"] |}
  else if constraintCount =? 2 then
    {| Name := "Constraints"; MaxScore := 10; Score := 7; Status := "Good";
       Description := "Some constraints specified";
       Suggestions := [] |}
  else if constraintCount =? 3 then
    {| Name := "Constraints"; MaxScore := 10; Score := 8; Status := "Very Good";
       Description := "Good constraints specified";
       Suggestions := [] |}
  else
    {| Name := "Constraints"; MaxScore := 10; Score := 10; Status := "Excellent";
       Description := "Well-defined constraints with clear boundaries";
       Suggestions := [] |}.

Definition checkOutputFormat (prompt : string) : Criterion :=
  let lowerPrompt := ToLower prompt in
  let formatMarkers :=
    ["format"; "json"; "markdown"; "list"; "table"; "bullet"; "numbered";
     "paragraph"; "code"; "style"; "output as"; "return as"; "provide as";
     "structure as"; "organize as"; "csv"; "xml"; "html"] in
  let '(hasFormat, formatCount) :=
    foldl (λ '(hasFormat, formatCount) marker,
             if Contains lowerPrompt marker then (true, formatCount + 1)
             else (hasFormat, formatCount))
          (false, 0) formatMarkers in
  if negb hasFormat then
    {| Name := "Output Format"; MaxScore := 10; Score := 2; Status := "Fair";
       Description := "Output format not specified";
       Suggestions :=
         ["Specify desired format (e.g., 'as a list', 'in JSON format', 'as a table')"] |}
  else if (formatCount =? 1) && Contains lowerPrompt "format" then
    {| Name := "Output Format"; MaxScore := 10; Score := 6; Status := "Good";
       Description := "Format mentioned but not detailed";
       Suggestions := ["Be more specific about the exact format structure"] |}
  else if formatCount =? 1 then
    {| Name := "Output Format"; MaxScore := 10; Score := 7; Status := "Good";
       Description := "Output format specified";
       Suggestions := [] |}
  else if formatCount =? 2 then
    {| Name := "Output Format"; MaxScore := 10; Score := 9; Status := "Excellent";
       Description := "Detailed output format specification";
       Suggestions := [] |}
  else
    {| Name := "Output Format"; MaxScore := 10; Score := 10; Status := "Excellent";
       Description := "Comprehensive output format with multiple specifications";
       Suggestions := [] |}.

Definition checkRole (prompt : string) : Criterion :=
  let lowerPrompt := ToLower prompt in
  let roleMarkers :=
    ["as a"; "you are"; "act as"; "pretend"; "imagine you"; "assume you";
     "expert"; "professional"; "specialist"; "teacher"; "coach"; "consultant";
     "acting as"; "role of"; "persona of"] in
  let '(hasRole, roleCount, hasExpertise) :=
    foldl (λ '(hasRole, roleCount, hasExpertise) marker,
             if Contains lowerPrompt marker then
               (true, roleCount + 1,
                if Contains marker "expert" || Contains marker "professional"
                   || Contains marker "specialist"
                then true else hasExpertise)
             else (hasRole, roleCount, hasExpertise))
          (false, 0, false) roleMarkers in
  let expertiseTerms :=
    ["expert in"; "specialist in"; "professional with"; "experience in"; "skilled in"] in
  let '(hasExpertise, roleCount) :=
    foldl (λ '(hasExpertise, roleCount) term,
             if Contains lowerPrompt term then (true, roleCount + 1)
             else (hasExpertise, roleCount))
          (hasExpertise, roleCount) expertiseTerms in
  if negb hasRole then
    {| Name := "Role/Persona"; MaxScore := 10; Score := 2; Status := "Fair";
       Description := "No role or persona defined";
       Suggestions := ["Define a role (e.g., 'as an expert in X', 'act as a teacher')"] |}
  else if hasRole && negb hasExpertise && (roleCount =? 1) then
    {| Name := "Role/Persona"; MaxScore := 10; Score := 6; Status := "Good";
       Description := "Basic role mentioned";
       Suggestions := ["Add expertise level or specific domain knowledge"] |}
  else if hasRole && hasExpertise && (roleCount =? 1) then
    {| Name := "Role/Persona"; MaxScore := 10; Score := 8; Status := "Very Good";
       Description := "Clear expert role defined";
       Suggestions := [] |}
  else if roleCount =? 2 then
    {| Name := "Role/Persona"; MaxScore := 10; Score := 9; Status := "Excellent";
       Description := "Well-defined role with expertise";
       Suggestions := [] |}
  else
    {| Name := "Role/Persona"; MaxScore := 10; Score := 10; Status := "Excellent";
       Description := "Comprehensive role definition with detailed expertise";
       Suggestions := [] |}.

Definition checkExamples (prompt : string) : Criterion :=
  let lowerPrompt := ToLower prompt in
  let exampleMarkers :=
    ["example"; "such as"; "like"; "for instance"; "e.g."; "i.e."; "for example"] in
  let exampleCount := count_contained lowerPrompt exampleMarkers in
  if exampleCount =? 0 then
    {| Name := "Examples"; MaxScore := 10; Score := 2; Status := "Poor";
       Description := "No examples provided";
       Suggestions := ["Include examples to clarify expectations"] |}
  else if exampleCount =? 1 then
    {| Name := "Examples"; MaxScore := 10; Score := 6; Status := "Good";
       Description := "One example provided";
       Suggestions := ["Add more examples for clarity"] |}
  else if exampleCount =? 2 then
    {| Name := "Examples"; MaxScore := 10; Score := 8; Status := "Very Good";
       Description := "Multiple examples provided";
       Suggestions := [] |}
  else
    {| Name := "Examples"; MaxScore := 10; Score := 10; Status := "Excellent";
       Description := "Rich examples for comprehensive clarity";
       Suggestions := [] |}.

Definition getRating (score : Z) : string :=
  if 90 <=? score then "Outstanding"
  else if 75 <=? score then "Excellent"
  else if 60 <=? score then "Good"
  else if 40 <=? score then "Fair"
  else "Poor".

Definition generateRecommendations (criteria : list Criterion) (overallScore : Z)
  : list string :=
  let recommendations :=
    foldl (λ recommendations criterion,
             if (Score criterion <? 4)
                && (0 <? Z.of_nat (length (Suggestions criterion)))
             then recommendations ++ Suggestions criterion
             else recommendations)
          [] criteria in
  if overallScore <? 60 then
    recommendations ++ ["Consider using prompt engineering best practices";
                        "Break down complex requests into smaller parts"]
  else recommendations.

(** The loop over the criteria: the three running totals. *)
Definition totals (criteria : list Criterion) : Z * Z * Z :=
  foldl (λ '(totalScore, maxScore, totalIssues) criterion,
           (totalScore + Score criterion, maxScore + MaxScore criterion,
            if Score criterion <? 4 then totalIssues + 1 else totalIssues))
        (0, 0, 0) criteria.

(** Go's [/] on int truncates towards zero: [Z.quot]. *)
Definition Analyze (prompt : string) : Assessment :=
  let criteria : list Criterion := [] in
  let criteria := criteria ++ [checkClarity prompt] in
  let criteria := criteria ++ [checkRelevance prompt] in
  let criteria := criteria ++ [checkSpecificity prompt] in
  let criteria := criteria ++ [checkContext prompt] in
  let criteria := criteria ++ [checkStructure prompt] in
  let criteria := criteria ++ [checkConstraints prompt] in
  let criteria := criteria ++ [checkOutputFormat prompt] in
  let criteria := criteria ++ [checkRole prompt] in
  let criteria := criteria ++ [checkExamples prompt] in
  let '(totalScore, maxScore, totalIssues) := totals criteria in
  let overallScore := (totalScore * 100) `quot` maxScore in
  {| Criteria := criteria;
     OverallScore := overallScore;
     TotalIssues := totalIssues;
     OverallRating := getRating overallScore;
     Recommendations := generateRecommendations criteria overallScore |}.

(** *** Bounds *)

Definition in_range (c : Criterion) : Prop :=
  1 ≤ Score c ≤ 10 ∧ Score c ≤ MaxScore c ∧ MaxScore c = 10.

Ltac branches :=
  repeat match goal with
         | |- context [ if ?b then _ else _ ] => destruct b
         | |- context [ let '(_, _) := ?p in _ ] => destruct p
         end;
  unfold in_range; simpl; lia.

Lemma checkClarity_in_range prompt : in_range (checkClarity prompt).
Proof. unfold checkClarity. cbv zeta. branches. Qed.

Lemma checkRelevance_in_range prompt : in_range (checkRelevance prompt).
Proof. unfold checkRelevance. cbv zeta. branches. Qed.

Lemma checkSpecificity_in_range prompt : in_range (checkSpecificity prompt).
Proof. unfold checkSpecificity. cbv zeta. branches. Qed.

Lemma checkContext_in_range prompt : in_range (checkContext prompt).
Proof. unfold checkContext. cbv zeta. branches. Qed.

Lemma checkStructure_in_range prompt : in_range (checkStructure prompt).
Proof.
  unfold checkStructure. cbv zeta.
  destruct (wordCount_of prompt <? 5); [unfold in_range; simpl; lia|].
  generalize (ContainsAny prompt ".?!,;:"). intros b1.
  match goal with |- context [ if negb b1 && ?c then _ else _ ] =>
    destruct (negb b1 && c); [unfold in_range; simpl; lia|] end.
  repeat match goal with
         | |- in_range (if ?b then _ else _) =>
             destruct b; [unfold in_range; simpl; lia|]
         end.
  unfold in_range; simpl; lia.
Qed.

Lemma checkConstraints_in_range prompt : in_range (checkConstraints prompt).
Proof. unfold checkConstraints. cbv zeta. branches. Qed.

Lemma checkOutputFormat_in_range prompt : in_range (checkOutputFormat prompt).
Proof.
  unfold checkOutputFormat. cbv zeta.
  match goal with |- context [ foldl ?f ?a ?l ] => destruct (foldl f a l) as [h n] end.
  branches.
Qed.

Lemma checkRole_in_range prompt : in_range (checkRole prompt).
Proof.
  unfold checkRole. cbv zeta.
  match goal with |- context [ foldl ?f (false, 0, false) ?l ] =>
    destruct (foldl f (false, 0, false) l) as [[h n] e] end.
  match goal with |- context [ foldl ?f ?a ?l ] => destruct (foldl f a l) as [e' n'] end.
  branches.
Qed.

Lemma checkExamples_in_range prompt : in_range (checkExamples prompt).
Proof. unfold checkExamples. cbv zeta. branches. Qed.

(** *** The assessment as a whole *)

Definition criteria_of (prompt : string) : list Criterion :=
  [checkClarity prompt; checkRelevance prompt; checkSpecificity prompt;
   checkContext prompt; checkStructure prompt; checkConstraints prompt;
   checkOutputFormat prompt; checkRole prompt; checkExamples prompt].

Definition sum_Score (criteria : list Criterion) : Z :=
  foldr (λ c n, Score c + n) 0 criteria.

Definition sum_MaxScore (criteria : list Criterion) : Z :=
  foldr (λ c n, MaxScore c + n) 0 criteria.

Lemma totals_sums criteria :
  (totals criteria).1.1 = sum_Score criteria
  ∧ (totals criteria).1.2 = sum_MaxScore criteria.
Proof.
  unfold totals.
  assert (∀ a b i,
            (foldl (λ '(totalScore, maxScore, totalIssues) criterion,
                      (totalScore + Score criterion, maxScore + MaxScore criterion,
                       if Score criterion <? 4 then totalIssues + 1 else totalIssues))
                   (a, b, i) criteria).1
            = (a + sum_Score criteria, b + sum_MaxScore criteria)) as H.
  { induction criteria as [|c cs IH]; intros a b i; simpl.
    - f_equal; lia.
    - rewrite IH. f_equal; lia. }
  specialize (H 0 0 0). destruct (foldl _ _ _) as [[t m] i].
  simpl in *. by injection H as -> ->.
Qed.

Lemma Analyze_Criteria prompt : Criteria (Analyze prompt) = criteria_of prompt.
Proof.
  unfold Analyze. cbv zeta. destruct (totals _) as [[t m] i]. reflexivity.
Qed.

Lemma Analyze_OverallScore prompt :
  OverallScore (Analyze prompt)
  = (sum_Score (criteria_of prompt) * 100) `quot` sum_MaxScore (criteria_of prompt).
Proof.
  destruct (totals_sums (criteria_of prompt)) as [<- <-].
  unfold Analyze. cbv zeta.
  change (((((((((([] ++ [checkClarity prompt]) ++ [checkRelevance prompt])
                   ++ [checkSpecificity prompt]) ++ [checkContext prompt])
                 ++ [checkStructure prompt]) ++ [checkConstraints prompt])
               ++ [checkOutputFormat prompt]) ++ [checkRole prompt])
             ++ [checkExamples prompt])) with (criteria_of prompt).
  by destruct (totals (criteria_of prompt)) as [[t m] i].
Qed.

Lemma criteria_of_in_range prompt : Forall in_range (criteria_of prompt).
Proof.
  unfold criteria_of.
  repeat apply Forall_cons_2; [..|apply Forall_nil_2].
  - apply checkClarity_in_range.
  - apply checkRelevance_in_range.
  - apply checkSpecificity_in_range.
  - apply checkContext_in_range.
  - apply checkStructure_in_range.
  - apply checkConstraints_in_range.
  - apply checkOutputFormat_in_range.
  - apply checkRole_in_range.
  - apply checkExamples_in_range.
Qed.

Lemma in_range_sums criteria :
  Forall in_range criteria →
  Z.of_nat (length criteria) ≤ sum_Score criteria ≤ 10 * Z.of_nat (length criteria)
  ∧ sum_MaxScore criteria = 10 * Z.of_nat (length criteria).
Proof.
  induction 1 as [|c cs (Hs & _ & Hm) _ IH]; simpl; [lia|].
  unfold sum_Score, sum_MaxScore in *. simpl. lia.
Qed.

(** C9. For every text, Analyze returns exactly nine criteria; every
    criterion's Score is between 1 and 10 and no greater than its
    MaxScore; OverallScore is (sum of the scores * 100) / (sum of the
    MaxScores), with Go's integer division, and lies between 0 and 100;
    and the result depends on the text alone. *)
Theorem C9_Analyze_scores (text : string) :
  length (Criteria (Analyze text)) = 9%nat
  ∧ Forall (λ c, 1 ≤ Score c ≤ 10 ∧ Score c ≤ MaxScore c) (Criteria (Analyze text))
  ∧ OverallScore (Analyze text)
    = (sum_Score (Criteria (Analyze text)) * 100)
        `quot` sum_MaxScore (Criteria (Analyze text))
  ∧ 0 ≤ OverallScore (Analyze text) ≤ 100
  ∧ ∀ text', text' = text → Analyze text' = Analyze text.
Proof.
  rewrite Analyze_OverallScore, Analyze_Criteria.
  pose proof (criteria_of_in_range text) as Hall.
  destruct (in_range_sums _ Hall) as [Hsum Hmax].
  change (length (criteria_of text)) with 9%nat in *.
  split; [done|]. split.
  { eapply Forall_impl; [exact Hall|]. intros c (? & ? & ?). done. }
  split; [done|]. split.
  - rewrite Hmax. change (10 * Z.of_nat 9) with 90 in *.
    rewrite Z.quot_div_nonneg by lia. split.
    + apply Z.div_pos; lia.
    + apply Z.div_le_upper_bound; lia.
  - by intros text' ->.
Qed.

End Analyzer.

(** *** The earlier revision of the analyzer

    analyzer.go also holds the analyzer as it was before the Relevance
    criterion was added: eight criteria, each scored out of five. *)

Module Earlier.

Section Analyzer.
Variable ToLower : string → string.
Variable Fields : string → list string.

Definition wordCount_of (prompt : string) : Z := Z.of_nat (length (Fields prompt)).

Definition checkClarity (prompt : string) : Criterion :=
  let length := len prompt in
  let wordCount := wordCount_of prompt in
  if length <? 10 then
    {| Name := "Clarity"; MaxScore := 5; Score := 1; Status := "Poor";
       Description := "Prompt is too short to be clear";
       Suggestions := ["Expand your prompt with more details"] |}
  else if (length <? 30) || (wordCount <? 5) then
    {| Name := "Clarity"; MaxScore := 5; Score := 2; Status := "Fair";
       Description := "Prompt is vague and needs more detail";
       Suggestions := ["Add specific details about what you want"] |}
  else if negb (ContainsAny prompt ".?!") && (wordCount <? 15) then
    {| Name := "Clarity"; MaxScore := 5; Score := 3; Status := "Good";
       Description := "Prompt could be clearer with better structure";
       Suggestions := ["Use proper punctuation and complete sentences"] |}
  else if wordCount <? 20 then
    {| Name := "Clarity"; MaxScore := 5; Score := 4; Status := "Very Good";
       Description := "Prompt is clear but could be more detailed";
       Suggestions := [] |}
  else
    {| Name := "Clarity"; MaxScore := 5; Score := 5; Status := "Excellent";
       Description := "Prompt is clear and well-articulated";
       Suggestions := [] |}.

Definition checkSpecificity (prompt : string) : Criterion :=
  let lowerPrompt := ToLower prompt in
  let actionVerbs :=
    ["explain"; "write"; "create"; "analyze"; "describe"; "compare"; "list";
     "summarize"; "generate"; "translate"] in
  let hasActionVerb := any_contained lowerPrompt actionVerbs in
  let specificityMarkers :=
    ["specific"; "detailed"; "particular"; "exactly"; "precisely"] in
  let hasSpecificityMarker := any_contained lowerPrompt specificityMarkers in
  let wordCount := wordCount_of prompt in
  if negb hasActionVerb && (wordCount <? 10) then
    {| Name := "Specificity"; MaxScore := 5; Score := 1; Status := "Poor";
       Description := "Prompt lacks clear direction or specific task";
       Suggestions :=
         ["Start with an action verb (e.g., 'explain', 'create', 'analyze')"] |}
  else if negb hasActionVerb then
    {| Name := "Specificity"; MaxScore := 5; Score := 2; Status := "Fair";
       Description := "Prompt needs a clearer task or objective";
       Suggestions := ["Specify exactly what you want (e.g., 'explain how X works')"] |}
  else if negb hasSpecificityMarker && (wordCount <? 20) then
    {| Name := "Specificity"; MaxScore := 5; Score := 3; Status := "Good";
       Description := "Prompt has a task but could be more specific";
       Suggestions := ["Add details about scope, depth, or focus"] |}
  else if wordCount <? 30 then
    {| Name := "Specificity"; MaxScore := 5; Score := 4; Status := "Very Good";
       Description := "Prompt is specific but could include more constraints";
       Suggestions := [] |}
  else
    {| Name := "Specificity"; MaxScore := 5; Score := 5; Status := "Excellent";
       Description := "Prompt is highly specific and well-defined";
       Suggestions := [] |}.

Definition checkContext (prompt : string) : Criterion :=
  let lowerPrompt := ToLower prompt in
  let contextMarkers :=
    ["because"; "since"; "given"; "considering"; "context"; "background"; "for";
     "about"] in
  let contextCount := count_contained lowerPrompt contextMarkers in
  let wordCount := wordCount_of prompt in
  if (contextCount =? 0) && (wordCount <? 15) then
    {| Name := "Context"; MaxScore := 5; Score := 1; Status := "Poor";
       Description := "No context provided";
       Suggestions := ["Add background information or context"] |}
  else if contextCount =? 0 then
    {| Name := "Context"; MaxScore := 5; Score := 2; Status := "Fair";
       Description := "Minimal context provided";
       Suggestions := ["Explain why you need this or provide relevant background"] |}
  else if contextCount =? 1 then
    {| Name := "Context"; MaxScore := 5; Score := 3; Status := "Good";
       Description := "Some context provided";
       Suggestions := ["Add more background details for better results"] |}
  else if contextCount =? 2 then
    {| Name := "Context"; MaxScore := 5; Score := 4; Status := "Very Good";
       Description := "Good context provided";
       Suggestions := [] |}
  else
    {| Name := "Context"; MaxScore := 5; Score := 5; Status := "Excellent";
       Description := "Rich context with comprehensive background";
       Suggestions := [] |}.

Definition checkStructure (prompt : string) : Criterion :=
  let hasPunctuation := ContainsAny prompt ".?!,;:" in
  let hasParagraphs :=
    Contains prompt (String (ascii_of_nat 10) (String (ascii_of_nat 10) EmptyString)) in
  let hasList := Contains prompt "1." || Contains prompt "-" || Contains prompt "*" in
  let wordCount := wordCount_of prompt in
  if wordCount <? 5 then
    {| Name := "Structure"; MaxScore := 5; Score := 1; Status := "Poor";
       Description := "Prompt too short to have meaningful structure";
       Suggestions := ["Expand your prompt with multiple sentences"] |}
  else
    let structureScore := 0 in
    let structureScore := if hasPunctuation then structureScore + 1 else structureScore in
    let structureScore := if hasParagraphs then structureScore + 1 else structureScore in
    let structureScore := if hasList then structureScore + 1 else structureScore in
    if negb hasPunctuation && (10 <? wordCount) then
      {| Name := "Structure"; MaxScore := 5; Score := 1; Status := "Poor";
         Description := "Prompt lacks proper structure and punctuation";
         Suggestions := ["Use punctuation to separate ideas"] |}
    else if (structureScore =? 1) && (20 <? wordCount) then
      {| Name := "Structure"; MaxScore := 5; Score := 2; Status := "Fair";
         Description := "Basic structure but could be improved";
         Suggestions := ["Break into paragraphs or use lists for clarity"] |}
    else if (structureScore =? 1) || (wordCount <? 15) then
      {| Name := "Structure"; MaxScore := 5; Score := 3; Status := "Good";
         Description := "Adequate structure";
         Suggestions := [] |}
    else if structureScore =? 2 then
      {| Name := "Structure"; MaxScore := 5; Score := 4; Status := "Very Good";
         Description := "Well-structured prompt";
         Suggestions := [] |}
    else
      {| Name := "Structure"; MaxScore := 5; Score := 5; Status := "Excellent";
         Description := "Excellently structured with clear organization";
         Suggestions := [] |}.

Definition checkConstraints (prompt : string) : Criterion :=
  let lowerPrompt := ToLower prompt in
  let constraintMarkers :=
    ["limit"; "maximum"; "minimum"; "should not"; "must"; "only"; "within";
     "up to"; "at least"] in
  let constraintCount := count_contained lowerPrompt constraintMarkers in
  if constraintCount =? 0 then
    {| Name := "Constraints"; MaxScore := 5; Score := 2; Status := "Fair";
       Description := "No constraints specified";
       Suggestions := ["Consider adding constraints (e.g., length, format, scope)"] |}
  else if constraintCount =? 1 then
    {| Name := "Constraints"; MaxScore := 5; Score := 3; Status := "Good";
       Description := "Some constraints provided";
       Suggestions := ["Add more specific constraints for better control"] |}
  else if constraintCount =? 2 then
    {| Name := "Constraints"; MaxScore := 5; Score := 4; Status := "Very Good";
       Description := "Good constraints specified";
       Suggestions := [] |}
  else
    {| Name := "Constraints"; MaxScore := 5; Score := 5; Status := "Excellent";
       Description := "Well-defined constraints";
       Suggestions := [] |}.

Definition checkOutputFormat (prompt : string) : Criterion :=
  let lowerPrompt := ToLower prompt in
  let formatMarkers :=
    ["format"; "json"; "markdown"; "list"; "table"; "bullet"; "numbered";
     "paragraph"; "code"; "style"] in
  let hasFormat := any_contained lowerPrompt formatMarkers in
  if negb hasFormat then
    {| Name := "Output Format"; MaxScore := 5; Score := 2; Status := "Fair";
       Description := "Output format not specified";
       Suggestions := ["Specify desired format (e.g., 'as a list', 'in JSON format')"] |}
  else if Contains lowerPrompt "format" then
    {| Name := "Output Format"; MaxScore := 5; Score := 4; Status := "Very Good";
       Description := "Output format mentioned";
       Suggestions := [] |}
  else
    {| Name := "Output Format"; MaxScore := 5; Score := 5; Status := "Excellent";
       Description := "Clear output format specification";
       Suggestions := [] |}.

Definition checkRole (prompt : string) : Criterion :=
  let lowerPrompt := ToLower prompt in
  let roleMarkers :=
    ["as a"; "you are"; "act as"; "pretend"; "imagine you"; "expert"; "professional"] in
  let hasRole := any_contained lowerPrompt roleMarkers in
  if negb hasRole then
    {| Name := "Role/Persona"; MaxScore := 5; Score := 2; Status := "Fair";
       Description := "No role or persona defined";
       Suggestions := ["Define a role (e.g., 'as an expert in X')"] |}
  else if Contains lowerPrompt "expert" || Contains lowerPrompt "professional" then
    {| Name := "Role/Persona"; MaxScore := 5; Score := 5; Status := "Excellent";
       Description := "Clear expert role defined";
       Suggestions := [] |}
  else
    {| Name := "Role/Persona"; MaxScore := 5; Score := 4; Status := "Very Good";
       Description := "Role mentioned";
       Suggestions := [] |}.

Definition checkExamples (prompt : string) : Criterion :=
  let lowerPrompt := ToLower prompt in
  let exampleMarkers :=
    ["example"; "such as"; "like"; "for instance"; "e.g."; "i.e."] in
  let exampleCount := count_contained lowerPrompt exampleMarkers in
  if exampleCount =? 0 then
    {| Name := "Examples"; MaxScore := 5; Score := 2; Status := "Fair";
       Description := "No examples provided";
       Suggestions := ["Include examples to clarify expectations"] |}
  else if exampleCount =? 1 then
    {| Name := "Examples"; MaxScore := 5; Score := 4; Status := "Very Good";
       Description := "Example provided";
       Suggestions := [] |}
  else
    {| Name := "Examples"; MaxScore := 5; Score := 5; Status := "Excellent";
       Description := "Multiple examples for clarity";
       Suggestions := [] |}.

Definition Analyze (prompt : string) : Assessment :=
  let criteria : list Criterion := [] in
  let criteria := criteria ++ [checkClarity prompt] in
  let criteria := criteria ++ [checkSpecificity prompt] in
  let criteria := criteria ++ [checkContext prompt] in
  let criteria := criteria ++ [checkStructure prompt] in
  let criteria := criteria ++ [checkConstraints prompt] in
  let criteria := criteria ++ [checkOutputFormat prompt] in
  let criteria := criteria ++ [checkRole prompt] in
  let criteria := criteria ++ [checkExamples prompt] in
  let '(totalScore, maxScore, totalIssues) := totals criteria in
  let overallScore := (totalScore * 100) `quot` maxScore in
  {| Criteria := criteria;
     OverallScore := overallScore;
     TotalIssues := totalIssues;
     OverallRating := getRating overallScore;
     Recommendations := generateRecommendations criteria overallScore |}.

Definition criteria_of (prompt : string) : list Criterion :=
  [checkClarity prompt; checkSpecificity prompt; checkContext prompt;
   checkStructure prompt; checkConstraints prompt; checkOutputFormat prompt;
   checkRole prompt; checkExamples prompt].

Definition in_range5 (c : Criterion) : Prop :=
  1 ≤ Score c ≤ 5 ∧ MaxScore c = 5.

Ltac branches5 :=
  cbv zeta;
  repeat match goal with
         | |- context [ if ?b then _ else _ ] => destruct b
         end;
  unfold in_range5; simpl; lia.

Lemma criteria_of_in_range5 prompt : Forall in_range5 (criteria_of prompt).
Proof.
  unfold criteria_of.
  repeat apply Forall_cons_2; [..|apply Forall_nil_2].
  - unfold checkClarity. branches5.
  - unfold checkSpecificity. branches5.
  - unfold checkContext. branches5.
  - unfold checkStructure. cbv zeta.
    destruct (wordCount_of prompt <? 5); [unfold in_range5; simpl; lia|].
    generalize (ContainsAny prompt ".?!,;:"). intros b1.
    repeat match goal with
           | |- in_range5 (if ?b then _ else _) =>
               destruct b; [unfold in_range5; simpl; lia|]
           end.
    unfold in_range5; simpl; lia.
  - unfold checkConstraints. branches5.
  - unfold checkOutputFormat. branches5.
  - unfold checkRole. branches5.
  - unfold checkExamples. branches5.
Qed.

(** The earlier revision: eight criteria, every Score between 1 and 5
    with MaxScore 5, and the same overall score formula, between 0 and
    100. *)
Lemma Analyze_scores (text : string) :
  length (Criteria (Analyze text)) = 8%nat
  ∧ Forall (λ c, 1 ≤ Score c ≤ 5 ∧ MaxScore c = 5) (Criteria (Analyze text))
  ∧ OverallScore (Analyze text)
    = (sum_Score (Criteria (Analyze text)) * 100)
        `quot` sum_MaxScore (Criteria (Analyze text))
  ∧ 0 ≤ OverallScore (Analyze text) ≤ 100.
Proof.
  assert (Criteria (Analyze text) = criteria_of text) as Hc.
  { unfold Analyze. cbv zeta. destruct (totals _) as [[t m] i]. reflexivity. }
  assert (OverallScore (Analyze text)
          = (sum_Score (criteria_of text) * 100) `quot` sum_MaxScore (criteria_of text))
    as Ho.
  { destruct (totals_sums (criteria_of text)) as [<- <-].
    unfold Analyze. cbv zeta.
    change ((((((((([] ++ [checkClarity text]) ++ [checkSpecificity text])
                    ++ [checkContext text]) ++ [checkStructure text])
                  ++ [checkConstraints text]) ++ [checkOutputFormat text])
                ++ [checkRole text]) ++ [checkExamples text]))
      with (criteria_of text).
    by destruct (totals (criteria_of text)) as [[t m] i]. }
  rewrite Ho, Hc. pose proof (criteria_of_in_range5 text) as Hall.
  split; [done|]. split; [done|]. split; [done|].
  assert (8 ≤ sum_Score (criteria_of text) ≤ 40
          ∧ sum_MaxScore (criteria_of text) = 40) as [Hs ->].
  { unfold criteria_of in *. unfold sum_Score, sum_MaxScore. simpl.
    repeat match goal with
           | H : Forall _ (_ :: _) |- _ =>
               apply Forall_cons_1 in H as [[? ?] H]
           end.
    lia. }
  rewrite Z.quot_div_nonneg by lia. split.
  - apply Z.div_pos; lia.
  - apply Z.div_le_upper_bound; lia.
Qed.

End Analyzer.

End Earlier.

(** On ASCII text. *)
Example Analyze_hi :
  OverallScore (Analyze ToLower_ascii Fields_ascii "hi") = 16
  ∧ Score <$> Criteria (Analyze ToLower_ascii Fields_ascii "hi")
    = [1; 3; 1; 1; 1; 2; 2; 2; 2].
Proof. vm_compute. split; reflexivity. Qed.

Definition prompt_teacher : string :=
  "You are an expert teacher. Explain exactly how a hash map works, for example with a list of at most 3 steps, because I need it for my project.".

Example Analyze_teacher :
  OverallScore (Analyze ToLower_ascii Fields_ascii prompt_teacher) = 75
  ∧ Score <$> Criteria (Analyze ToLower_ascii Fields_ascii prompt_teacher)
    = [8; 10; 8; 8; 4; 5; 7; 10; 8].
Proof. vm_compute. split; reflexivity. Qed.

Lemma C9_witness :
  0 ≤ OverallScore (Analyze ToLower_ascii Fields_ascii "hi") ≤ 100
  ∧ Analyze ToLower_ascii Fields_ascii "hi" = Analyze ToLower_ascii Fields_ascii "hi".
Proof.
  pose proof (C9_Analyze_scores ToLower_ascii Fields_ascii "hi")
    as (_ & _ & _ & Hbounds & Hsame).
  split; [exact Hbounds|]. apply Hsame. reflexivity.
Defined.

End assessment.

(** ** A session over the streaming providers *)

Module chatWitness.
Import Models GoStrings Streaming StreamingFacts StreamingClaims chat.

Definition cfg0 : Config :=
  {| Verbose := false; NoHistory := false; CfgTemperature := 0.5%float;
     CfgMaxTokens := 4000; OutputFormat := "text"; EnableAssessment := false |}.

Definition session0 : Session :=
  {| config := cfg0; messages := []; currentModel := "gemini-2.0-flash-lite";
     terminal := [] |}.

Definition clk0 : clock :=
  {| now_user := 100; now_start := 100; now_end := 103; now_assistant := 103 |}.

Definition clk1 : clock :=
  {| now_user := 200; now_start := 200; now_end := 201; now_assistant := 201 |}.

(** A provider whose first stream fails after two chunks (the gemini
    goroutine on [hello_gemini]) and whose later streams complete (the
    groq goroutine on [hello_openai]). *)
Definition flaky (req : ChatRequest) : StreamMessage_result :=
  if (length (Messages req) =? 1)%nat
  then inl (delivered (run (rounds 4) (start (GeminiProvider_goroutine hello_gemini))))
  else inl (delivered (run (rounds 4) (start (GroqProvider_goroutine hello_openai)))).

Definition user_at (t : Time) (text : string) : Message :=
  {| Role_ := RoleUser; Content := text; Timestamp := t |}.

Lemma C3_witness :
  (processMessage Fields_ascii flaky "Hello" clk0 session0).2
  = Some ("stream error: " +:+ "quota exceeded")
  ∧ messages (processMessage Fields_ascii flaky "Hello" clk0 session0).1
    = messages session0 ++ [user_at 100 "Hello"]
  ∧ terminal (processMessage Fields_ascii flaky "Hello" clk0 session0).1
    = terminal session0 ++ [PrintAssistantPrefix (currentModel session0)]
        ++ (Print ∘ ChunkContent <$> [content_chunk "Hel"; content_chunk "lo"])
  ∧ (Start_process Fields_ascii flaky "Hello" clk0 session0).2 = Continue
  ∧ messages (Start_process Fields_ascii flaky "Hello" clk0 session0).1
    = messages (processMessage Fields_ascii flaky "Hello" clk0 session0).1
  ∧ terminal (Start_process Fields_ascii flaky "Hello" clk0 session0).1
    = terminal (processMessage Fields_ascii flaky "Hello" clk0 session0).1
        ++ [PrintError ("stream error: " +:+ "quota exceeded")].
Proof.
  apply (C3_mid_stream_error Fields_ascii flaky "Hello" clk0 session0
           [content_chunk "Hel"; content_chunk "lo"]
           (error_chunk "quota exceeded") [] "quota exceeded").
  - reflexivity.
  - repeat constructor.
  - reflexivity.
Defined.

(** The next turn of the same session completes: the conversation then
    holds both user messages and the one assistant message. *)
Example next_turn_completes :
  let s1 := (Start_process Fields_ascii flaky "Hello" clk0 session0).1 in
  let s2 := (Start_process Fields_ascii flaky "Again" clk1 s1).1 in
  messages s2
  = [user_at 100 "Hello"; user_at 200 "Again";
     {| Role_ := RoleAssistant; Content := "Hello"; Timestamp := 201 |}]
  ∧ terminal s2
    = [PrintAssistantPrefix "gemini-2.0-flash-lite"; Print "Hel"; Print "lo";
       PrintError "stream error: quota exceeded";
       PrintAssistantPrefix "gemini-2.0-flash-lite"; Print "Hel"; Print "lo";
       Print ""; Println].
Proof. vm_compute. split; reflexivity. Qed.

End chatWitness.

(** ** An exported conversation *)

Module historyWitness.
Import Models GoStrings GoStringsFacts history.

(** Stand-ins for package [time]: seconds printed in unary. *)
Definition Format_unary (t : Time) (layout : string) : string :=
  Repeat "|" (Z.to_nat t).

Definition Duration_unary (d : Z) : string := Repeat "s" (Z.to_nat d).

Definition conv0 : Conversation :=
  {| ID := "conv_1"; Provider := "groq"; Model := "llama-3.3-70b-versatile";
     Messages :=
       [ {| Role_ := RoleUser; Content := "Hello"; Timestamp := 1 |};
         {| Role_ := RoleAssistant; Content := "Hi, how can I help?"; Timestamp := 2 |} ];
     StartTime := 1; EndTime := 3; TokensUsed := 0; Summary := "" |}.

Example exportMarkdown_conv0 :
  exportMarkdown Format_unary Duration_unary conv0
  = "# Conversation with groq" +:+ LF +:+ LF
    +:+ "**Model:** llama-3.3-70b-versatile" +:+ LF
    +:+ "**Date:** |" +:+ LF
    +:+ "**Duration:** ss" +:+ LF +:+ LF
    +:+ "---" +:+ LF +:+ LF
    +:+ "## User" +:+ LF +:+ LF +:+ "Hello" +:+ LF +:+ LF
    +:+ "## Assistant" +:+ LF +:+ LF +:+ "Hi, how can I help?" +:+ LF +:+ LF.
Proof. vm_compute. reflexivity. Qed.

Lemma C8_witness :
  Contains (exportMarkdown Format_unary Duration_unary conv0) "Hi, how can I help?" = true
  ∧ Contains (exportText Format_unary conv0) "Hello" = true.
Proof.
  split.
  - apply (proj2 (proj1 (C8_exports_keep_contents Format_unary Duration_unary conv0))
             {| Role_ := RoleAssistant; Content := "Hi, how can I help?"; Timestamp := 2 |}).
    apply list_elem_of_further, list_elem_of_here.
  - apply (proj2 (proj2 (C8_exports_keep_contents Format_unary Duration_unary conv0))
             {| Role_ := RoleUser; Content := "Hello"; Timestamp := 1 |}).
    apply list_elem_of_here.
Defined.

End historyWitness.

(** ** More on the streaming goroutines *)

Module StreamingExtra.
Import Models GoStrings Streaming StreamingFacts StreamingClaims.

(** Everything that has left the producer: received or still in the
    channel. *)
Definition sent (s : state) : list StreamChunk := delivered s ++ buf s.

(** The chunks of an OpenAI-compatible stream: one content chunk per
    response that has a choice, then the terminal chunk. *)
Definition openai_chunks (st : openai_stream) : list StreamChunk :=
  (content_chunk <$> omap head (recv_responses st))
    ++ [if is_EOF (recv_err st) then done_chunk else error_chunk (recv_err st)].

Lemma sends_openai_loop st :
  sends (openai_loop (recv_responses st) (recv_err st)) = openai_chunks st.
Proof.
  unfold openai_chunks. destruct st as [responses err]. simpl.
  induction responses as [|choices rest IH]; simpl.
  - by destruct (is_EOF err).
  - destruct choices as [|content ?]; simpl; [done|]. by rewrite IH.
Qed.

Lemma sent_prefix sched p :
  select_free p = true ∨ Cancel ∉ sched →
  sent (run sched (start p)) `prefix_of` sends p.
Proof.
  intros Hq. exists (pending (run sched (start p))).
  pose proof (run_transcript sched (start p)) as Ht.
  unfold transcript in Ht. unfold sent. rewrite <- app_assoc, Ht; [done|].
  destruct Hq as [?|?]; [by left|by right].
Qed.

(** X1. At every moment of every run of groq, together and samba (any
    interleaving, cancelled or not), the chunks received so far followed
    by those waiting in the channel are an initial segment of the
    transport's chunks: nothing is reordered, repeated or skipped. *)
Theorem hosted_chunks_in_transport_order (st : openai_stream) (sched : list event) :
  sent (run sched (start (GroqProvider_goroutine st))) `prefix_of` openai_chunks st
  ∧ sent (run sched (start (TogetherProvider_goroutine st))) `prefix_of` openai_chunks st
  ∧ sent (run sched (start (SambaProvider_goroutine st))) `prefix_of` openai_chunks st.
Proof.
  assert (sent (run sched (start (openai_loop (recv_responses st) (recv_err st))))
            `prefix_of` openai_chunks st) as H.
  { rewrite <- sends_openai_loop. apply sent_prefix. left.
    apply openai_loop_select_free. }
  done.
Qed.






(** *** The ollama goroutine under cancellation *)

Section ollama_cancelled.
Variable ctxErr : string.
Variable c : ollama_chat.

Definition ollama_error_chunk (e : string) : StreamChunk :=
  {| ChunkContent := ""; Done := true;
     Error := Some ("ollama streaming error: " +:+ e) |}.

(** Where the goroutine is after [n] responses have been forwarded:
    still inside Chat, after a failed Chat and before the final send, or
    about to return (or returned), with or without the error chunk. *)
Definition ollama_inv (s : state) : Prop :=
  ∃ n,
    (prog s = Some (ollama_Chat ctxErr (drop n (chat_responses c)) (chat_err c))
     ∧ sent s = take n (response_chunk <$> chat_responses c))
    ∨ (∃ e, prog s = Some (ollama_after_Chat (Some e))
            ∧ sent s = take n (response_chunk <$> chat_responses c))
    ∨ ((prog s = Some Close ∨ prog s = None)
       ∧ (sent s = take n (response_chunk <$> chat_responses c)
          ∨ ∃ e, sent s = take n (response_chunk <$> chat_responses c)
                          ++ [ollama_error_chunk e])).

Lemma sent_do_send ch k s : sent (do_send ch k s) = sent s ++ [ch].
Proof. unfold sent. simpl. by rewrite app_assoc. Qed.

Lemma sent_do_goto k s : sent (do_goto k s) = sent s.
Proof. reflexivity. Qed.

Lemma sent_do_close s : sent (do_close s) = sent s.
Proof. reflexivity. Qed.

Lemma ollama_inv_after_Chat n err s :
  prog s = Some (ollama_after_Chat err) →
  sent s = take n (response_chunk <$> chat_responses c) →
  ollama_inv s.
Proof.
  intros Hp Hs. exists n. destruct err as [e|]; simpl in Hp.
  - right. left. by exists e.
  - right. right. split; [by left|by left].
Qed.

Lemma ollama_inv_producer b s s' :
  ollama_inv s → producer_step b s = Some s' → ollama_inv s'.
Proof.
  intros (n & [[Hp Hs]|[(e & Hp & Hs)|[Hp Hs]]]) Hstep.
  - destruct (drop n (chat_responses c)) as [|r rest] eqn:Hd; simpl in Hp.
    + (* Chat has returned: the goroutine is at what follows it *)
      assert (ollama_inv s) as Hinv by (by apply (ollama_inv_after_Chat n (chat_err c))).
      clear Hinv. destruct (chat_err c) as [e|]; simpl in Hp.
      * unfold producer_step in Hstep. rewrite Hp in Hstep.
        destruct (has_room s), (cancelled s), b; try discriminate Hstep;
          injection Hstep as <-; exists n; right; right;
          (split; [by left|]); rewrite ?sent_do_send, ?sent_do_goto, ?sent_do_close, ?Hs;
          first [ by left | right; exists e; reflexivity ].
      * unfold producer_step in Hstep. rewrite Hp in Hstep.
        injection Hstep as <-. exists n. right. right.
        rewrite sent_do_close. split; [by right|by left].
    + assert (chat_responses c !! n = Some r) as Hl.
      { rewrite <- (Nat.add_0_r n), <- lookup_drop, Hd. done. }
      assert (drop (S n) (chat_responses c) = rest) as Hd'.
      { rewrite (drop_S _ r n Hl) in Hd. by injection Hd. }
      assert (take (S n) (response_chunk <$> chat_responses c)
              = take n (response_chunk <$> chat_responses c) ++ [response_chunk r])
        as Ht.
      { apply take_S_r. by rewrite list_lookup_fmap, Hl. }
      unfold producer_step in Hstep. rewrite Hp in Hstep.
      destruct (has_room s), (cancelled s), b; try discriminate Hstep;
        injection Hstep as <-.
      all: first
        [ (exists (S n); left; split; [by rewrite Hd'|];
           by rewrite sent_do_send, Hs, Ht)
        | (exists n; right; left; exists ctxErr; by rewrite sent_do_goto) ].
  - unfold producer_step in Hstep. rewrite Hp in Hstep. simpl in Hstep.
    destruct (has_room s), (cancelled s), b; try discriminate Hstep;
      injection Hstep as <-; exists n; right; right;
      (split; [by left|]); rewrite ?sent_do_send, ?sent_do_goto, ?sent_do_close, ?Hs;
      first [ by left | right; exists e; reflexivity ].
  - unfold producer_step in Hstep. destruct Hp as [Hp|Hp]; rewrite Hp in Hstep;
      [|done]. injection Hstep as <-. exists n. right. right.
    rewrite sent_do_close. split; [by right|done].
Qed.

Lemma ollama_inv_run sched s : ollama_inv s → ollama_inv (run sched s).
Proof.
  revert s. induction sched as [|e sched IH]; intros s Hinv; [done|].
  rewrite run_cons. apply IH. unfold apply_event.
  destruct (step e s) as [s'|] eqn:Hstep; [|done].
  destruct e as [b| |]; simpl in Hstep.
  - by eapply ollama_inv_producer.
  - unfold consumer_step in Hstep. destruct (buf s) as [|ch rest] eqn:Hb; [done|].
    injection Hstep as <-.
    assert (sent {| prog := prog s; buf := rest; closed := closed s;
                    cancelled := cancelled s; delivered := delivered s ++ [ch] |}
            = sent s) as Hsent
      by (unfold sent; simpl; by rewrite Hb, <- app_assoc).
    destruct Hinv as (n & H). exists n. by rewrite Hsent.
  - injection Hstep as <-. done.
Qed.

(** X5. Under every interleaving, cancelled or not, what the ollama
    goroutine has sent is an initial segment of the backend's responses,
    each forwarded with its own done flag, followed by at most one error
    chunk: cancellation can cut the stream short, but it never reorders,
    repeats or alters a chunk. *)
Theorem ollama_sends_prefix_then_error (sched : list event) :
  ∃ n tail,
    sent (run sched (start (OllamaProvider_goroutine ctxErr c)))
    = take n (response_chunk <$> chat_responses c) ++ tail
    ∧ (tail = [] ∨ ∃ e, tail = [ollama_error_chunk e]).
Proof.
  destruct (ollama_inv_run sched (start (OllamaProvider_goroutine ctxErr c)))
    as (n & H).
  { exists 0%nat. left. split; [by rewrite drop_0|done]. }
  exists n.
  destruct H as [[_ Hs]|[(e & _ & Hs)|[_ [Hs|(e & Hs)]]]].
  - exists []. rewrite app_nil_r. split; [done|by left].
  - exists []. rewrite app_nil_r. split; [done|by left].
  - exists []. rewrite app_nil_r. split; [done|by left].
  - exists [ollama_error_chunk e]. split; [done|]. right. by exists e.
Qed.

End ollama_cancelled.

End StreamingExtra.

(** ** More on the registry *)

Module registryExtra.
Import Models Providers registry.

Section Registry.
Context {P : Type} `{Provider P}.

(** [ProviderInfo] and [GetAll]; [r.metadata[name]] is the zero Metadata
    when the key is missing. *)
Record ProviderInfo := {
  InfoProvider : P;
  InfoMetadata : Metadata;
  InfoAvailable : bool
}.

Definition zero_Metadata : Metadata :=
  {| MdName := ""; DisplayName := ""; Description := ""; RequiresAPI := false;
     DefaultURL := ""; EnvVarKey := ""; EnvVarModel := "" |}.

Definition GetAll (r : Registry P) : Registry P * gmap string ProviderInfo :=
  (r, map_imap (λ name provider,
                  Some {| InfoProvider := provider;
                          InfoMetadata := default zero_Metadata (metadata r !! name);
                          InfoAvailable := IsAvailable provider |})
               (providers r)).

(** X6. Registering a provider under a name that is free succeeds;
    afterwards Get returns that provider, GetMetadata its metadata, List
    contains the name, and every other name is looked up as before. *)
Theorem Register_then_lookup (provider : P) (md : Metadata) (r : Registry P) :
  providers r !! Name provider = None →
  (Register provider md r).2 = None
  ∧ (Get (Name provider) (Register provider md r).1).2 = inl provider
  ∧ (GetMetadata (Name provider) (Register provider md r).1).2 = inl md
  ∧ Name provider ∈ (List (Register provider md r).1).2
  ∧ ∀ name, name ≠ Name provider →
      (Get name (Register provider md r).1).2 = (Get name r).2
      ∧ (GetMetadata name (Register provider md r).1).2 = (GetMetadata name r).2.
Proof.
  intros Hfree. unfold Register. rewrite Hfree. simpl.
  split; [done|]. split.
  { unfold Get. simpl. by rewrite lookup_insert_eq. }
  split.
  { unfold GetMetadata. simpl. by rewrite lookup_insert_eq. }
  split.
  { unfold List. simpl. rewrite Sort.Strings_elem, elem_of_names.
    rewrite lookup_insert_eq. by eexists. }
  intros name Hne. unfold Get, GetMetadata. simpl.
  rewrite !lookup_insert_ne by done.
  split; [by destruct (providers r !! name)|by destruct (metadata r !! name)].
Qed.

(** What every registry built from [New] by calls satisfies. *)
Definition consistent (r : Registry P) : Prop :=
  (∀ name, is_Some (providers r !! name) ↔ is_Some (metadata r !! name))
  ∧ (∀ name provider, providers r !! name = Some provider → Name provider = name).

Lemma after_consistent c r : consistent r → consistent (after c r).
Proof.
  intros [Hdom Hname]. destruct c as [q md|n|n| |]; simpl; try done.
  - unfold Register. destruct (providers r !! Name q) eqn:Hq; simpl; [done|].
    split.
    + intros name. simpl. destruct (decide (name = Name q)) as [->|Hne].
      * rewrite !lookup_insert_eq. split; by eexists.
      * rewrite !lookup_insert_ne by done. apply Hdom.
    + intros name provider. simpl. destruct (decide (name = Name q)) as [->|Hne].
      * rewrite lookup_insert_eq. by intros [= ->].
      * rewrite lookup_insert_ne by done. apply Hname.
  - unfold Get. by destruct (providers r !! n).
  - unfold GetMetadata. by destruct (metadata r !! n).
Qed.

Lemma after_all_consistent cs r : consistent r → consistent (after_all cs r).
Proof.
  revert r. induction cs as [|c cs IH]; intros r Hr; [done|].
  simpl. apply IH. by apply after_consistent.
Qed.

(** X7. In a registry built from New by any sequence of calls, every
    provider is stored under its own Name(), a name has a provider
    exactly when it has metadata (so Get and GetMetadata fail together),
    and GetAll lists exactly the registered names, each with its
    provider, its registered metadata and its availability. *)
Theorem registry_stays_consistent (cs : list call) (name : string) :
  let r := after_all cs (@New P) in
  (∀ provider, providers r !! name = Some provider → Name provider = name)
  ∧ ((∃ e, (Get name r).2 = inr e) ↔ (∃ e, (GetMetadata name r).2 = inr e))
  ∧ (GetAll r).2 !! name
    = (λ provider, {| InfoProvider := provider;
                      InfoMetadata := default zero_Metadata (metadata r !! name);
                      InfoAvailable := IsAvailable provider |}) <$> providers r !! name
  ∧ (is_Some ((GetAll r).2 !! name) ↔ name ∈ (List r).2)
  ∧ (∀ info, (GetAll r).2 !! name = Some info →
             (GetMetadata name r).2 = inl (InfoMetadata info)).
Proof.
  intros r. destruct (after_all_consistent cs (@New P)) as [Hdom Hname].
  { split; [|done]. intros n. simpl. rewrite !lookup_empty. done. }
  fold r in Hdom, Hname.
  assert ((GetAll r).2 !! name
          = (λ provider, {| InfoProvider := provider;
                            InfoMetadata := default zero_Metadata (metadata r !! name);
                            InfoAvailable := IsAvailable provider |})
              <$> providers r !! name) as Hall.
  { unfold GetAll. simpl. rewrite map_lookup_imap.
    by destruct (providers r !! name). }
  split; [apply Hname|]. split.
  { specialize (Hdom name). unfold Get, GetMetadata.
    destruct (providers r !! name) as [p|], (metadata r !! name) as [m|]; simpl;
      split; intros [e He]; try done; try by eexists.
    - exfalso. destruct Hdom as [Hd _]. by destruct Hd as [? ?].
    - exfalso. destruct Hdom as [_ Hd]. by destruct Hd as [? ?]. }
  split; [exact Hall|]. split.
  { rewrite Hall. unfold List. simpl. rewrite Sort.Strings_elem, elem_of_names.
    rewrite fmap_is_Some. done. }
  intros info. rewrite Hall. specialize (Hdom name). unfold GetMetadata.
  destruct (providers r !! name) as [p|] eqn:Hp; simpl; [|done].
  intros [= <-]. simpl. destruct Hdom as [[m Hm] _]; [by eexists|].
  by rewrite Hm.
Qed.

(** X8. The names may be collected from the map in any order: sorting
    gives the list List() returns. *)
Theorem List_any_iteration_order (r : Registry P) (names : list string) :
  names ≡ₚ (map_to_list (providers r)).*1 →
  Sort.Strings names = (List r).2.
Proof. intros Hp. unfold List. simpl. by apply Sort.Strings_order_irrelevant. Qed.

End Registry.

End registryExtra.

Module registryExtraWitness.
Import Models Providers Requests registry registryExtra Catalogue.

Lemma Register_then_lookup_witness :
  (Register (a_groq false) GetGroqMetadata
     (Register (a_samba true) GetSambaMetadata New).1).2 = None
  ∧ (Get "groq" reg2).2 = inl (a_groq false)
  ∧ (GetMetadata "groq" reg2).2 = inl GetGroqMetadata.
Proof.
  pose proof (Register_then_lookup (a_groq false) GetGroqMetadata
                (Register (a_samba true) GetSambaMetadata New).1) as Hx.
  destruct Hx as (H1 & H2 & H3 & _).
  - vm_compute. reflexivity.
  - split; [exact H1|]. split; [exact H2|exact H3].
Defined.

Lemma List_any_iteration_order_witness :
  Sort.Strings ["samba"; "groq"] = (List reg2).2.
Proof.
  apply (List_any_iteration_order reg2 ["samba"; "groq"]).
  vm_compute. apply perm_swap.
Defined.

End registryExtraWitness.

(** ** internal/history: the Manager *)

From Stdlib Require DecimalString.

Module historyExtra.
Import Models GoStrings GoStringsFacts history.

(** [fmt.Sprintf("%d", n)] *)
Definition Sprintf_d (n : Z) : string :=
  DecimalString.NilZero.string_of_int (Z.to_int n).

(** The zero [time.Time] (January 1, year 1, UTC) in seconds, and
    [t.IsZero()]; [t.Unix()] is [t] itself. *)
Definition zero_Time : Time := -62135596800.

Definition IsZero (t : Time) : bool := bool_decide (t = zero_Time).

(** The Manager and the history file: [disk] is [None] while there is no
    file, and otherwise the conversations last written to it. *)
Record Manager := {
  historyPath : string;
  conversations : list Conversation
}.

Definition disk := option (list Conversation).

(** [Save]: [write_err] is what [os.WriteFile] returns. *)
Definition Save (write_err : option string) (m : Manager) (d : disk)
  : disk * option string :=
  match write_err with
  | None => (Some (conversations m), None)
  | Some e => (d, Some e)
  end.

Definition AddConversation (conv : Conversation) (now : Time)
  (write_err : option string) (m : Manager) (d : disk)
  : Manager * disk * option string :=
  let conv :=
    if decide (ID conv = "") then
      {| ID := "conv_" +:+ Sprintf_d now; Provider := Provider conv;
         Model := Model conv; Messages := Messages conv;
         StartTime := StartTime conv; EndTime := EndTime conv;
         TokensUsed := TokensUsed conv; Summary := Summary conv |}
    else conv in
  let conv :=
    if IsZero (EndTime conv) then
      {| ID := ID conv; Provider := Provider conv;
         Model := Model conv; Messages := Messages conv;
         StartTime := StartTime conv; EndTime := now;
         TokensUsed := TokensUsed conv; Summary := Summary conv |}
    else conv in
  let m' := {| historyPath := historyPath m;
               conversations := conversations m ++ [conv] |} in
  let '(d', err) := Save write_err m' d in
  (m', d', err).

Definition GetAll (m : Manager) : list Conversation := conversations m.

Definition GetRecent (n : Z) (m : Manager) : list Conversation :=
  if (n <=? 0) || (Z.of_nat (length (conversations m)) <? n) then conversations m
  else
    let start := Z.of_nat (length (conversations m)) - n in
    drop (Z.to_nat start) (conversations m).

Definition Clear (write_err : option string) (m : Manager) (d : disk)
  : Manager * disk * option string :=
  let m' := {| historyPath := historyPath m; conversations := [] |} in
  let '(d', err) := Save write_err m' d in
  (m', d', err).

Section Search.
Variable ToLower : string → string.

(** The inner loop: does some message contain the query? *)
Definition mentions (query : string) (conv : Conversation) : bool :=
  existsb (λ msg, Contains (ToLower (Content msg)) query) (Messages conv).

Definition Search (query : string) (m : Manager) : list Conversation :=
  let query := ToLower query in
  foldl (λ results conv, if mentions query conv then results ++ [conv] else results)
        [] (conversations m).

Lemma Search_filter query m :
  Search query m
  = filter (λ conv, mentions (ToLower query) conv = true) (conversations m).
Proof.
  unfold Search.
  assert (∀ acc l,
            foldl (λ results conv,
                     if mentions (ToLower query) conv then results ++ [conv]
                     else results) acc l
            = acc ++ filter (λ conv, mentions (ToLower query) conv = true) l) as H.
  { intros acc l. revert acc. induction l as [|conv l IH]; intros acc; simpl.
    - by rewrite app_nil_r.
    - rewrite IH. destruct (mentions (ToLower query) conv) eqn:Hm.
      + rewrite filter_cons_True by done. by rewrite <- app_assoc.
      + rewrite filter_cons_False by congruence. done. }
  by rewrite H.
Qed.

(** X10. Search keeps the conversations in their stored order and
    returns exactly those with a message whose lower-cased content
    contains the lower-cased query; a conversation without messages is
    never returned, whatever the query. *)
Theorem Search_finds_exactly (query : string) (m : Manager) :
  Search query m `sublist_of` conversations m
  ∧ (∀ conv, conv ∈ Search query m ↔
       conv ∈ conversations m
       ∧ ∃ msg, msg ∈ Messages conv
                ∧ Contains (ToLower (Content msg)) (ToLower query) = true)
  ∧ (∀ conv, Messages conv = [] → conv ∉ Search query m).
Proof.
  rewrite Search_filter.
  assert (∀ conv, mentions (ToLower query) conv = true ↔
            ∃ msg, msg ∈ Messages conv
                   ∧ Contains (ToLower (Content msg)) (ToLower query) = true) as Hm.
  { intros conv. unfold mentions. rewrite existsb_exists.
    split; intros (msg & Hin & Hc); exists msg; split; try done;
      by apply list_elem_of_In. }
  split; [apply sublist_filter|]. split.
  - intros conv. rewrite list_elem_of_filter, Hm. tauto.
  - intros conv Hnil. rewrite list_elem_of_filter, Hm.
    intros [(msg & Hin & _) _]. rewrite Hnil in Hin. by apply elem_of_nil in Hin.
Qed.

End Search.

(** X9. GetRecent returns a final segment of the stored conversations: the
    last [n] of them when [n] is between 1 and their number, and all of
    them otherwise (also for zero and negative [n]). *)
Theorem GetRecent_suffix (n : Z) (m : Manager) :
  GetRecent n m `suffix_of` conversations m
  ∧ Z.of_nat (length (GetRecent n m))
    = (if decide (1 ≤ n ≤ Z.of_nat (length (conversations m))) then n
       else Z.of_nat (length (conversations m))).
Proof.
  unfold GetRecent.
  destruct ((n <=? 0) || (Z.of_nat (length (conversations m)) <? n)) eqn:Hc.
  - split; [done|]. case_decide; [|done].
    apply orb_prop in Hc as [Hc|Hc]; [apply Z.leb_le in Hc|apply Z.ltb_lt in Hc]; lia.
  - apply orb_false_elim in Hc as [H1 H2].
    apply Z.leb_gt in H1. apply Z.ltb_ge in H2.
    split; [apply suffix_drop|]. rewrite length_drop. case_decide; lia.
Qed.


(** [GetStats]: the values of the returned map. *)
Inductive stat :=
| StatInt (n : Z)
| StatCounts (counts : gmap string Z)
| StatTime (t : Time).

(** [count[key]++] on a [map[string]int] *)
Definition increment (key : string) (count : gmap string Z) : gmap string Z :=
  <[key := default 0 (count !! key) + 1]> count.

Definition GetStats (m : Manager) : gmap string stat :=
  let '(totalMessages, providerCount, modelCount) :=
    foldl (λ '(totalMessages, providerCount, modelCount) conv,
             (totalMessages + Z.of_nat (length (Messages conv)),
              increment (Provider conv) providerCount,
              increment (Model conv) modelCount))
          (0, ∅, ∅) (conversations m) in
  let stats : gmap string stat := ∅ in
  let stats := <["total_conversations" := StatInt (Z.of_nat (length (conversations m)))]> stats in
  let stats := <["total_messages" := StatInt totalMessages]> stats in
  let stats := <["providers" := StatCounts providerCount]> stats in
  let stats := <["models" := StatCounts modelCount]> stats in
  match conversations m with
  | [] => stats
  | oldest :: _ =>
      let stats := <["oldest" := StatTime (StartTime oldest)]> stats in
      match last (conversations m) with
      | Some newest => <["newest" := StatTime (EndTime newest)]> stats
      | None => stats
      end
  end.

Definition counts (keys : list string) : gmap string Z :=
  foldl (λ count key, increment key count) ∅ keys.

Definition occurrences (key : string) (keys : list string) : Z :=
  Z.of_nat (length (filter (λ k, k = key) keys)).

Lemma foldl_increment (keys : list string) (acc : gmap string Z) (key : string) :
  default 0 (foldl (λ count key, increment key count) acc keys !! key)
  = default 0 (acc !! key) + occurrences key keys
  ∧ (is_Some (foldl (λ count key, increment key count) acc keys !! key)
     ↔ is_Some (acc !! key) ∨ key ∈ keys).
Proof.
  revert acc. induction keys as [|k keys IH]; intros acc; simpl.
  - unfold occurrences. simpl. split; [lia|]. rewrite elem_of_nil. tauto.
  - destruct (IH (increment k acc)) as [-> ->]. unfold increment, occurrences.
    rewrite elem_of_cons. destruct (decide (k = key)) as [->|Hne].
    + rewrite lookup_insert_eq, filter_cons_True by done. simpl. split; [lia|].
      split; [intros _|intros _; left; by eexists]. right. by left.
    + rewrite lookup_insert_ne, filter_cons_False by done. split; [lia|].
      split; [intros [?|?]; [by left|right; by right]|].
      intros [?|[?|?]]; [by left|congruence|by right].
Qed.

Lemma GetStats_fold (convs : list Conversation) (t : Z) (pc mc : gmap string Z) :
  foldl (λ '(totalMessages, providerCount, modelCount) conv,
           (totalMessages + Z.of_nat (length (Messages conv)),
            increment (Provider conv) providerCount,
            increment (Model conv) modelCount))
        (t, pc, mc) convs
  = (t + foldr (λ conv n, Z.of_nat (length (Messages conv)) + n) 0 convs,
     foldl (λ count key, increment key count) pc (Provider <$> convs),
     foldl (λ count key, increment key count) mc (Model <$> convs)).
Proof.
  revert t pc mc. induction convs as [|conv convs IH]; intros t pc mc; simpl.
  - f_equal. f_equal. lia.
  - rewrite IH. f_equal. f_equal. lia.
Qed.

(** X13. GetStats reports the number of conversations, the total number
    of their messages, and for every provider (and every model) the
    number of conversations stored under it; a provider that occurs in no
    conversation has no entry, and the oldest/newest entries are present
    exactly when there is a conversation. *)
Theorem GetStats_counts (m : Manager) :
  GetStats m !! "total_conversations"
  = Some (StatInt (Z.of_nat (length (conversations m))))
  ∧ GetStats m !! "total_messages"
    = Some (StatInt (foldr (λ conv n, Z.of_nat (length (Messages conv)) + n) 0
                           (conversations m)))
  ∧ (∃ providerCount modelCount,
       GetStats m !! "providers" = Some (StatCounts providerCount)
       ∧ GetStats m !! "models" = Some (StatCounts modelCount)
       ∧ ∀ key,
           default 0 (providerCount !! key)
           = occurrences key (Provider <$> conversations m)
           ∧ (is_Some (providerCount !! key) ↔ key ∈ Provider <$> conversations m)
           ∧ default 0 (modelCount !! key)
             = occurrences key (Model <$> conversations m)
           ∧ (is_Some (modelCount !! key) ↔ key ∈ Model <$> conversations m))
  ∧ (is_Some (GetStats m !! "oldest") ↔ conversations m ≠ [])
  ∧ (is_Some (GetStats m !! "newest") ↔ conversations m ≠ []).
Proof.
  unfold GetStats. rewrite GetStats_fold.
  set (pc := foldl _ ∅ (Provider <$> conversations m)).
  set (mc := foldl _ ∅ (Model <$> conversations m)).
  assert (∀ key,
            default 0 (pc !! key) = occurrences key (Provider <$> conversations m)
            ∧ (is_Some (pc !! key) ↔ key ∈ Provider <$> conversations m)
            ∧ default 0 (mc !! key) = occurrences key (Model <$> conversations m)
            ∧ (is_Some (mc !! key) ↔ key ∈ Model <$> conversations m)) as Hcounts.
  { intros key. subst pc mc.
    destruct (foldl_increment (Provider <$> conversations m) ∅ key) as [-> ->].
    destruct (foldl_increment (Model <$> conversations m) ∅ key) as [-> ->].
    rewrite !lookup_empty. simpl. repeat split; try lia;
      try (intros [[? ?]|?]; done); try (intros ?; by right). }
  destruct (conversations m) as [|oldest rest] eqn:Hconvs.
  - cbv zeta. split; [done|]. split; [done|]. split.
    { exists pc, mc. split; [done|]. split; [done|]. exact Hcounts. }
    split; (split; [by intros [? ?]|done]).
  - cbv zeta. destruct (last (oldest :: rest)) as [newest|] eqn:Hlast.
    2:{ by apply last_None in Hlast. }
    split; [done|]. split; [done|]. split.
    { exists pc, mc. split; [done|]. split; [done|]. exact Hcounts. }
    split; (split; [done|intros _; by eexists]).
Qed.

(** *** Export *)

Section ExportFile.
Variable Format : Time → string → string.
Variable Duration_String : Z → string.
(** [json.MarshalIndent(conv, "", "  ")], [os.TempDir()] and
    [filepath.Join]. *)
Variable MarshalIndent : Conversation → string + string.
Variable TempDir : string.
Variable Join : string → string → string.

(** [Export] returns the path or the error, and the file it wrote, if
    any, as (path, content); [write_err] is what [os.WriteFile] returns. *)
Definition Export (convID format : string) (write_err : option string) (m : Manager)
  : (string + string) * option (string * string) :=
  match find (λ conv, bool_decide (ID conv = convID)) (conversations m) with
  | None => (inr ("conversation not found: " +:+ convID), None)
  | Some conv =>
      let rendered : (string * string) + string :=
        if decide (format = "markdown") then
          inl (exportMarkdown Format Duration_String conv, ".md")
        else if decide (format = "json") then
          match MarshalIndent conv with
          | inl data => inl (data, ".json")
          | inr err => inr err
          end
        else if decide (format = "txt") then
          inl (exportText Format conv, ".txt")
        else inr ("unsupported format: " +:+ format) in
      match rendered with
      | inr err => (inr err, None)
      | inl (content, extension) =>
          let filename := "conversation_" +:+ ID conv +:+ extension in
          let filePath := Join TempDir filename in
          match write_err with
          | Some e => (inr ("failed to write export: " +:+ e), None)
          | None => (inl filePath, Some (filePath, content))
          end
      end
  end.

Lemma find_first (convID : string) (pre post : list Conversation) (conv : Conversation) :
  Forall (λ c, ID c ≠ convID) pre → ID conv = convID →
  find (λ conv, bool_decide (ID conv = convID)) (pre ++ conv :: post) = Some conv.
Proof.
  intros Hpre Hid. induction Hpre as [|c pre Hc _ IH]; simpl.
  - by rewrite bool_decide_true.
  - by rewrite bool_decide_false.
Qed.

Lemma find_none (convID : string) (convs : list Conversation) :
  Forall (λ c, ID c ≠ convID) convs →
  find (λ conv, bool_decide (ID conv = convID)) convs = None.
Proof.
  induction 1 as [|c convs Hc _ IH]; simpl; [done|].
  by rewrite bool_decide_false.
Qed.

(** X12. Export looks the conversation up before it looks at the format:
    an ID that no stored conversation has gives the not-found error for
    every format, and a format other than markdown, json and txt gives
    an error; in both cases no file is written.  When several stored
    conversations have the ID, the first one is exported: on a successful
    write the file conversation_<ID>.md (.txt) in the temporary
    directory holds its markdown (plain-text) export. *)
Theorem Export_lookup_then_format (convID format : string)
  (write_err : option string) (m : Manager) :
  (Forall (λ c, ID c ≠ convID) (conversations m) →
   Export convID format write_err m
   = (inr ("conversation not found: " +:+ convID), None))
  ∧ (format ≠ "markdown" → format ≠ "json" → format ≠ "txt" →
     (Export convID format write_err m).2 = None
     ∧ ∃ err, (Export convID format write_err m).1 = inr err)
  ∧ (∀ pre conv post,
       conversations m = pre ++ conv :: post →
       Forall (λ c, ID c ≠ convID) pre → ID conv = convID →
       Export convID "markdown" None m
       = (inl (Join TempDir ("conversation_" +:+ convID +:+ ".md")),
          Some (Join TempDir ("conversation_" +:+ convID +:+ ".md"),
                exportMarkdown Format Duration_String conv))
       ∧ Export convID "txt" None m
         = (inl (Join TempDir ("conversation_" +:+ convID +:+ ".txt")),
            Some (Join TempDir ("conversation_" +:+ convID +:+ ".txt"),
                  exportText Format conv))).
Proof.
  split; [|split].
  - intros Hnone. unfold Export. by rewrite find_none.
  - intros Hm Hj Ht. unfold Export.
    destruct (find _ (conversations m)); simpl; [|by eauto].
    rewrite !decide_False by done. simpl. eauto.
  - intros pre conv post Hconvs Hpre Hid. unfold Export.
    rewrite Hconvs, (find_first convID pre post conv Hpre Hid). simpl.
    by rewrite Hid.
Qed.

End ExportFile.

End historyExtra.

(** ** internal/providers: construction, model lists, blocking sends *)

Module ProvidersExtra.
Import Models Providers ProvidersFacts Requests.

(** The process environment; [os.Getenv] returns the empty string for a
    variable that is not set. *)
Definition environ := gmap string string.

Definition Getenv (key : string) (env : environ) : string := default "" (env !! key).

(** [config.GetEnv] *)
Definition GetEnv (key fallback : string) (env : environ) : string :=
  let value := Getenv key env in
  if decide (value ≠ "") then value else fallback.

Definition NewGroqProvider (env : environ) : GroqProvider :=
  let apiKey := GetEnv "GROQ_API_KEY" "" env in
  let model := GetEnv "GROQ_MODEL" "llama-70b" env in
  let model := match groqModels !! model with Some fullModel => fullModel | None => model end in
  {| groq_model := model; groq_isAvailable := bool_decide (apiKey ≠ "") |}.

Definition NewTogetherProvider (env : environ) : TogetherProvider :=
  let apiKey := GetEnv "TOGETHER_API_KEY" "" env in
  let model := GetEnv "TOGETHER_MODEL" "llama-70b" env in
  let model :=
    match togetherModels !! model with Some fullModel => fullModel | None => model end in
  {| together_model := model; together_isAvailable := bool_decide (apiKey ≠ "") |}.

Definition NewSambaProvider (env : environ) : SambaProvider :=
  let apiKey := GetEnv "SAMBA_API_KEY" "" env in
  let model := GetEnv "SAMBA_MODEL" "llama-70b" env in
  let model := match sambaModels !! model with Some fullModel => fullModel | None => model end in
  {| samba_model := model; samba_isAvailable := bool_decide (apiKey ≠ "") |}.

(** [client_ok] tells whether [genai.NewClient] succeeded. *)
Definition NewGeminiProvider (client_ok : bool) (env : environ) : GeminiProvider :=
  let apiKey := GetEnv "GEMINI_API_KEY" "" env in
  let modelKey := GetEnv "GEMINI_MODEL" "flash-lite" env in
  let modelName := default "" (geminiModels !! modelKey) in
  let modelName :=
    if decide (modelName = "") then default "" (geminiModels !! "flash-lite")
    else modelName in
  let isAvailable := bool_decide (apiKey ≠ "") in
  if isAvailable then
    if client_ok then
      {| gemini_client := true;
         gemini_model := Some (modelName, float32_of 0x1.6666666666666p-1%float);
         gemini_modelName := modelName; gemini_isAvailable := true |}
    else
      {| gemini_client := false; gemini_model := None;
         gemini_modelName := modelName; gemini_isAvailable := false |}
  else
    {| gemini_client := false; gemini_model := None;
       gemini_modelName := modelName; gemini_isAvailable := false |}.

(** [Models()]: the keys of the alias table, in the order of the map
    iteration. *)
Definition Models (h : Hosted) : list string := (map_to_list (aliases h)).*1.

Definition DefaultModel (h : Hosted) : string := current_model h.

(** The configuration NewSession, NewShellMode and switchModel hand to
    Initialize. *)
Definition config_for (model : string) (temperature : float64) (maxTokens : Z) : Config :=
  {| APIKey := ""; BaseURL := ""; Model := model; CfgTemperature := temperature;
     CfgMaxTokens := maxTokens; Timeout := 0 |}.

(** No full identifier of a table is itself an alias of that table. *)
Definition values_are_not_keys (tbl : gmap string string) : bool :=
  forallb (λ kv, bool_decide (tbl !! kv.2 = None)) (map_to_list tbl).

Lemma values_are_not_keys_spec tbl k v :
  values_are_not_keys tbl = true → tbl !! k = Some v → tbl !! v = None.
Proof.
  unfold values_are_not_keys. rewrite forallb_forall. intros Hall Hk.
  specialize (Hall (k, v)). simpl in Hall.
  apply bool_decide_eq_true in Hall; [done|].
  apply list_elem_of_In. by apply elem_of_map_to_list.
Qed.

Lemma resolved_twice tbl m :
  values_are_not_keys tbl = true →
  let model := match tbl !! m with Some full => full | None => m end in
  resolved_model tbl model model = model.
Proof.
  intros Hv. simpl. unfold resolved_model. case_decide; [done|].
  destruct (tbl !! m) as [full|] eqn:Hm.
  - by rewrite (values_are_not_keys_spec tbl m full Hv Hm).
  - by rewrite Hm.
Qed.


(** X15. Every name that Models() lists is an alias of the provider's
    table, each listed once, and Initialize with it (as switchModel does)
    sets the provider's model to the alias's full identifier, which is
    then what DefaultModel() reports. *)
Theorem listed_models_resolve (h : Hosted) (temperature : float64) (maxTokens : Z) :
  NoDup (Models h)
  ∧ ∀ alias, alias ∈ Models h →
      ∃ full, aliases h !! alias = Some full
              ∧ (Initialize (config_for alias temperature maxTokens) h).2 = None
              ∧ DefaultModel (Initialize (config_for alias temperature maxTokens) h).1
                = full.
Proof.
  unfold Models. split; [apply NoDup_fst_map_to_list|].
  intros alias Hin. apply list_elem_of_fmap in Hin as [[k full] [-> Hin]].
  apply elem_of_map_to_list in Hin. simpl. exists full.
  split; [done|]. split; [apply Initialize_no_error|].
  unfold DefaultModel. rewrite Initialize_model. unfold resolved_model. simpl.
  case_decide as He.
  - exfalso. subst k. clear -Hin.
    destruct h; simpl in Hin; vm_compute in Hin; discriminate Hin.
  - by rewrite Hin.
Qed.

End ProvidersExtra.

(** ** internal/providers: the local provider and the blocking calls *)

Module ProvidersCalls.
Import Models Providers Requests GoStrings.

(** *** ollama *)

(** [checkAvailability]: [probe] tells whether [p.client.List] succeeded. *)
Definition checkAvailability (probe : bool) (p : OllamaProvider) : OllamaProvider :=
  {| ollama_config := ollama_config p; ollama_baseURL := ollama_baseURL p;
     ollama_model := ollama_model p; ollama_isAvailable := probe |}.

Definition OllamaProvider_Initialize (cfg : Config) (probe : bool) (p : OllamaProvider)
  : OllamaProvider * option string :=
  let p := {| ollama_config := cfg; ollama_baseURL := ollama_baseURL p;
              ollama_model := ollama_model p;
              ollama_isAvailable := ollama_isAvailable p |} in
  let p :=
    if decide (Model cfg ≠ "") then
      {| ollama_config := ollama_config p; ollama_baseURL := ollama_baseURL p;
         ollama_model := Model cfg; ollama_isAvailable := ollama_isAvailable p |}
    else p in
  let p :=
    if decide (BaseURL cfg ≠ "") then
      {| ollama_config := ollama_config p; ollama_baseURL := BaseURL cfg;
         ollama_model := ollama_model p; ollama_isAvailable := ollama_isAvailable p |}
    else p in
  let p := checkAvailability probe p in
  if negb (ollama_isAvailable p)
  then (p, Some ("ollama is not available at " +:+ ollama_baseURL p))
  else (p, None).

(** [Models()]: [listing] is the result of [p.client.List], the model
    names or an error. *)
Definition OllamaProvider_Models (listing : list string + string) (p : OllamaProvider)
  : list string :=
  match listing with
  | inr _ => [ollama_model p]
  | inl names => names
  end.

(** X16. Initialize of the local provider returns an error exactly when
    the probe of the backend fails, which is exactly when the provider
    reports itself unavailable afterwards.  The configuration, the model
    (when cfg.Model is not empty) and the base URL (when cfg.BaseURL is
    not empty) are taken over whether or not the probe succeeds, and the
    error names the base URL then in force.  When listing the models
    fails, Models() is the one configured model. *)
Theorem ollama_Initialize_probes (cfg : Config) (probe : bool) (p : OllamaProvider)
  (e : string) :
  let p' := (OllamaProvider_Initialize cfg probe p).1 in
  ollama_isAvailable p' = probe
  ∧ (OllamaProvider_Initialize cfg probe p).2
    = (if probe then None
       else Some ("ollama is not available at " +:+ ollama_baseURL p'))
  ∧ ollama_config p' = cfg
  ∧ ollama_model p' = (if decide (Model cfg = "") then ollama_model p else Model cfg)
  ∧ ollama_baseURL p'
    = (if decide (BaseURL cfg = "") then ollama_baseURL p else BaseURL cfg)
  ∧ OllamaProvider_Models (inr e) p' = [ollama_model p'].
Proof.
  unfold OllamaProvider_Initialize. cbv zeta.
  destruct probe; simpl; repeat case_decide; simpl; done.
Qed.

(** *** SendMessage *)

Record ChatResponse := {
  RespContent : string;
  FinishReason : string;
  TokensUsed : Z;
  ResponseTime : Z;
  ProviderName : string;
  ModelName : string
}.

(** [openai.ChatCompletionResponse]: the choices, each with the content
    of its message and its finish reason, and the token usage. *)
Record ChatCompletionResponse := {
  Choices : list (string * string);
  TotalTokens : Z
}.

(** The result of [CreateChatCompletion] is a response or an error;
    [elapsed] is [time.Since(start)]. *)
Definition GroqProvider_SendMessage (g : GroqProvider)
  (result : ChatCompletionResponse + string) (elapsed : Z) : ChatResponse + string :=
  match result with
  | inr err => inr ("groq API error: " +:+ err)
  | inl resp =>
      match Choices resp with
      | [] => inr "no response from groq"
      | (content, finish) :: _ =>
          inl {| RespContent := content; FinishReason := finish;
                 TokensUsed := TotalTokens resp; ResponseTime := elapsed;
                 ProviderName := "groq"; ModelName := groq_model g |}
      end
  end.

Definition TogetherProvider_SendMessage (t : TogetherProvider)
  (result : ChatCompletionResponse + string) (elapsed : Z) : ChatResponse + string :=
  match result with
  | inr err => inr ("together API error: " +:+ err)
  | inl resp =>
      match Choices resp with
      | [] => inr "no response from together"
      | (content, finish) :: _ =>
          inl {| RespContent := content; FinishReason := finish;
                 TokensUsed := TotalTokens resp; ResponseTime := elapsed;
                 ProviderName := "together"; ModelName := together_model t |}
      end
  end.

Definition SambaProvider_SendMessage (s : SambaProvider)
  (result : ChatCompletionResponse + string) (elapsed : Z) : ChatResponse + string :=
  match result with
  | inr err => inr ("samba API error: " +:+ err)
  | inl resp =>
      match Choices resp with
      | [] => inr "no response from samba"
      | (content, finish) :: _ =>
          inl {| RespContent := content; FinishReason := finish;
                 TokensUsed := TotalTokens resp; ResponseTime := elapsed;
                 ProviderName := "samba"; ModelName := samba_model s |}
      end
  end.

(** The local provider: Chat calls the callback on every response, and
    the callback keeps the content of the last one. *)
Definition OllamaProvider_SendMessage (p : OllamaProvider)
  (responses : list string) (chat_err : option string) (elapsed : Z)
  : ChatResponse + string :=
  let fullResponse := foldl (λ _ content, content) "" responses in
  match chat_err with
  | Some err => inr ("ollama chat error: " +:+ err)
  | None =>
      inl {| RespContent := fullResponse; FinishReason := "stop"; TokensUsed := 0;
             ResponseTime := elapsed; ProviderName := "ollama";
             ModelName := ollama_model p |}
  end.

Definition succeeded (r : ChatResponse + string) : Prop := ∃ resp, r = inl resp.


End ProvidersCalls.

(** ** internal/providers: what gemini is sent *)

Module GeminiCalls.
Import Models GoStrings chat.

#[global] Instance Role_eq_dec : EqDecision Role.
Proof. solve_decision. Defined.

(** [genai.Content] with its one text part. *)
Record genai_Content := {
  gc_Role : string;
  gc_Text : string
}.

Definition gemini_content (msg : Message) : genai_Content :=
  {| gc_Role := match Role_ msg with RoleAssistant => "model" | _ => "user" end;
     gc_Text := Content msg |}.

(** [SendMessage]: the parts handed to [GenerateContent]. *)
Definition GeminiProvider_SendMessage_parts (req : ChatRequest) : list string :=
  foldl (λ parts msg,
           match Role_ msg with
           | RoleUser => parts ++ [Content msg]
           | _ => parts
           end) [] (Messages req).

(** [StreamMessage]: the history given to the chat and the text sent.
    The loop for the last user message runs from the end of the
    messages. *)
Definition lastMessage (msgs : list Message) : string :=
  match find (λ msg, match Role_ msg with RoleUser => true | _ => false end)
             (reverse msgs) with
  | Some msg => Content msg
  | None => ""
  end.

Definition GeminiProvider_StreamMessage_call (req : ChatRequest)
  : list genai_Content * string :=
  let messages := gemini_content <$> Messages req in
  let History :=
    if (1 <? length messages)%nat then take (length messages - 1) messages else [] in
  (History, lastMessage (Messages req)).

(** X18. For the request processMessage builds (the conversation with
    the new user message at its end), gemini's StreamMessage sends the
    new input as the message and the whole previous conversation as the
    history, assistant messages under the role model and all others,
    system messages included, under the role user.  Without any user
    message the text sent is empty.  SendMessage hands over the contents
    of the user messages only, in order. *)
Theorem gemini_is_sent (input : string) (clk : clock) (s : Session) (req : ChatRequest) :
  GeminiProvider_StreamMessage_call (request_of input clk s)
  = (gemini_content <$> messages s, input)
  ∧ (Forall (λ msg, Role_ msg ≠ RoleUser) (Messages req) →
     (GeminiProvider_StreamMessage_call req).2 = "")
  ∧ GeminiProvider_SendMessage_parts req
    = Content <$> filter (λ msg, Role_ msg = RoleUser) (Messages req).
Proof.
  split; [|split].
  - unfold GeminiProvider_StreamMessage_call, request_of, lastMessage. simpl.
    rewrite reverse_snoc. simpl. f_equal.
    rewrite fmap_app, length_app. simpl.
    destruct (messages s) as [|m ms] eqn:Hm; [done|].
    replace (1 <? length (gemini_content <$> m :: ms) + 1)%nat with true
      by (symmetry; apply Nat.ltb_lt; simpl; lia).
    replace (length (gemini_content <$> m :: ms) + 1 - 1)%nat
      with (length (gemini_content <$> m :: ms)) by lia.
    by rewrite take_app_length.
  - intros Hall. unfold GeminiProvider_StreamMessage_call, lastMessage. simpl.
    apply Forall_reverse in Hall.
    induction Hall as [|msg l Hmsg _ IH]; simpl; [done|].
    destruct (Role_ msg); done.
  - unfold GeminiProvider_SendMessage_parts.
    assert (∀ acc l,
              foldl (λ parts msg,
                       match Role_ msg with
                       | RoleUser => parts ++ [Content msg]
                       | _ => parts
                       end) acc l
              = acc ++ (Content <$> filter (λ msg, Role_ msg = RoleUser) l)) as H.
    { intros acc l. revert acc. induction l as [|msg l IH]; intros acc; simpl.
      - by rewrite app_nil_r.
      - rewrite IH. destruct (Role_ msg) eqn:Hr.
        + by rewrite filter_cons_False by congruence.
        + rewrite filter_cons_True by done. simpl. by rewrite <- app_assoc.
        + by rewrite filter_cons_False by congruence. }
    by rewrite H.
Qed.

Lemma gemini_is_sent_witness :
  (GeminiProvider_StreamMessage_call
     {| Messages := [ {| Role_ := RoleSystem; Content := "Be brief"; Timestamp := 0 |} ];
        Temperature := 0.5%float; MaxTokens := 10; Stream := true |}).2 = "".
Proof.
  apply (proj1 (proj2 (gemini_is_sent "" {| now_user := 0; now_start := 0;
                                            now_end := 0; now_assistant := 0 |}
                         chatWitness.session0 _))).
  repeat constructor. done.
Defined.

End GeminiCalls.

(** ** internal/chat: completed turns, failed calls, the shell mode *)

Module chatExtra.
Import Models GoStrings GoStringsFacts chat.

Section turns.
Variable Fields : string → list string.
Variable StreamMessage : ChatRequest → StreamMessage_result.

Definition all_content (chunks : list StreamChunk) : string :=
  foldr (λ chunk text, ChunkContent chunk +:+ text) "" chunks.

Definition all_tokens (chunks : list StreamChunk) : Z :=
  foldr (λ chunk n, Z.of_nat (length (Fields (ChunkContent chunk))) + n) 0 chunks.

Lemma relay_all chunks fullResponse tokenCount term :
  Forall (λ c, Error c = None) chunks →
  relay Fields chunks fullResponse tokenCount term
  = inl (fullResponse +:+ all_content chunks, tokenCount + all_tokens chunks,
         term ++ (Print ∘ ChunkContent <$> chunks)).
Proof.
  intros Hall. revert fullResponse tokenCount term. unfold all_content, all_tokens.
  induction Hall as [|c chunks Hc _ IH]; intros fullResponse tokenCount term; simpl.
  - by rewrite append_nil_r, app_nil_r, Z.add_0_r.
  - rewrite Hc, IH. by rewrite append_assoc, <- app_assoc, Z.add_assoc.
Qed.

Definition user_message (input : string) (clk : clock) : Message :=
  {| Role_ := RoleUser; Content := input; Timestamp := now_user clk |}.

(** X19. When the stream of a turn delivers only chunks without error,
    processMessage returns no error; the conversation gains the user
    message and then one assistant message whose content is the
    concatenation of the contents of all chunks, in order; every content
    was printed, in order, after the assistant prefix.  The request of
    the next turn then carries the whole conversation so far followed by
    the new user message. *)
Theorem completed_turn (input next : string) (clk clk' : clock) (s : Session)
  (chunks : list StreamChunk) :
  StreamMessage (request_of input clk s) = inl chunks →
  Forall (λ c, Error c = None) chunks →
  let s' := (processMessage Fields StreamMessage input clk s).1 in
  (processMessage Fields StreamMessage input clk s).2 = None
  ∧ messages s'
    = messages s ++ [user_message input clk;
                     {| Role_ := RoleAssistant; Content := all_content chunks;
                        Timestamp := now_assistant clk |}]
  ∧ (∃ closing,
       terminal s'
       = terminal s ++ [PrintAssistantPrefix (currentModel s)]
           ++ (Print ∘ ChunkContent <$> chunks) ++ [closing])
  ∧ Messages (request_of next clk' s')
    = messages s ++ [user_message input clk;
                     {| Role_ := RoleAssistant; Content := all_content chunks;
                        Timestamp := now_assistant clk |};
                     user_message next clk'].
Proof.
  intros Hstream Hall. cbv zeta.
  unfold processMessage. fold (request_of input clk s). rewrite Hstream.
  rewrite (relay_all chunks "" 0 _ Hall). simpl.
  split; [done|]. split; [by rewrite <- app_assoc|]. split.
  - eexists. rewrite <- !app_assoc. simpl. reflexivity.
  - by rewrite <- !app_assoc.
Qed.

(** X20. When StreamMessage itself returns an error, processMessage
    returns it wrapped; nothing but the assistant prefix has been
    printed, and the user message has been appended all the same, so the
    request of the next turn carries the failed turn's input followed by
    the new one. *)
Theorem failed_call_keeps_user_message (input next : string) (clk clk' : clock)
  (s : Session) (err : string) :
  StreamMessage (request_of input clk s) = inr err →
  let s' := (processMessage Fields StreamMessage input clk s).1 in
  (processMessage Fields StreamMessage input clk s).2
  = Some ("failed to stream message: " +:+ err)
  ∧ terminal s' = terminal s ++ [PrintAssistantPrefix (currentModel s)]
  ∧ messages s' = messages s ++ [user_message input clk]
  ∧ Messages (request_of next clk' s')
    = messages s ++ [user_message input clk; user_message next clk'].
Proof.
  intros Hstream. cbv zeta.
  unfold processMessage. fold (request_of input clk s). rewrite Hstream. simpl.
  repeat split. by rewrite <- app_assoc.
Qed.

End turns.

(** *** ShellMode.Execute *)

Section Execute.
Variable Fields : string → list string.
Variable StreamMessage : ChatRequest → StreamMessage_result.

Definition LF : string := String (ascii_of_nat 10) EmptyString.
Definition FENCE : string := "```".

(** [Execute] returns its error; besides, what it wrote to standard
    output and the requests it made of the provider. *)
Definition Execute (prompt stdinContent : string) (clk : clock) (cfg : Config)
  : option string * list output * list ChatRequest :=
  let fullPrompt :=
    if decide (stdinContent ≠ "")
    then prompt +:+ LF +:+ LF +:+ FENCE +:+ LF +:+ stdinContent +:+ LF +:+ FENCE
    else prompt in
  if decide (fullPrompt = "") then (Some "no input provided", [], [])
  else
    let message :=
      {| Role_ := RoleUser; Content := fullPrompt; Timestamp := now_user clk |} in
    let req :=
      {| Messages := [message]; Temperature := CfgTemperature cfg;
         MaxTokens := CfgMaxTokens cfg; Stream := true |} in
    match StreamMessage req with
    | inr err => (Some ("failed to stream message: " +:+ err), [], [req])
    | inl streamChan =>
        match relay Fields streamChan "" 0 [] with
        | inr (err, out) => (Some err, out, [req])
        | inl (fullResponse, tokenCount, out) =>
            (None,
             out ++ [Println]
                 ++ (if Verbose cfg
                     then [PrintMetrics (now_end clk - now_start clk) tokenCount]
                     else []),
             [req])
        end
    end.

Definition with_OutputFormat (format : string) (cfg : Config) : Config :=
  {| Verbose := Verbose cfg; NoHistory := NoHistory cfg;
     CfgTemperature := CfgTemperature cfg; CfgMaxTokens := CfgMaxTokens cfg;
     OutputFormat := format; EnableAssessment := EnableAssessment cfg |}.

(** X21. Without a prompt and without piped input Execute fails with
    the no-input error and never calls the provider.  Otherwise it makes
    exactly one request, of a single user message; with piped input the
    message is the prompt, an empty line and the input between two code
    fences, so it contains both the prompt and the input verbatim;
    without piped input it is the prompt.  What Execute prints does not
    depend on the configured output format. *)
Theorem Execute_request (prompt stdinContent : string) (clk : clock) (cfg : Config)
  (format : string) :
  (prompt = "" → stdinContent = "" →
   Execute prompt stdinContent clk cfg = (Some "no input provided", [], []))
  ∧ (stdinContent ≠ "" →
     ∃ req content,
       (Execute prompt stdinContent clk cfg).2 = [req]
       ∧ Messages req = [{| Role_ := RoleUser; Content := content;
                            Timestamp := now_user clk |}]
       ∧ content
         = prompt +:+ LF +:+ LF +:+ FENCE +:+ LF +:+ stdinContent +:+ LF +:+ FENCE
       ∧ Contains content prompt = true
       ∧ Contains content (FENCE +:+ LF +:+ stdinContent +:+ LF +:+ FENCE) = true)
  ∧ (prompt ≠ "" → stdinContent = "" →
     ∃ req,
       (Execute prompt stdinContent clk cfg).2 = [req]
       ∧ Messages req = [{| Role_ := RoleUser; Content := prompt;
                            Timestamp := now_user clk |}])
  ∧ Execute prompt stdinContent clk (with_OutputFormat format cfg)
    = Execute prompt stdinContent clk cfg.
Proof.
  split; [|split; [|split]].
  - intros -> ->. reflexivity.
  - intros Hin. unfold Execute.
    destruct (decide (stdinContent ≠ "")) as [_|Hn]; [|by destruct Hn].
    destruct (decide (_ = "")) as [He|_].
    { exfalso. revert He. destruct prompt; unfold LF;
        rewrite ?append_nil_l, append_cons; done. }
    eexists _, _. split.
    { destruct (StreamMessage _) as [chunks|err]; [|reflexivity].
      destruct (relay _ _ _ _ _) as [[[? ?] ?]|[? ?]]; reflexivity. }
    split; [reflexivity|]. split; [reflexivity|]. split.
    + apply (Contains_middle "" prompt).
    + do 3 apply Contains_after.
      pose proof (Contains_here (FENCE +:+ LF +:+ stdinContent +:+ LF +:+ FENCE) "")
        as Hself.
      by rewrite append_nil_r in Hself.
  - intros Hp ->. unfold Execute.
    destruct (decide ("" ≠ "")) as [Hn|_]; [done|].
    destruct (decide (prompt = "")) as [He|_]; [done|].
    eexists. split.
    { destruct (StreamMessage _) as [chunks|err]; [|reflexivity].
      destruct (relay _ _ _ _ _) as [[[? ?] ?]|[? ?]]; reflexivity. }
    reflexivity.
  - reflexivity.
Qed.

End Execute.

End chatExtra.

(** ** internal/chat: starting a session, switching models, saving *)

Module sessionExtra.
Import Models GoStrings chat registry historyExtra.

Section sessions.
Context {P : Type} `{Provider P}.
(** The rest of the [providers.Provider] interface that the session
    code calls.  The registry holds pointers: what Initialize changes in
    the provider is changed in the registry's entry as well. *)
Variable DefaultModel : P → string.
Variable Models : P → list string.
Variable Initialize : Providers.Config → P → P * option string.

Definition providerCfg (model : string) (cfg : Config) : Providers.Config :=
  {| Providers.APIKey := ""; Providers.BaseURL := ""; Providers.Model := model;
     Providers.CfgTemperature := CfgTemperature cfg;
     Providers.CfgMaxTokens := CfgMaxTokens cfg; Providers.Timeout := 0 |}.

Definition store (name : string) (provider : P) (reg : Registry P) : Registry P :=
  {| providers := <[name := provider]> (providers reg); metadata := metadata reg |}.

(** [NewSession]; [historyMgr] is the result of [history.NewManager()]. *)
Definition NewSession (reg : Registry P) (cfg : Config) (providerName : string)
  (historyMgr : Manager + string)
  : Registry P * ((Session * P * Manager) + string) :=
  match (Get providerName reg).2 with
  | inr err => (reg, inr ("failed to get provider: " +:+ err))
  | inl provider =>
      if negb (IsAvailable provider) then
        (reg, inr ("provider " +:+ providerName +:+ " is not available"))
      else
        match Initialize (providerCfg (DefaultModel provider) cfg) provider with
        | (provider, Some err) =>
            (store providerName provider reg,
             inr ("failed to initialize provider: " +:+ err))
        | (provider, None) =>
            match historyMgr with
            | inr err =>
                (store providerName provider reg,
                 inr ("failed to initialize history: " +:+ err))
            | inl mgr =>
                (store providerName provider reg,
                 inl ({| config := cfg; messages := [];
                         currentModel := DefaultModel provider; terminal := [] |},
                      provider, mgr))
            end
        end
  end.

(** [NewShellMode] *)
Definition NewShellMode (reg : Registry P) (cfg : Config) (providerName : string)
  : Registry P * ((P * Config) + string) :=
  match (Get providerName reg).2 with
  | inr err => (reg, inr ("failed to get provider: " +:+ err))
  | inl provider =>
      if negb (IsAvailable provider) then
        (reg, inr ("provider " +:+ providerName +:+ " is not available"))
      else
        match Initialize (providerCfg (DefaultModel provider) cfg) provider with
        | (provider, Some err) =>
            (store providerName provider reg,
             inr ("failed to initialize provider: " +:+ err))
        | (provider, None) => (store providerName provider reg, inl (provider, cfg))
        end
  end.

(** X22. NewSession and NewShellMode refuse a provider that is not
    registered or not available, without initializing it and leaving the
    registry as it is.  When they succeed the provider was available, it
    has been initialized with its own default model and the configured
    temperature and token budget, and a new session has no messages and
    shows the initialized provider's default model. *)
Theorem sessions_need_available_provider (reg : Registry P) (cfg : Config)
  (providerName : string) (historyMgr : Manager + string) :
  (providers reg !! providerName = None →
   NewSession reg cfg providerName historyMgr
   = (reg, inr ("failed to get provider: " +:+ not_found providerName))
   ∧ NewShellMode reg cfg providerName
     = (reg, inr ("failed to get provider: " +:+ not_found providerName)))
  ∧ (∀ provider, providers reg !! providerName = Some provider →
       IsAvailable provider = false →
       NewSession reg cfg providerName historyMgr
       = (reg, inr ("provider " +:+ providerName +:+ " is not available"))
       ∧ NewShellMode reg cfg providerName
         = (reg, inr ("provider " +:+ providerName +:+ " is not available")))
  ∧ (∀ s provider mgr,
       (NewSession reg cfg providerName historyMgr).2 = inl (s, provider, mgr) →
       ∃ registered,
         providers reg !! providerName = Some registered
         ∧ IsAvailable registered = true
         ∧ Initialize (providerCfg (DefaultModel registered) cfg) registered
           = (provider, None)
         ∧ providers (NewSession reg cfg providerName historyMgr).1 !! providerName
           = Some provider
         ∧ messages s = [] ∧ currentModel s = DefaultModel provider ∧ config s = cfg
         ∧ historyMgr = inl mgr).
Proof.
  unfold NewSession, NewShellMode, Get. split; [|split].
  - intros Hnone. by rewrite Hnone.
  - intros provider Hp Hav. rewrite Hp. simpl. by rewrite Hav.
  - intros s provider mgr. destruct (providers reg !! providerName) as [registered|];
      simpl; [|done].
    destruct (IsAvailable registered) eqn:Hav; simpl; [|done].
    destruct (Initialize _ registered) as [p' [err|]] eqn:Hinit; simpl; [done|].
    destruct historyMgr as [m|err]; simpl; [|done].
    intros [= <- <- <-]. exists registered.
    repeat split; try done. by rewrite lookup_insert_eq.
Qed.

(** *** switchModel

    [choice] is what [fmt.Sscanf(input, "%d", &choice)] read, [None]
    when it failed.  The outcome is the message the function ends with. *)
Inductive switched :=
| OnlyOneModel
| InvalidInput
| Cancelled
| InvalidModelNumber
| FailedToSwitch (err : string)
| SwitchedTo (model : string).

Definition switchModel (choice : option Z) (s : Session) (provider : P)
  : switched * Session * P :=
  let models := Models provider in
  if (Z.of_nat (length models) <=? 1) then (OnlyOneModel, s, provider)
  else
    match choice with
    | None => (InvalidInput, s, provider)
    | Some choice =>
        if choice =? 0 then (Cancelled, s, provider)
        else if (choice <? 1) || (Z.of_nat (length models) <? choice)
        then (InvalidModelNumber, s, provider)
        else
          match models !! Z.to_nat (choice - 1) with
          | None => (InvalidModelNumber, s, provider)
          | Some newModel =>
              match Initialize (providerCfg newModel (config s)) provider with
              | (provider, Some err) => (FailedToSwitch err, s, provider)
              | (provider, None) =>
                  (SwitchedTo newModel,
                   {| config := config s; messages := messages s;
                      currentModel := newModel; terminal := terminal s |},
                   provider)
              end
          end
    end.


(** *** Saving the conversation when the session ends *)

(** [saveConversation]; [name] is [s.provider.Name()], and the three
    readings of the clock are the one for the ID, the one for the end
    time and the one AddConversation makes.  The warning printed on a
    failed save is the returned string. *)
Definition saveConversation (name : string) (conversationStart : Time)
  (now_id now_end now_add : Time) (write_err : option string)
  (s : Session) (m : Manager) (d : disk) : Manager * disk * option string :=
  match messages s with
  | [] => (m, d, None)
  | _ :: _ =>
      let conv :=
        {| history.ID := "conv_" +:+ Sprintf_d now_id; history.Provider := name;
           history.Model := currentModel s; history.Messages := messages s;
           history.StartTime := conversationStart; history.EndTime := now_end;
           history.TokensUsed := 0; history.Summary := "" |} in
      match AddConversation conv now_add write_err m d with
      | (m', d', Some err) =>
          (m', d', Some ("Warning: Failed to save conversation: " +:+ err))
      | (m', d', None) => (m', d', None)
      end
  end.

(** The end of [Start]. *)
Definition Start_finish (name : string) (conversationStart : Time)
  (now_id now_end now_add : Time) (write_err : option string)
  (s : Session) (m : Manager) (d : disk) : Manager * disk * option string :=
  if negb (NoHistory (config s)) && (0 <? Z.of_nat (length (messages s)))
  then saveConversation name conversationStart now_id now_end now_add write_err s m d
  else (m, d, None).


End sessions.

End sessionExtra.

Module chatExtraWitness.
Import Models GoStrings Streaming chat chatExtra chatWitness.

(** A provider that answers every request with two chunks and the final
    chunk, and one whose call fails. *)
Definition steady_provider (req : ChatRequest) : StreamMessage_result :=
  inl [content_chunk "Hi "; content_chunk "there"; done_chunk].

Definition down (req : ChatRequest) : StreamMessage_result :=
  inr "connection refused".

Lemma completed_turn_witness :
  let s' := (processMessage Fields_ascii steady_provider "Hello" clk0 session0).1 in
  (processMessage Fields_ascii steady_provider "Hello" clk0 session0).2 = None
  ∧ messages s'
    = messages session0
        ++ [user_message "Hello" clk0;
            {| Role_ := RoleAssistant;
               Content := all_content
                            [content_chunk "Hi "; content_chunk "there"; done_chunk];
               Timestamp := now_assistant clk0 |}]
  ∧ (∃ closing,
       terminal s'
       = terminal session0 ++ [PrintAssistantPrefix (currentModel session0)]
           ++ (Print ∘ ChunkContent
                 <$> [content_chunk "Hi "; content_chunk "there"; done_chunk])
           ++ [closing])
  ∧ Messages (request_of "Again" clk1 s')
    = messages session0
        ++ [user_message "Hello" clk0;
            {| Role_ := RoleAssistant;
               Content := all_content
                            [content_chunk "Hi "; content_chunk "there"; done_chunk];
               Timestamp := now_assistant clk0 |};
            user_message "Again" clk1].
Proof.
  apply (completed_turn Fields_ascii steady_provider "Hello" "Again" clk0 clk1
           session0 [content_chunk "Hi "; content_chunk "there"; done_chunk]).
  - reflexivity.
  - repeat constructor.
Defined.

Lemma failed_call_keeps_user_message_witness :
  let s' := (processMessage Fields_ascii down "Hello" clk0 session0).1 in
  (processMessage Fields_ascii down "Hello" clk0 session0).2
  = Some ("failed to stream message: " +:+ "connection refused")
  ∧ terminal s' = terminal session0 ++ [PrintAssistantPrefix (currentModel session0)]
  ∧ messages s' = messages session0 ++ [user_message "Hello" clk0]
  ∧ Messages (request_of "Again" clk1 s')
    = messages session0 ++ [user_message "Hello" clk0; user_message "Again" clk1].
Proof.
  apply (failed_call_keeps_user_message Fields_ascii down "Hello" "Again" clk0 clk1
           session0 "connection refused").
  reflexivity.
Defined.

End chatExtraWitness.

(** ** internal/assessment: issues and recommendations *)

Module assessmentExtra.
Import GoStrings assessment.

Definition low (c : Criterion) : Prop := Score c < 4.

#[global] Instance low_dec c : Decision (low c).
Proof. unfold low. apply _. Defined.

(** The two recommendations added below an overall score of 60. *)
Definition general : list string :=
  ["Consider using prompt engineering best practices";
   "Break down complex requests into smaller parts"].

Lemma issues_fold criteria a b i :
  (foldl (λ '(totalScore, maxScore, totalIssues) criterion,
            (totalScore + Score criterion, maxScore + MaxScore criterion,
             if Score criterion <? 4 then totalIssues + 1 else totalIssues))
         (a, b, i) criteria).2
  = i + Z.of_nat (length (filter low criteria)).
Proof.
  revert a b i. induction criteria as [|c cs IH]; intros a b i; simpl; [lia|].
  rewrite IH. rewrite filter_cons. unfold low at 2.
  destruct (Z.ltb_spec (Score c) 4); case_decide; simpl; lia.
Qed.

Lemma recommendations_fold criteria acc :
  foldl (λ recommendations criterion,
           if (Score criterion <? 4)
              && (0 <? Z.of_nat (length (Suggestions criterion)))
           then recommendations ++ Suggestions criterion
           else recommendations)
        acc criteria
  = acc ++ concat (Suggestions <$> filter low criteria).
Proof.
  revert acc. induction criteria as [|c cs IH]; intros acc; simpl.
  - by rewrite app_nil_r.
  - rewrite IH, filter_cons. unfold low at 2.
    destruct (Z.ltb_spec (Score c) 4); case_decide; try lia; simpl; [|done].
    destruct (Suggestions c) as [|x xs]; simpl; [done|].
    by rewrite <- app_assoc.
Qed.

Lemma generateRecommendations_eq criteria overallScore :
  generateRecommendations criteria overallScore
  = concat (Suggestions <$> filter low criteria)
      ++ (if overallScore <? 60 then general else []).
Proof.
  unfold generateRecommendations. cbv zeta. rewrite recommendations_fold. simpl.
  destruct (overallScore <? 60); [done|by rewrite app_nil_r].
Qed.

Section Analyzer.
Variable ToLower : string → string.
Variable Fields : string → list string.

Definition advised (c : Criterion) : Prop := low c → Suggestions c ≠ [].

Ltac advised_branches :=
  repeat match goal with
         | |- context [ if ?b then _ else _ ] => destruct b
         | |- context [ let '(_, _) := ?p in _ ] => destruct p
         end;
  unfold advised, low; simpl; first [done | lia].

Lemma criteria_of_advised prompt : Forall advised (criteria_of ToLower Fields prompt).
Proof.
  unfold criteria_of.
  repeat apply Forall_cons_2; [..|apply Forall_nil_2].
  - unfold checkClarity. cbv zeta. advised_branches.
  - unfold checkRelevance. cbv zeta. advised_branches.
  - unfold checkSpecificity. cbv zeta. advised_branches.
  - unfold checkContext. cbv zeta. advised_branches.
  - unfold checkStructure. cbv zeta. advised_branches.
  - unfold checkConstraints. cbv zeta. advised_branches.
  - unfold checkOutputFormat. cbv zeta. advised_branches.
  - unfold checkRole. cbv zeta. advised_branches.
  - unfold checkExamples. cbv zeta. advised_branches.
Qed.

Lemma Analyze_fields prompt :
  TotalIssues (Analyze ToLower Fields prompt)
  = Z.of_nat (length (filter low (criteria_of ToLower Fields prompt)))
  ∧ Recommendations (Analyze ToLower Fields prompt)
    = generateRecommendations (criteria_of ToLower Fields prompt)
        (OverallScore (Analyze ToLower Fields prompt))
  ∧ OverallRating (Analyze ToLower Fields prompt)
    = getRating (OverallScore (Analyze ToLower Fields prompt)).
Proof.
  pose proof (issues_fold (criteria_of ToLower Fields prompt) 0 0 0) as Hi.
  unfold Analyze, criteria_of in *. cbv zeta. cbn [app].
  unfold totals. destruct (foldl _ _ _) as [[t m] i]. simpl in *.
  split; [lia|]. done.
Qed.

(** X25. In every assessment TotalIssues is the number of criteria
    scored below 4, so between 0 and 9.  Every criterion scored below 4
    comes with at least one suggestion, and the recommendations are
    exactly the suggestions of those criteria, in the order of the
    criteria, followed by the two general recommendations when the
    overall score is below 60.  So there is no recommendation exactly
    when the overall score is at least 60 and no criterion is below 4. *)
Theorem Analyze_recommendations (text : string) :
  let a := Analyze ToLower Fields text in
  TotalIssues a = Z.of_nat (length (filter low (Criteria a)))
  ∧ 0 ≤ TotalIssues a ≤ 9
  ∧ Forall (λ c, low c → Suggestions c ≠ []) (Criteria a)
  ∧ Recommendations a
    = concat (Suggestions <$> filter low (Criteria a))
        ++ (if OverallScore a <? 60 then general else [])
  ∧ (Recommendations a = [] ↔ 60 ≤ OverallScore a ∧ TotalIssues a = 0).
Proof.
  cbv zeta. rewrite Analyze_Criteria.
  destruct (Analyze_fields text) as (Hi & Hr & _).
  rewrite Hr, Hi, generateRecommendations_eq.
  pose proof (criteria_of_advised text) as Hadv.
  pose proof (length_filter low (criteria_of ToLower Fields text)) as Hlen.
  change (length (criteria_of ToLower Fields text)) with 9%nat in Hlen.
  split; [done|]. split; [lia|]. split; [exact Hadv|]. split; [done|].
  assert (concat (Suggestions <$> filter low (criteria_of ToLower Fields text)) = []
          ↔ filter low (criteria_of ToLower Fields text) = []) as Hc.
  { split; [|by intros ->].
    destruct (filter low _) as [|c cs] eqn:Hf; [done|].
    assert (c ∈ filter low (criteria_of ToLower Fields text)) as Hin
      by (rewrite Hf; left).
    apply list_elem_of_filter in Hin as [Hlow Hin].
    rewrite Forall_forall in Hadv. specialize (Hadv c Hin Hlow).
    simpl. destruct (Suggestions c); done. }
  split.
  - intros Hnil. apply app_eq_nil in Hnil as [Hs Hg].
    apply Hc in Hs. rewrite Hs. split; [|done].
    destruct (Z.ltb_spec (OverallScore (Analyze ToLower Fields text)) 60);
      [discriminate Hg|lia].
  - intros [Hge Hz].
    destruct (filter low _) as [|c cs]; [|simpl length in Hz; lia].
    change (concat (Suggestions <$> [])) with (@nil string). rewrite app_nil_l.
    destruct (Z.ltb_spec (OverallScore (Analyze ToLower Fields text)) 60); [lia|done].
Qed.

End Analyzer.

End assessmentExtra.

(** ** internal/chat: reading the input of a turn *)

Module StartExtra.
Import GoStrings GoStringsFacts.

(** [strings.Join(elems, sep)] *)
Fixpoint Join (elems : list string) (sep : string) : string :=
  match elems with
  | [] => ""
  | [elem] => elem
  | elem :: rest => elem +:+ sep +:+ Join rest sep
  end.

Definition LF : string := String (ascii_of_nat 10) EmptyString.

Section Start.
(** [strings.TrimSpace] consults Go's Unicode tables. *)
Variable TrimSpace : string → string.

(** The inner loop of [Start]: [lines] is what the scanner still has to
    deliver, a failed [Scan] being the end of the list.  Returns the lines
    collected and the lines not read. *)
Fixpoint collect (lines : list string) (inputLines : list string) (emptyLineCount : Z)
  : list string * list string :=
  match lines with
  | [] => (inputLines, [])
  | line :: rest =>
      if decide (TrimSpace line = "") then
        let emptyLineCount := emptyLineCount + 1 in
        if 2 <=? emptyLineCount then (inputLines, rest)
        else collect rest (inputLines ++ [""]) emptyLineCount
      else collect rest (inputLines ++ [line]) 0
  end.

(** One iteration of the outer loop, up to the point where the input is
    handed on. *)
Inductive read :=
| EndOfInput
| Again (rest : list string)
| Command (cmd : string) (rest : list string)
| Submit (input : string) (rest : list string).

Definition Start_read (lines : list string) : read :=
  match lines with
  | [] => EndOfInput
  | firstLine :: rest =>
      let trimmedFirst := TrimSpace firstLine in
      if HasPrefix trimmedFirst "/" then
        if decide (trimmedFirst = "") then Again rest
        else Command trimmedFirst rest
      else if decide (trimmedFirst = "") then Again rest
      else
        let '(inputLines, rest) := collect rest [firstLine] 0 in
        let input := TrimSpace (Join inputLines LF) in
        if decide (input = "") then Again rest else Submit input rest
  end.

Definition blank (line : string) : Prop := TrimSpace line = "".

(** What the loop keeps of a line. *)
Definition kept_line (line : string) : string :=
  if decide (blank line) then "" else line.

(** No two blank lines in a row, [prev] telling whether the line before
    the list was blank. *)
Fixpoint no_double (prev : bool) (lines : list string) : bool :=
  match lines with
  | [] => true
  | line :: rest =>
      negb (prev && bool_decide (blank line)) && no_double (bool_decide (blank line)) rest
  end.

Definition ends_blank (prev : Prop) (lines : list string) : Prop :=
  from_option blank prev (last lines).

Lemma collect_spec (lines acc : list string) (c : Z) :
  0 ≤ c →
  ∃ kept,
    (collect lines acc c).1 = acc ++ (kept_line <$> kept)
    ∧ no_double (bool_decide (1 ≤ c)) kept = true
    ∧ (((collect lines acc c).2 = [] ∧ lines = kept)
       ∨ (∃ b, blank b ∧ ends_blank (1 ≤ c) kept
               ∧ lines = kept ++ b :: (collect lines acc c).2)).
Proof.
  revert acc c. induction lines as [|line rest IH]; intros acc c Hc.
  - exists []. simpl. rewrite app_nil_r. split; [done|]. split; [done|]. by left.
  - simpl. destruct (decide (TrimSpace line = "")) as [Hb|Hn].
    + destruct (Z.leb_spec 2 (c + 1)) as [H2|H2].
      * exists []. simpl. rewrite app_nil_r. split; [done|]. split; [done|].
        right. exists line. split; [done|]. split; [unfold ends_blank; simpl; lia|done].
      * assert (c = 0) as -> by lia.
        destruct (IH (acc ++ [""]) (0 + 1)) as (kept & Hk & Hd & Hrest); [lia|].
        exists (line :: kept). split.
        { rewrite Hk, <- app_assoc. simpl. unfold kept_line at 2.
          by rewrite decide_True. }
        split.
        { simpl.
          rewrite (bool_decide_eq_true_2 (blank line)) by done.
          by rewrite (bool_decide_eq_true_2 (1 ≤ 0 + 1)) in Hd by lia. }
        destruct Hrest as [[Hr ->]|(b & Hbb & He & Hl)]; [by left|].
        right. exists b. split; [done|]. split; [|by rewrite Hl at 1].
        unfold ends_blank in *. rewrite last_cons.
        destruct (last kept); simpl in *; done.
    + destruct (IH (acc ++ [line]) 0) as (kept & Hk & Hd & Hrest); [lia|].
      exists (line :: kept). split.
      { rewrite Hk, <- app_assoc. simpl. unfold kept_line at 2.
        by rewrite decide_False. }
      split.
      { simpl. rewrite (bool_decide_eq_false_2 (blank line)) by done.
        rewrite andb_false_r. simpl.
        by rewrite (bool_decide_eq_false_2 (1 ≤ 0)) in Hd by lia. }
      destruct Hrest as [[Hr ->]|(b & Hbb & He & Hl)]; [by left|].
      right. exists b. split; [done|]. split; [|by rewrite Hl at 1].
      unfold ends_blank in *. rewrite last_cons.
      destruct (last kept); simpl in *; [done|lia].
Qed.


End Start.

End StartExtra.

(** ** internal/config: Validate, and what a validated configuration
    sends *)

Module configExtra.
Import Models GoStrings Providers Requests chat.

Definition validFormats : gmap string bool :=
  {[ "text" := true; "json" := true; "markdown" := true; "raw" := true ]}.

(** [Validate]; a key missing from [validFormats] reads as false. *)
Definition Validate (c : Config) : option string :=
  if (CfgTemperature c <? 0)%float || (2 <? CfgTemperature c)%float
  then Some "temperature must be between 0 and 2"
  else if CfgMaxTokens c <? 1
  then Some "max tokens must be positive"
  else if negb (default false (validFormats !! OutputFormat c))
  then Some "output format must be text, json, markdown, or raw"
  else None.

Definition with_Temperature (t : float64) (c : Config) : Config :=
  {| Verbose := Verbose c; NoHistory := NoHistory c;
     CfgTemperature := t; CfgMaxTokens := CfgMaxTokens c;
     OutputFormat := OutputFormat c; EnableAssessment := EnableAssessment c |}.

Lemma validFormats_spec (format : string) :
  default false (validFormats !! format) = true
  ↔ format ∈ ["text"; "json"; "markdown"; "raw"].
Proof.
  unfold validFormats. split.
  - intros H.
    destruct (decide (format = "text")) as [->|?]; [set_solver|].
    destruct (decide (format = "json")) as [->|?]; [set_solver|].
    destruct (decide (format = "markdown")) as [->|?]; [set_solver|].
    destruct (decide (format = "raw")) as [->|?]; [set_solver|].
    rewrite !lookup_insert_ne, lookup_singleton_ne in H by done. done.
  - intros H. repeat (apply elem_of_cons in H as [->|H]; [reflexivity|]).
    by apply elem_of_nil in H.
Qed.


End configExtra.

(** ** internal/chat: exporting the running conversation *)

Module exportExtra.
Import Models GoStrings GoStringsFacts chat historyExtra.

Definition LF : string := String (ascii_of_nat 10) EmptyString.

Section exportConversation.
(** [json.MarshalIndent(s.messages, "", "  ")], and [strings.TrimSpace]
    and [strings.ToLower]. *)
Variable MarshalIndent : list Message → string.
Variable TrimSpace : string → string.
Variable ToLower : string → string.

Definition WriteString (sb s : string) : string := sb +:+ s.

(** [exportManually]: the path returned, and the file written if any
    (its name and its content).  [name] is [s.provider.Name()]. *)
Definition exportManually (format : string) (name : string) (now : Time)
  (write_err : option string) (s : Session) : string * option (string * string) :=
  let '(content, ext) :=
    if decide (format = "markdown") then
      let content := "" in
      let content :=
        WriteString content ("# Conversation with " +:+ name +:+ LF +:+ LF) in
      let content :=
        WriteString content ("**Model:** " +:+ currentModel s +:+ LF +:+ LF) in
      (foldl (λ content msg,
                let role :=
                  if decide (Role_ msg = RoleAssistant) then "Assistant" else "User" in
                WriteString content
                  ("## " +:+ role +:+ LF +:+ LF +:+ Content msg +:+ LF +:+ LF))
             content (messages s),
       ".md")
    else if decide (format = "json") then
      (WriteString "" (MarshalIndent (messages s)), ".json")
    else
      (foldl (λ content msg,
                let role :=
                  if decide (Role_ msg = RoleAssistant) then "Assistant" else "You" in
                WriteString content
                  ("[" +:+ role +:+ "]:" +:+ LF +:+ Content msg +:+ LF +:+ LF))
             "" (messages s),
       ".txt") in
  let filename := "conversation_" +:+ Sprintf_d now +:+ ext in
  let filePath := filename in
  match write_err with
  | Some _ => ("", None)
  | None => (filePath, Some (filePath, content))
  end.

(** [exportConversation]: [answer] is the line read for the format.  The
    outcome is the message printed last. *)
Inductive exported :=
| NoConversation
| ExportedTo (filePath : string)
| FailedToExport.

Definition exportConversation (answer : string) (name : string) (now : Time)
  (write_err : option string) (s : Session) : exported * option (string * string) :=
  if (Z.of_nat (length (messages s)) =? 0) then (NoConversation, None)
  else
    let format := TrimSpace (ToLower answer) in
    let format := if decide (format = "") then "markdown" else format in
    let '(filePath, file) := exportManually format name now write_err s in
    if decide (filePath ≠ "") then (ExportedTo filePath, file)
    else (FailedToExport, file).

Lemma exportManually_loop (heading : Message → string) (sep : string)
  (msgs : list Message) (sb : string) :
  ∃ body,
    foldl (λ content msg,
             WriteString content (heading msg +:+ Content msg +:+ sep))
          sb msgs = sb +:+ body
    ∧ occur_in_order (Content <$> msgs) body.
Proof.
  revert sb. induction msgs as [|msg msgs IH]; intros sb; simpl.
  - exists "". split; [by rewrite append_nil_r|constructor].
  - destruct (IH (WriteString sb (heading msg +:+ Content msg +:+ sep)))
      as (body & -> & Hbody).
    exists (heading msg +:+ Content msg +:+ sep +:+ body). split.
    + unfold WriteString. by rewrite !append_assoc.
    + constructor. by apply occur_in_order_prepend.
Qed.

Lemma foldl_pointwise {A B} (f g : A → B → A) (l : list B) (a : A) :
  (∀ a b, f a b = g a b) → foldl f a l = foldl g a l.
Proof.
  intros Hfg. revert a. induction l as [|b l IH]; intros a; simpl; [done|].
  by rewrite Hfg, IH.
Qed.

(** The extension chosen for a format. *)
Definition ext_of (format : string) : string :=
  if decide (format = "markdown") then ".md"
  else if decide (format = "json") then ".json" else ".txt".


End exportConversation.

End exportExtra.

(** ** Shell mode: the output formats *)

Module shellExtra.
Import Models GoStrings GoStringsFacts shell.

(** X29. FormatOutput returns the content unchanged for every format
    other than json and markdown (raw, text, or anything else), and the
    content under a heading for markdown, so in both cases the output
    contains the content verbatim.  For json, on content without a
    backslash and without control characters other than the line feed,
    the output reads back as the content, quotes and line feeds
    included. *)
Theorem FormatOutput_formats (format content : string) :
  (format ≠ "json" → format ≠ "markdown" → FormatOutput format content = content)
  ∧ FormatOutput "markdown" content = "# Response" +:+ LF +:+ LF +:+ content
  ∧ (format ≠ "json" → Contains (FormatOutput format content) content = true)
  ∧ (all_json_safe content = true →
     json_response (FormatOutput "json" content) = Some content).
Proof.
  split; [apply FormatOutput_default|]. split; [reflexivity|]. split.
  - intros Hj. unfold FormatOutput. rewrite decide_False by done.
    assert (Contains content content = true) as Hself.
    { pose proof (Contains_here content "") as H. by rewrite append_nil_r in H. }
    destruct (decide (format = "markdown")); [|by destruct (decide (format = "raw"))].
    by do 3 apply Contains_after.
  - apply FormatOutput_json_roundtrip_safe.
Qed.

End shellExtra.

(** ** internal/assessment: the earlier revision of the analyzer *)

Module assessmentEarlierExtra.
Import GoStrings assessment.

Section Analyzer.
Variable ToLower : string → string.
Variable Fields : string → list string.

Lemma sum_Score_least (criteria : list Criterion) :
  Forall (λ c, 1 ≤ Score c ≤ 5 ∧ MaxScore c = 5) criteria →
  Z.of_nat (length criteria) ≤ sum_Score criteria
  ∧ sum_MaxScore criteria = 5 * Z.of_nat (length criteria).
Proof.
  induction 1 as [|c cs [Hs Hm] _ IH]; [done|].
  unfold sum_Score, sum_MaxScore in *. simpl. lia.
Qed.

(** X30. The earlier revision of Analyze (eight criteria, without
    Relevance) returns exactly eight criteria, each with a Score between
    1 and 5 and MaxScore 5; its OverallScore is (sum of the scores * 100)
    / 40 and lies between 20 and 100, so the rating is never computed
    from a score below 20. *)
Theorem earlier_Analyze_scores (text : string) :
  let a := Earlier.Analyze ToLower Fields text in
  length (Criteria a) = 8%nat
  ∧ Forall (λ c, 1 ≤ Score c ≤ 5 ∧ MaxScore c = 5) (Criteria a)
  ∧ OverallScore a = (sum_Score (Criteria a) * 100) `quot` 40
  ∧ 20 ≤ OverallScore a ≤ 100
  ∧ OverallRating a = getRating (OverallScore a).
Proof.
  cbv zeta.
  destruct (Earlier.Analyze_scores ToLower Fields text) as (Hlen & Hall & Ho & Hr).
  destruct (sum_Score_least _ Hall) as [Hleast Hmax].
  rewrite Hlen in Hleast, Hmax. rewrite Hmax in Ho.
  change (5 * Z.of_nat 8) with 40 in Ho.
  split; [done|]. split; [done|]. split; [done|]. split.
  - rewrite Ho in *. rewrite Z.quot_div_nonneg in * by lia. split; [|lia].
    apply Z.div_le_lower_bound; lia.
  - unfold Earlier.Analyze. cbv zeta. by destruct (totals _) as [[t m] i].
Qed.

End Analyzer.

End assessmentEarlierExtra.
